(** * snapback contracts: telemetry event normalisation and validation

    A shallow embedding of the event pipeline of the contracts package:
    the canonical event schemas and their validator, the legacy events and
    their guards, the two legacy event mappers, the migration command and
    its programmatic entry points, the event bus, the session trigger
    bitmask codec with the session creation options, and the risk score
    conversions, followed by the properties proved of them. *)

From Stdlib Require Import ZArith QArith Qminmax String Ascii List Bool Sorted Lia Lqa DecimalString.
From stdpp Require Import gmap strings.
Import ListNotations.

Set Warnings "-register-all".

Local Open Scope list_scope.
Local Open Scope string_scope.

(** ** The JavaScript values the code manipulates *)

Module JS.

(** A [number].  A finite double is represented by the rational it denotes
    (rounding is not modelled; the code below only multiplies and divides
    by powers of ten or two, compares and clamps); the three non-finite
    doubles are kept apart.  Signed zero is not distinguished. *)
Inductive number : Type :=
| Fin (q : Q)
| NaN
| PosInf
| NegInf.

Definition of_Z (z : Z) : number := Fin (inject_Z z).

Definition isNaN (n : number) : bool :=
  match n with NaN => true | _ => false end.

Definition isFinite (n : number) : bool :=
  match n with Fin _ => true | _ => false end.

Definition Qlt_bool (x y : Q) : bool := negb (Qle_bool y x).

(** [a < b]; any comparison with [NaN] is false. *)
Definition lt (a b : number) : bool :=
  match a, b with
  | NaN, _ | _, NaN => false
  | Fin x, Fin y => Qlt_bool x y
  | NegInf, NegInf => false
  | NegInf, _ => true
  | _, NegInf => false
  | PosInf, _ => false
  | _, PosInf => true
  end.

(** [a >= b]. *)
Definition ge (a b : number) : bool :=
  match a, b with
  | NaN, _ | _, NaN => false
  | _, _ => negb (lt a b)
  end.

Definition sign_times (q : Q) (pos neg : number) : number :=
  match (q ?= 0)%Q with
  | Eq => NaN
  | Gt => pos
  | Lt => neg
  end.

(** [a * b]. *)
Definition mul (a b : number) : number :=
  match a, b with
  | NaN, _ | _, NaN => NaN
  | Fin x, Fin y => Fin (Qred (x * y))
  | Fin x, PosInf | PosInf, Fin x => sign_times x PosInf NegInf
  | Fin x, NegInf | NegInf, Fin x => sign_times x NegInf PosInf
  | PosInf, PosInf | NegInf, NegInf => PosInf
  | PosInf, NegInf | NegInf, PosInf => NegInf
  end.

(** [a / b]. *)
Definition div (a b : number) : number :=
  match a, b with
  | NaN, _ | _, NaN => NaN
  | Fin x, Fin y =>
      if Qeq_bool y 0 then sign_times x PosInf NegInf
      else Fin (Qred (x / y))
  | Fin _, _ => Fin 0
  | PosInf, Fin y => if Qlt_bool y 0 then NegInf else PosInf
  | NegInf, Fin y => if Qlt_bool y 0 then PosInf else NegInf
  | _, _ => NaN
  end.

(** [Math.min(a, b)] and [Math.max(a, b)]: [NaN] as soon as an argument is. *)
Definition Math_min (a b : number) : number :=
  if isNaN a || isNaN b then NaN else if lt b a then b else a.

Definition Math_max (a b : number) : number :=
  if isNaN a || isNaN b then NaN else if lt a b then b else a.

(** Values.  [VNative] stands for the built-in functions and objects that a
    property read can reach through the prototype chain. *)
Inductive value : Type :=
| VUndefined
| VNull
| VBool (b : bool)
| VNum (n : number)
| VStr (s : string)
| VArr (items : list value)
| VObj (fields : list (string * value))
| VNative (name : string).

(** Exceptions. *)
Inductive exn : Type :=
| RangeError (message : string)
| TypeError (message : string)
| SyntaxError (message : string)
| Error (message : string)
| ZodError (message : string).

Definition exn_message (e : exn) : string :=
  match e with
  | RangeError m => "RangeError: " ++ m
  | TypeError m => "TypeError: " ++ m
  | SyntaxError m => "SyntaxError: " ++ m
  | Error m => "Error: " ++ m
  | ZodError m => "ZodError: " ++ m
  end.

(** The outcome of running a piece of code that may throw. *)
Inductive completion (A : Type) : Type :=
| Return (a : A)
| Throw (e : exn).
Arguments Return {A} a.
Arguments Throw {A} e.

Definition bind {A B : Type} (c : completion A) (k : A -> completion B) : completion B :=
  match c with
  | Return a => k a
  | Throw e => Throw e
  end.

(** [try { return body } catch (error) { console.error(..); return null }] *)
Definition try_or_null {A : Type} (body : completion A) : completion (option A) :=
  match body with
  | Return a => Return (Some a)
  | Throw _ => Return None
  end.

(** Own properties of an object literal, first binding wins. *)
Fixpoint own (k : string) (fields : list (string * value)) : option value :=
  match fields with
  | [] => None
  | (k', v) :: rest => if String.eqb k k' then Some v else own k rest
  end.

(** The property names every plain object inherits from [Object.prototype]. *)
Definition Object_prototype : list string :=
  [ "constructor"; "hasOwnProperty"; "isPrototypeOf"; "propertyIsEnumerable";
    "toLocaleString"; "toString"; "valueOf"; "__proto__";
    "__defineGetter__"; "__defineSetter__"; "__lookupGetter__"; "__lookupSetter__" ].

Definition inherited (k : string) : bool :=
  existsb (String.eqb k) Object_prototype.

(** [obj[k]] on a plain object: own property, else the prototype chain. *)
Definition get (fields : list (string * value)) (k : string) : value :=
  match own k fields with
  | Some v => v
  | None => if inherited k then VNative k else VUndefined
  end.

(** [k in obj]. *)
Definition has (fields : list (string * value)) (k : string) : bool :=
  match own k fields with
  | Some _ => true
  | None => inherited k
  end.

(** [v.k] for an arbitrary value that is expected to be an object. *)
Definition field (v : value) (k : string) : value :=
  match v with
  | VObj fields => get fields k
  | _ => VUndefined
  end.

(** Truthiness. *)
Definition truthy (v : value) : bool :=
  match v with
  | VUndefined | VNull => false
  | VBool b => b
  | VNum (Fin q) => negb (Qeq_bool q 0)
  | VNum NaN => false
  | VNum _ => true
  | VStr s => negb (String.eqb s "")
  | VArr _ | VObj _ | VNative _ => true
  end.

(** [a || b]. *)
Definition or_else (a b : value) : value := if truthy a then a else b.

(** [s.includes(sub)]. *)
Fixpoint includes (sub s : string) : bool :=
  if String.prefix sub s then true
  else match s with
       | EmptyString => false
       | String _ s' => includes sub s'
       end.

(** [sub] occurs in [s]. *)
Definition contains (sub s : string) : Prop :=
  exists pre post : string, s = pre ++ sub ++ post.

(** No occurrence of [pat] starts at one of the first [n] positions of [s]. *)
Fixpoint free_before (pat : string) (n : nat) (s : string) : bool :=
  match n with
  | O => true
  | S n' =>
      negb (String.prefix pat s)
      && match s with
         | EmptyString => true
         | String _ s' => free_before pat n' s'
         end
  end.

Fixpoint drop (n : nat) (s : string) : string :=
  match n, s with
  | O, _ => s
  | S n', String _ s' => drop n' s'
  | S _, EmptyString => EmptyString
  end.

(** [s.replace(pat, rep)] for a string pattern and a replacement without
    [$]: the first occurrence of [pat] is replaced, and [s] is returned
    unchanged when there is none. *)
Fixpoint replace (pat rep s : string) : string :=
  if String.prefix pat s then rep ++ drop (String.length pat) s
  else match s with
       | EmptyString => EmptyString
       | String c s' => String c (replace pat rep s')
       end.

(** Decimal rendering of an integer, as a template literal does. *)
Definition string_of_Z (z : Z) : string :=
  NilZero.string_of_int (Z.to_int z).

(** [Array(n)]: a fresh array of [n] empty slots; a [RangeError] unless [n]
    is an integer in 0 .. 2^32 - 1. *)
Definition Array_ (n : number) : completion (list value) :=
  match n with
  | Fin q =>
      let r := Qred q in
      if (Zpos (Qden r) =? 1)%Z && (0 <=? Qnum r)%Z && (Qnum r <? 2 ^ 32)%Z
      then Return (repeat VUndefined (Z.to_nat (Qnum r)))
      else Throw (RangeError "Invalid array length")
  | _ => Throw (RangeError "Invalid array length")
  end.

(** [arr.fill(x)]. *)
Definition fill (x : value) (arr : list value) : list value :=
  map (fun _ => x) arr.

(** [typeof v]. *)
Definition typeof (v : value) : string :=
  match v with
  | VUndefined => "undefined"
  | VNull => "object"
  | VBool _ => "boolean"
  | VNum _ => "number"
  | VStr _ => "string"
  | VArr _ | VObj _ => "object"
  | VNative name => if String.eqb name "__proto__" then "object" else "function"
  end.

(** [Array.isArray(v)]. *)
Definition Array_isArray (v : value) : bool :=
  match v with VArr _ => true | _ => false end.

(** [Object.keys(obj)] of a plain object: its own keys, each once. *)
Fixpoint Object_keys (fields : list (string * value)) : list string :=
  match fields with
  | [] => []
  | (k, _) :: rest => k :: List.filter (fun k' => negb (String.eqb k' k)) (Object_keys rest)
  end.

End JS.

Notation "'let*' x ':=' c 'in' k" := (JS.bind c (fun x => k))
  (at level 10, x name, c at level 100, k at level 200).

(** ** The schema library

    The schemas of the package are built with the zod library, which is not
    part of the repository.  This is its documented behaviour for the
    combinators the package uses: an object schema reads each key of its
    shape from the input, drops unknown keys and reports every issue; a
    default replaces [undefined] only; a number schema rejects [NaN].  It
    accepts the infinities, as version 3 of the library does (version 4
    rejects them): what is proved below of accepted numbers is stated for
    finite ones and does not depend on this. *)

Module Zod.
Import JS.

Inductive check : Type :=
| Int
| Min (bound : Q)
| Max (bound : Q).

(** The argument of [.default(..)]: a constant, or [() => Date.now()]. *)
Inductive default_value : Type :=
| Const (v : value)
| DateNow.

Inductive schema : Type :=
| z_string
| z_number (checks : list check)
| z_boolean
| z_literal (lit : string)
| z_enum (options : list string)
| z_array (element : schema)
| z_object (shape : list (string * schema))
| z_default (inner : schema) (d : default_value)
| z_optional (inner : schema).

Record issue : Type := { code : string; path : list string }.

(** The result of [safeParse]. *)
Inductive result : Type :=
| Ok (data : value)
| Invalid (issues : list issue).

Definition fail (c : string) (p : list string) : result :=
  Invalid [ {| code := c; path := p |} ].

Definition isInteger (n : number) : bool :=
  match n with
  | Fin q => (Zpos (Qden (Qred q)) =? 1)%Z
  | _ => false
  end.

Definition check_number (n : number) (p : list string) (c : check) : list issue :=
  match c with
  | Int => if isInteger n then [] else [ {| code := "invalid_type"; path := p |} ]
  | Min b => if ge n (Fin b) then [] else [ {| code := "too_small"; path := p |} ]
  | Max b => if ge (Fin b) n then [] else [ {| code := "too_big"; path := p |} ]
  end.

Definition default_of (now : Z) (d : default_value) : value :=
  match d with
  | Const v => v
  | DateNow => VNum (of_Z now)
  end.

(** [schema.safeParse(v)], with the clock reading [now] for [Date.now()]
    and the path of [v] in the value being validated. *)
Fixpoint safeParse (now : Z) (s : schema) (p : list string) (v : value) : result :=
  match s with
  | z_string =>
      match v with VStr _ => Ok v | _ => fail "invalid_type" p end
  | z_number checks =>
      match v with
      | VNum n =>
          if isNaN n then fail "invalid_type" p
          else match flat_map (check_number n p) checks with
               | [] => Ok v
               | issues => Invalid issues
               end
      | _ => fail "invalid_type" p
      end
  | z_boolean =>
      match v with VBool _ => Ok v | _ => fail "invalid_type" p end
  | z_literal lit =>
      match v with
      | VStr s' => if String.eqb s' lit then Ok v else fail "invalid_literal" p
      | _ => fail "invalid_literal" p
      end
  | z_enum options =>
      match v with
      | VStr s' =>
          if existsb (String.eqb s') options then Ok v
          else fail "invalid_enum_value" p
      | _ => fail "invalid_type" p
      end
  | z_array element =>
      match v with
      | VArr items =>
          let '(out, issues) :=
            (fix each (i : nat) (xs : list value) : list value * list issue :=
               match xs with
               | [] => ([], [])
               | x :: xs' =>
                   let '(out, issues) := each (S i) xs' in
                   match safeParse now element (p ++ [string_of_Z (Z.of_nat i)]) x with
                   | Ok d => (d :: out, issues)
                   | Invalid here => (out, (here ++ issues)%list)
                   end
               end) O items in
          match issues with
          | [] => Ok (VArr out)
          | _ => Invalid issues
          end
      | _ => fail "invalid_type" p
      end
  | z_object shape =>
      match v with
      | VObj fields =>
          let '(out, issues) :=
            (fix each (sh : list (string * schema)) : list (string * value) * list issue :=
               match sh with
               | [] => ([], [])
               | (k, sk) :: sh' =>
                   let '(out, issues) := each sh' in
                   match safeParse now sk (p ++ [k]) (get fields k) with
                   | Ok VUndefined =>
                       if has fields k then ((k, VUndefined) :: out, issues)
                       else (out, issues)
                   | Ok d => ((k, d) :: out, issues)
                   | Invalid here => (out, (here ++ issues)%list)
                   end
               end) shape in
          match issues with
          | [] => Ok (VObj out)
          | _ => Invalid issues
          end
      | _ => fail "invalid_type" p
      end
  | z_default inner d =>
      match v with
      | VUndefined => safeParse now inner p (default_of now d)
      | _ => safeParse now inner p v
      end
  | z_optional inner =>
      match v with
      | VUndefined => Ok VUndefined
      | _ => safeParse now inner p v
      end
  end.

(** The message of the error object: a rendering of the issues, in order. *)
Definition message (issues : list issue) : string :=
  String.concat "; " (map (fun i => (code i ++ " at " ++ String.concat "." (path i))%string) issues).

(** [schema.parse(v)]: the parsed value, or a thrown [ZodError]. *)
Definition parse (now : Z) (s : schema) (v : value) : completion value :=
  match safeParse now s [] v with
  | Ok d => Return d
  | Invalid issues => Throw (ZodError (message issues))
  end.

Fixpoint lookup_shape (k : string) (shape : list (string * schema)) : option schema :=
  match shape with
  | [] => None
  | (k', s) :: rest => if String.eqb k k' then Some s else lookup_shape k rest
  end.

(** [base.extend(augmentation)]: the keys of [base], overridden where the
    augmentation redefines them, then the new keys. *)
Definition extend (base : schema) (augmentation : list (string * schema)) : schema :=
  match base with
  | z_object shape =>
      z_object
        (map (fun '(k, s) =>
                match lookup_shape k augmentation with
                | Some s' => (k, s')
                | None => (k, s)
                end) shape
         ++ List.filter (fun '(k, _) =>
                match lookup_shape k shape with
                | Some _ => false
                | None => true
                end) augmentation)
  | _ => z_object augmentation
  end.

(** [z.discriminatedUnion(discriminator, options)]. *)
Record union : Type := z_discriminatedUnion { discriminator : string; options : list schema }.

Definition literal_of (d : string) (candidate : schema) : option string :=
  match candidate with
  | z_object shape =>
      match lookup_shape d shape with
      | Some (z_literal lit) => Some lit
      | _ => None
      end
  | _ => None
  end.

Definition has_literal (d tag : string) (candidate : schema) : bool :=
  match literal_of d candidate with
  | Some lit => String.eqb lit tag
  | None => false
  end.

(** The option of the union whose discriminator literal is [tag]. *)
Definition option_for (u : union) (tag : string) : option schema :=
  find (has_literal (discriminator u) tag) (options u).

Definition safeParse_union (now : Z) (u : union) (v : value) : result :=
  match v with
  | VObj fields =>
      match get fields (discriminator u) with
      | VStr tag =>
          match option_for u tag with
          | Some chosen => safeParse now chosen [] v
          | None => fail "invalid_union_discriminator" [discriminator u]
          end
      | _ => fail "invalid_union_discriminator" [discriminator u]
      end
  | _ => fail "invalid_type" []
  end.

(** The schema an object schema gives to one of its keys. *)
Definition shape_of (s : schema) (k : string) : option schema :=
  match s with
  | z_object shape => lookup_shape k shape
  | _ => None
  end.

(** The loop of an array schema over its items, standing alone. *)
Fixpoint parse_items (now : Z) (element : schema) (p : list string) (i : nat)
    (items : list value) : list value * list issue :=
  match items with
  | [] => ([], [])
  | x :: items' =>
      let '(out, issues) := parse_items now element p (S i) items' in
      match safeParse now element (p ++ [string_of_Z (Z.of_nat i)]) x with
      | Ok d => (d :: out, issues)
      | Invalid here => (out, (here ++ issues)%list)
      end
  end.

(** Two results that differ at most in the paths of their issues. *)
Definition same_outcome (r r' : result) : Prop :=
  match r, r' with
  | Ok d, Ok d' => d = d'
  | Invalid issues, Invalid issues' => map code issues = map code issues'
  | _, _ => False
  end.

(** The schema a union gives to the [properties] of the events tagged [tag]. *)
Definition properties_schema (u : union) (tag : string) : option schema :=
  match option_for u tag with
  | Some chosen => shape_of chosen "properties"
  | None => None
  end.

(** What a field with a default holds after parsing: the value given,
    or the default when none was given. *)
Definition supplied (given fallback : value) : value :=
  match given with
  | VUndefined => fallback
  | _ => given
  end.

(** The loop of an object schema over its shape, standing alone. *)
Fixpoint parse_fields (now : Z) (p : list string) (fields : list (string * value))
    (shape : list (string * schema)) : list (string * value) * list issue :=
  match shape with
  | [] => ([], [])
  | (k, sk) :: shape' =>
      let '(out, issues) := parse_fields now p fields shape' in
      match safeParse now sk (p ++ [k]) (get fields k) with
      | Ok VUndefined =>
          if has fields k then ((k, VUndefined) :: out, issues)
          else (out, issues)
      | Ok d => ((k, d) :: out, issues)
      | Invalid here => (out, (here ++ issues)%list)
      end
  end.

(** What a key of the shape adds to the output of an object schema, given
    the parsed value of the key and the output for the keys after it. *)
Definition kept (fields : list (string * value)) (k : string) (d : value)
    (out : list (string * value)) : list (string * value) :=
  match d with
  | VUndefined => if has fields k then (k, VUndefined) :: out else out
  | _ => (k, d) :: out
  end.

(** What the output of an object schema holds at a key of the shape whose
    parsed value is [d]. *)
Definition held (fields : list (string * value)) (k : string) (d : value) : option value :=
  match d with
  | VUndefined => if has fields k then Some VUndefined else None
  | _ => Some d
  end.

Fixpoint distinct (keys : list string) : bool :=
  match keys with
  | [] => true
  | k :: rest => negb (existsb (String.eqb k) rest) && distinct rest
  end.

(** A schema none of whose object shapes names a key twice. *)
Fixpoint plain (s : schema) : bool :=
  match s with
  | z_array element => plain element
  | z_object shape =>
      distinct (map fst shape)
      && (fix all (sh : list (string * schema)) : bool :=
            match sh with
            | [] => true
            | (_, sk) :: sh' => plain sk && all sh'
            end) shape
  | z_default inner _ => plain inner
  | z_optional inner => plain inner
  | _ => true
  end.

End Zod.

(** ** The canonical events

    [telemetry/events.v1.ts]: the seven canonical event schemas, their
    discriminated union and the two validation helpers. *)

Module EventsV1.
Import JS Zod.

Definition EVENT_VERSION : string := "1.0.0".

Definition BaseEventSchema : schema :=
  z_object
    [ ("event_version", z_default z_string (Const (VStr EVENT_VERSION)));
      ("timestamp", z_default (z_number []) DateNow) ].

Definition SaveAttemptSchema : schema :=
  extend BaseEventSchema
    [ ("event", z_literal "save_attempt");
      ("properties",
        z_object
          [ ("protection", z_enum ["watch"; "warn"; "block"]);
            ("severity", z_enum ["low"; "medium"; "high"; "critical"]);
            ("file_kind", z_string);
            ("reason", z_string);
            ("ai_present", z_boolean);
            ("ai_burst", z_boolean);
            ("outcome", z_enum ["saved"; "canceled"; "blocked"]) ]) ].

Definition SnapshotCreatedSchemaV1 : schema :=
  extend BaseEventSchema
    [ ("event", z_literal "snapshot_created");
      ("properties",
        z_object
          [ ("session_id", z_string);
            ("snapshot_id", z_string);
            ("bytes_original", z_number []);
            ("bytes_stored", z_number []);
            ("dedup_hit", z_boolean);
            ("latency_ms", z_number []) ]) ].

Definition SessionFinalizedSchema : schema :=
  extend BaseEventSchema
    [ ("event", z_literal "session_finalized");
      ("properties",
        z_object
          [ ("session_id", z_string);
            ("files", z_array z_string);
            ("triggers", z_array z_string);
            ("duration_ms", z_number []);
            ("ai_present", z_boolean);
            ("ai_burst", z_boolean);
            ("highest_severity", z_enum ["low"; "medium"; "high"; "critical"]) ]) ].

Definition IssueCreatedSchema : schema :=
  extend BaseEventSchema
    [ ("event", z_literal "issue_created");
      ("properties",
        z_object
          [ ("issue_id", z_string);
            ("session_id", z_string);
            ("file_kind", z_string);
            ("type", z_enum ["secret"; "mock"; "phantom"]);
            ("severity", z_enum ["low"; "medium"; "high"; "critical"]);
            ("recommendation", z_string) ]) ].

Definition IssueResolvedSchema : schema :=
  extend BaseEventSchema
    [ ("event", z_literal "issue_resolved");
      ("properties",
        z_object
          [ ("issue_id", z_string);
            ("resolution", z_enum ["fixed"; "ignored"; "allowlisted"]) ]) ].

Definition SessionRestoredSchema : schema :=
  extend BaseEventSchema
    [ ("event", z_literal "session_restored");
      ("properties",
        z_object
          [ ("session_id", z_string);
            ("files_restored", z_array z_string);
            ("time_to_restore_ms", z_number []);
            ("reason", z_string) ]) ].

Definition PolicyChangedSchema : schema :=
  extend BaseEventSchema
    [ ("event", z_literal "policy_changed");
      ("properties",
        z_object
          [ ("pattern", z_string);
            ("from", z_enum ["watch"; "warn"; "block"; "unprotected"]);
            ("to", z_enum ["watch"; "warn"; "block"; "unprotected"]);
            ("source", z_string) ]) ].

Definition CoreEventSchema : union :=
  z_discriminatedUnion "event"
    [ SaveAttemptSchema; SnapshotCreatedSchemaV1; SessionFinalizedSchema;
      IssueCreatedSchema; IssueResolvedSchema; SessionRestoredSchema;
      PolicyChangedSchema ].

Definition CORE_TELEMETRY_EVENTS : list string :=
  [ "save_attempt"; "snapshot_created"; "session_finalized"; "issue_created";
    "issue_resolved"; "session_restored"; "policy_changed" ].

Definition validateCoreTelemetryEvent (now : Z) (event : value) : bool :=
  match safeParse_union now CoreEventSchema event with
  | Ok _ => true
  | Invalid _ => false
  end.

Definition getCoreEventValidationError (now : Z) (event : value) : option string :=
  match safeParse_union now CoreEventSchema event with
  | Ok _ => None
  | Invalid issues => Some (message issues)
  end.

End EventsV1.

(** [events/core.ts]: the same seven schemas with their OpenAPI
    annotations (which do not affect parsing) and, for [session_finalized],
    five optional AI detection fields. *)

Module EventsCore.
Import JS Zod.

Definition EVENT_VERSION : string := "1.0.0".

Definition BaseEventSchema : schema :=
  z_object
    [ ("event_version", z_default z_string (Const (VStr EVENT_VERSION)));
      ("timestamp", z_default (z_number []) DateNow) ].

Definition SaveAttemptSchema : schema :=
  extend BaseEventSchema
    [ ("event", z_literal "save_attempt");
      ("properties",
        z_object
          [ ("protection", z_enum ["watch"; "warn"; "block"]);
            ("severity", z_enum ["low"; "medium"; "high"; "critical"]);
            ("file_kind", z_string);
            ("reason", z_string);
            ("ai_present", z_boolean);
            ("ai_burst", z_boolean);
            ("outcome", z_enum ["saved"; "canceled"; "blocked"]) ]) ].

Definition SnapshotCreatedSchema : schema :=
  extend BaseEventSchema
    [ ("event", z_literal "snapshot_created");
      ("properties",
        z_object
          [ ("session_id", z_string);
            ("snapshot_id", z_string);
            ("bytes_original", z_number []);
            ("bytes_stored", z_number []);
            ("dedup_hit", z_boolean);
            ("latency_ms", z_number []) ]) ].

Definition SessionFinalizedSchema : schema :=
  extend BaseEventSchema
    [ ("event", z_literal "session_finalized");
      ("properties",
        z_object
          [ ("session_id", z_string);
            ("files", z_array z_string);
            ("triggers", z_array z_string);
            ("duration_ms", z_number []);
            ("ai_present", z_boolean);
            ("ai_burst", z_boolean);
            ("highest_severity", z_enum ["low"; "medium"; "high"; "critical"]);
            ("ai_assist_level",
              z_optional (z_enum ["none"; "light"; "medium"; "heavy"; "unknown"]));
            ("ai_confidence_score", z_optional (z_number [Min 0; Max 10]));
            ("ai_provider", z_optional (z_enum ["cursor"; "claude"; "unknown"; "none"]));
            ("ai_large_insert_count", z_optional (z_number [Int; Min 0]));
            ("ai_total_chars", z_optional (z_number [Int; Min 0])) ]) ].

Definition IssueCreatedSchema : schema :=
  extend BaseEventSchema
    [ ("event", z_literal "issue_created");
      ("properties",
        z_object
          [ ("issue_id", z_string);
            ("session_id", z_string);
            ("file_kind", z_string);
            ("type", z_enum ["secret"; "mock"; "phantom"]);
            ("severity", z_enum ["low"; "medium"; "high"; "critical"]);
            ("recommendation", z_string) ]) ].

Definition IssueResolvedSchema : schema :=
  extend BaseEventSchema
    [ ("event", z_literal "issue_resolved");
      ("properties",
        z_object
          [ ("issue_id", z_string);
            ("resolution", z_enum ["fixed"; "ignored"; "allowlisted"]) ]) ].

Definition SessionRestoredSchema : schema :=
  extend BaseEventSchema
    [ ("event", z_literal "session_restored");
      ("properties",
        z_object
          [ ("session_id", z_string);
            ("files_restored", z_array z_string);
            ("time_to_restore_ms", z_number []);
            ("reason", z_string) ]) ].

Definition PolicyChangedSchema : schema :=
  extend BaseEventSchema
    [ ("event", z_literal "policy_changed");
      ("properties",
        z_object
          [ ("pattern", z_string);
            ("from", z_enum ["watch"; "warn"; "block"; "unprotected"]);
            ("to", z_enum ["watch"; "warn"; "block"; "unprotected"]);
            ("source", z_string) ]) ].

Definition CoreEventSchema : union :=
  z_discriminatedUnion "event"
    [ SaveAttemptSchema; SnapshotCreatedSchema; SessionFinalizedSchema;
      IssueCreatedSchema; IssueResolvedSchema; SessionRestoredSchema;
      PolicyChangedSchema ].

Definition CORE_TELEMETRY_EVENTS : list string :=
  [ "save_attempt"; "snapshot_created"; "session_finalized"; "issue_created";
    "issue_resolved"; "session_restored"; "policy_changed" ].

Definition validateCoreTelemetryEvent (now : Z) (event : value) : bool :=
  match safeParse_union now CoreEventSchema event with
  | Ok _ => true
  | Invalid _ => false
  end.

Definition getCoreEventValidationError (now : Z) (event : value) : option string :=
  match safeParse_union now CoreEventSchema event with
  | Ok _ => None
  | Invalid issues => Some (message issues)
  end.

End EventsCore.

(** ** The legacy events

    [telemetry/events.ts]: one interface per legacy event, the union
    [AllowedTelemetryEvent] of the seventeen and the table of their tags. *)

Module TelemetryEvents.
Import JS.

Inductive AllowedTelemetryEvent : Type :=
| ExtensionActivatedEvent (version vscodeVersion : string) (timestamp : number)
| ExtensionDeactivatedEvent (timestamp : number)
| CommandExecutionEvent (command : string) (duration : number) (success : bool)
    (timestamp : number)
| SnapshotCreatedEvent (method : string) (filesCount : number) (timestamp : number)
| SnapBackUsedEvent (filesRestored duration : number) (success : bool)
    (timestamp : number)
| RiskDetectedEvent (riskLevel : string) (patterns : list string) (confidence : number)
    (timestamp : number)
| ViewActivatedEvent (viewId : string) (timestamp : number)
| NotificationShownEvent (notificationType : string) (actionTaken : option string)
    (timestamp : number)
| FeatureUsedEvent (feature : string) (timestamp : number)
| ErrorEvent (errorType errorMessage : string) (timestamp : number)
| WalkthroughStepCompletedEvent (stepId stepTitle : string) (timestamp : number)
| OnboardingProtectionAssignedEvent (level trigger fileType : string)
    (isFirstProtection : bool) (timestamp : number)
| OnboardingPhaseProgressedEvent (phase : number) (trigger : string)
    (unlockedFeatures : list string) (timestamp : number)
| OnboardingContextualPromptShownEvent (promptType : string) (actionTaken : option string)
    (timestamp : number)
| SignatureVerificationSuccessEvent (timestamp : number)
| SignatureVerificationFailedEvent (timestamp : number)
| RulesCachedFallbackEvent (timestamp : number).

Definition EXTENSION_ACTIVATED := "extension.activated".
Definition EXTENSION_DEACTIVATED := "extension.deactivated".
Definition COMMAND_EXECUTION := "command.execution".
Definition SNAPSHOT_CREATED := "snapshot.created".
Definition SNAPBACK_USED := "snapback.used".
Definition RISK_DETECTED := "risk.detected".
Definition VIEW_ACTIVATED := "view.activated".
Definition NOTIFICATION_SHOWN := "notification.shown".
Definition FEATURE_USED := "feature.used".
Definition ERROR := "error".
Definition WALKTHROUGH_STEP_COMPLETED := "walkthrough.step.completed".
Definition ONBOARDING_PROTECTION_ASSIGNED := "onboarding.protection.assigned".
Definition ONBOARDING_PHASE_PROGRESSED := "onboarding.phase.progressed".
Definition ONBOARDING_CONTEXTUAL_PROMPT_SHOWN := "onboarding.contextual.prompt.shown".
Definition SIGNATURE_VERIFICATION_SUCCESS := "signature.verification.success".
Definition SIGNATURE_VERIFICATION_FAILED := "signature.verification.failed".
Definition RULES_CACHED_FALLBACK := "rules.cached.fallback".

Definition TELEMETRY_EVENTS : list string :=
  [ EXTENSION_ACTIVATED; EXTENSION_DEACTIVATED; COMMAND_EXECUTION; SNAPSHOT_CREATED;
    SNAPBACK_USED; RISK_DETECTED; VIEW_ACTIVATED; NOTIFICATION_SHOWN; FEATURE_USED;
    ERROR; WALKTHROUGH_STEP_COMPLETED; ONBOARDING_PROTECTION_ASSIGNED;
    ONBOARDING_PHASE_PROGRESSED; ONBOARDING_CONTEXTUAL_PROMPT_SHOWN;
    SIGNATURE_VERIFICATION_SUCCESS; SIGNATURE_VERIFICATION_FAILED;
    RULES_CACHED_FALLBACK ].

Definition is_legacy_tag (tag : string) : bool :=
  existsb (String.eqb tag) TELEMETRY_EVENTS.

(** The base interface [TelemetryEvent]: an allowed event, or an event
    object whose tag is none of the seventeen (what the [default:] branch
    of a mapper sees). *)
Inductive TelemetryEvent : Type :=
| Allowed (e : AllowedTelemetryEvent)
| Other (event : string) (properties : option (list (string * value)))
    (timestamp : number) (unrecognized : is_legacy_tag event = false).

(** The core event a table of pairs (legacy tag, core tag) gives to a tag. *)
Definition core_event (mapping : list (string * string)) (tag : string) : option string :=
  match find (fun entry => String.eqb tag (fst entry)) mapping with
  | Some entry => Some (snd entry)
  | None => None
  end.

(** [event.event] *)
Definition event_of (e : AllowedTelemetryEvent) : string :=
  match e with
  | ExtensionActivatedEvent _ _ _ => EXTENSION_ACTIVATED
  | ExtensionDeactivatedEvent _ => EXTENSION_DEACTIVATED
  | CommandExecutionEvent _ _ _ _ => COMMAND_EXECUTION
  | SnapshotCreatedEvent _ _ _ => SNAPSHOT_CREATED
  | SnapBackUsedEvent _ _ _ _ => SNAPBACK_USED
  | RiskDetectedEvent _ _ _ _ => RISK_DETECTED
  | ViewActivatedEvent _ _ => VIEW_ACTIVATED
  | NotificationShownEvent _ _ _ => NOTIFICATION_SHOWN
  | FeatureUsedEvent _ _ => FEATURE_USED
  | ErrorEvent _ _ _ => ERROR
  | WalkthroughStepCompletedEvent _ _ _ => WALKTHROUGH_STEP_COMPLETED
  | OnboardingProtectionAssignedEvent _ _ _ _ _ => ONBOARDING_PROTECTION_ASSIGNED
  | OnboardingPhaseProgressedEvent _ _ _ _ => ONBOARDING_PHASE_PROGRESSED
  | OnboardingContextualPromptShownEvent _ _ _ => ONBOARDING_CONTEXTUAL_PROMPT_SHOWN
  | SignatureVerificationSuccessEvent _ => SIGNATURE_VERIFICATION_SUCCESS
  | SignatureVerificationFailedEvent _ => SIGNATURE_VERIFICATION_FAILED
  | RulesCachedFallbackEvent _ => RULES_CACHED_FALLBACK
  end.

(** [event.timestamp] *)
Definition timestamp_of (e : AllowedTelemetryEvent) : number :=
  match e with
  | ExtensionActivatedEvent _ _ t | ExtensionDeactivatedEvent t
  | CommandExecutionEvent _ _ _ t | SnapshotCreatedEvent _ _ t
  | SnapBackUsedEvent _ _ _ t | RiskDetectedEvent _ _ _ t
  | ViewActivatedEvent _ t | NotificationShownEvent _ _ t
  | FeatureUsedEvent _ t | ErrorEvent _ _ t
  | WalkthroughStepCompletedEvent _ _ t
  | OnboardingProtectionAssignedEvent _ _ _ _ t
  | OnboardingPhaseProgressedEvent _ _ _ t
  | OnboardingContextualPromptShownEvent _ _ t
  | SignatureVerificationSuccessEvent t | SignatureVerificationFailedEvent t
  | RulesCachedFallbackEvent t => t
  end.

Definition event (e : TelemetryEvent) : string :=
  match e with
  | Allowed a => event_of a
  | Other tag _ _ _ => tag
  end.

Definition timestamp (e : TelemetryEvent) : number :=
  match e with
  | Allowed a => timestamp_of a
  | Other _ _ t _ => t
  end.

End TelemetryEvents.

(** [telemetry/events.ts], the runtime guards: [validateTelemetryEvent] and
    the validator of each legacy event.  They take an event object as the
    base interface types it: a tag, a timestamp and properties that may be
    absent. *)

Module TelemetryGuards.
Import JS.

Record TelemetryEvent : Type :=
  { event : string;
    properties : option (list (string * value));
    timestamp : number }.

(** [event.properties.k]: a [TypeError] when the event has no properties. *)
Definition property (e : TelemetryEvent) (k : string) : completion value :=
  match properties e with
  | Some fields => Return (get fields k)
  | None => Throw (TypeError ("Cannot read properties of undefined (reading '" ++ k ++ "')"))
  end.

(** [typeof event.properties.k === t] *)
Definition has_type (e : TelemetryEvent) (k t : string) : completion bool :=
  let* v := property e k in Return (String.eqb (typeof v) t).

(** [Array.isArray(event.properties.k)] *)
Definition is_array (e : TelemetryEvent) (k : string) : completion bool :=
  let* v := property e k in Return (Array_isArray v).

(** [event.properties.k === null || typeof event.properties.k === "string"] *)
Definition null_or_string (e : TelemetryEvent) (k : string) : completion bool :=
  let* v := property e k in
  Return (match v with VNull => true | _ => String.eqb (typeof v) "string" end).

(** [Object.keys(event.properties).length === 0] *)
Definition no_properties (e : TelemetryEvent) : completion bool :=
  match properties e with
  | Some fields => Return (Nat.eqb (length (Object_keys fields)) 0)
  | None => Throw (TypeError "Cannot convert undefined or null to object")
  end.

(** [a && b], where evaluating either side may throw. *)
Definition and_then (a b : completion bool) : completion bool :=
  let* x := a in if x then b else Return false.

Definition validateExtensionActivatedEvent (e : TelemetryEvent) : completion bool :=
  and_then (has_type e "version" "string") (has_type e "vscodeVersion" "string").

Definition validateExtensionDeactivatedEvent (e : TelemetryEvent) : completion bool :=
  no_properties e.

Definition validateCommandExecutionEvent (e : TelemetryEvent) : completion bool :=
  and_then (and_then (has_type e "command" "string") (has_type e "duration" "number"))
    (has_type e "success" "boolean").

Definition validateSnapshotCreatedEvent (e : TelemetryEvent) : completion bool :=
  and_then (has_type e "method" "string") (has_type e "filesCount" "number").

Definition validateSnapBackUsedEvent (e : TelemetryEvent) : completion bool :=
  and_then (and_then (has_type e "filesRestored" "number") (has_type e "duration" "number"))
    (has_type e "success" "boolean").

Definition validateRiskDetectedEvent (e : TelemetryEvent) : completion bool :=
  and_then (and_then (has_type e "riskLevel" "string") (is_array e "patterns"))
    (has_type e "confidence" "number").

Definition validateViewActivatedEvent (e : TelemetryEvent) : completion bool :=
  has_type e "viewId" "string".

Definition validateNotificationShownEvent (e : TelemetryEvent) : completion bool :=
  and_then (has_type e "notificationType" "string") (null_or_string e "actionTaken").

Definition validateFeatureUsedEvent (e : TelemetryEvent) : completion bool :=
  has_type e "feature" "string".

Definition validateErrorEvent (e : TelemetryEvent) : completion bool :=
  and_then (has_type e "errorType" "string") (has_type e "errorMessage" "string").

Definition validateWalkthroughStepCompletedEvent (e : TelemetryEvent) : completion bool :=
  and_then (has_type e "stepId" "string") (has_type e "stepTitle" "string").

Definition validateOnboardingProtectionAssignedEvent (e : TelemetryEvent) : completion bool :=
  and_then
    (and_then (and_then (has_type e "level" "string") (has_type e "trigger" "string"))
       (has_type e "fileType" "string"))
    (has_type e "isFirstProtection" "boolean").

Definition validateOnboardingPhaseProgressedEvent (e : TelemetryEvent) : completion bool :=
  and_then (and_then (has_type e "phase" "number") (has_type e "trigger" "string"))
    (is_array e "unlockedFeatures").

Definition validateOnboardingContextualPromptShownEvent (e : TelemetryEvent)
    : completion bool :=
  and_then (has_type e "promptType" "string") (null_or_string e "actionTaken").

Definition validateSignatureVerificationSuccessEvent (e : TelemetryEvent) : completion bool :=
  no_properties e.

Definition validateSignatureVerificationFailedEvent (e : TelemetryEvent) : completion bool :=
  no_properties e.

Definition validateRulesCachedFallbackEvent (e : TelemetryEvent) : completion bool :=
  no_properties e.

Definition validateTelemetryEvent (e : TelemetryEvent) : completion bool :=
  let tag := event e in
  if String.eqb tag TelemetryEvents.EXTENSION_ACTIVATED
  then validateExtensionActivatedEvent e
  else if String.eqb tag TelemetryEvents.EXTENSION_DEACTIVATED
  then validateExtensionDeactivatedEvent e
  else if String.eqb tag TelemetryEvents.COMMAND_EXECUTION
  then validateCommandExecutionEvent e
  else if String.eqb tag TelemetryEvents.SNAPSHOT_CREATED
  then validateSnapshotCreatedEvent e
  else if String.eqb tag TelemetryEvents.SNAPBACK_USED
  then validateSnapBackUsedEvent e
  else if String.eqb tag TelemetryEvents.RISK_DETECTED
  then validateRiskDetectedEvent e
  else if String.eqb tag TelemetryEvents.VIEW_ACTIVATED
  then validateViewActivatedEvent e
  else if String.eqb tag TelemetryEvents.NOTIFICATION_SHOWN
  then validateNotificationShownEvent e
  else if String.eqb tag TelemetryEvents.FEATURE_USED
  then validateFeatureUsedEvent e
  else if String.eqb tag TelemetryEvents.ERROR
  then validateErrorEvent e
  else if String.eqb tag TelemetryEvents.WALKTHROUGH_STEP_COMPLETED
  then validateWalkthroughStepCompletedEvent e
  else if String.eqb tag TelemetryEvents.ONBOARDING_PROTECTION_ASSIGNED
  then validateOnboardingProtectionAssignedEvent e
  else if String.eqb tag TelemetryEvents.ONBOARDING_PHASE_PROGRESSED
  then validateOnboardingPhaseProgressedEvent e
  else if String.eqb tag TelemetryEvents.ONBOARDING_CONTEXTUAL_PROMPT_SHOWN
  then validateOnboardingContextualPromptShownEvent e
  else if String.eqb tag TelemetryEvents.SIGNATURE_VERIFICATION_SUCCESS
  then validateSignatureVerificationSuccessEvent e
  else if String.eqb tag TelemetryEvents.SIGNATURE_VERIFICATION_FAILED
  then validateSignatureVerificationFailedEvent e
  else if String.eqb tag TelemetryEvents.RULES_CACHED_FALLBACK
  then validateRulesCachedFallbackEvent e
  else Return false.

Definition strings (l : list string) : value := VArr (map VStr l).

Definition nullable (s : option string) : value :=
  match s with
  | Some s' => VStr s'
  | None => VNull
  end.

(** The event object of an event of one of the seventeen interfaces. *)
Definition object_of (a : TelemetryEvents.AllowedTelemetryEvent) : TelemetryEvent :=
  let properties_of :=
    match a with
    | TelemetryEvents.ExtensionActivatedEvent version vscodeVersion _ =>
        [ ("version", VStr version); ("vscodeVersion", VStr vscodeVersion) ]
    | TelemetryEvents.ExtensionDeactivatedEvent _ => []
    | TelemetryEvents.CommandExecutionEvent command duration success _ =>
        [ ("command", VStr command); ("duration", VNum duration); ("success", VBool success) ]
    | TelemetryEvents.SnapshotCreatedEvent method filesCount _ =>
        [ ("method", VStr method); ("filesCount", VNum filesCount) ]
    | TelemetryEvents.SnapBackUsedEvent filesRestored duration success _ =>
        [ ("filesRestored", VNum filesRestored); ("duration", VNum duration);
          ("success", VBool success) ]
    | TelemetryEvents.RiskDetectedEvent riskLevel patterns confidence _ =>
        [ ("riskLevel", VStr riskLevel); ("patterns", strings patterns);
          ("confidence", VNum confidence) ]
    | TelemetryEvents.ViewActivatedEvent viewId _ => [ ("viewId", VStr viewId) ]
    | TelemetryEvents.NotificationShownEvent notificationType actionTaken _ =>
        [ ("notificationType", VStr notificationType); ("actionTaken", nullable actionTaken) ]
    | TelemetryEvents.FeatureUsedEvent feature _ => [ ("feature", VStr feature) ]
    | TelemetryEvents.ErrorEvent errorType errorMessage _ =>
        [ ("errorType", VStr errorType); ("errorMessage", VStr errorMessage) ]
    | TelemetryEvents.WalkthroughStepCompletedEvent stepId stepTitle _ =>
        [ ("stepId", VStr stepId); ("stepTitle", VStr stepTitle) ]
    | TelemetryEvents.OnboardingProtectionAssignedEvent level trigger fileType
        isFirstProtection _ =>
        [ ("level", VStr level); ("trigger", VStr trigger); ("fileType", VStr fileType);
          ("isFirstProtection", VBool isFirstProtection) ]
    | TelemetryEvents.OnboardingPhaseProgressedEvent phase trigger unlockedFeatures _ =>
        [ ("phase", VNum phase); ("trigger", VStr trigger);
          ("unlockedFeatures", strings unlockedFeatures) ]
    | TelemetryEvents.OnboardingContextualPromptShownEvent promptType actionTaken _ =>
        [ ("promptType", VStr promptType); ("actionTaken", nullable actionTaken) ]
    | TelemetryEvents.SignatureVerificationSuccessEvent _ => []
    | TelemetryEvents.SignatureVerificationFailedEvent _ => []
    | TelemetryEvents.RulesCachedFallbackEvent _ => []
    end in
  {| event := TelemetryEvents.event_of a;
     properties := Some properties_of;
     timestamp := TelemetryEvents.timestamp_of a |}.

End TelemetryGuards.

(** ** The legacy mapper of the telemetry module

    [telemetry/event-mapper.ts]: the static class [TelemetryEventMapper].
    [now] is the reading of [Date.now()] during the call. *)

Module EventMapper.
Import JS Zod TelemetryEvents.

(** [telemetry/event-mapping.md]: the legacy events that have a core event
    (the table gives no core event to the other thirteen). *)
Definition event_mapping : list (string * string) :=
  [ (SNAPSHOT_CREATED, "snapshot_created");
    (SNAPBACK_USED, "session_restored");
    (RISK_DETECTED, "issue_created");
    (ONBOARDING_PROTECTION_ASSIGNED, "save_attempt") ].

Definition mapOnboardingProtectionAssigned (now : Z)
    (level trigger fileType : string) (timestamp : number) : completion (option value) :=
  try_or_null
    (let protectionMap :=
       [ ("low", VStr "watch"); ("medium", VStr "warn");
         ("high", VStr "block"); ("critical", VStr "block") ] in
     let severityMap :=
       [ ("low", VStr "low"); ("medium", VStr "medium");
         ("high", VStr "high"); ("critical", VStr "critical") ] in
     let* mappedEvent :=
       parse now EventsV1.SaveAttemptSchema
         (VObj
            [ ("event", VStr "save_attempt");
              ("properties",
                VObj
                  [ ("protection", or_else (get protectionMap level) (VStr "watch"));
                    ("severity", or_else (get severityMap level) (VStr "low"));
                    ("file_kind", VStr fileType);
                    ("reason", VStr ("onboarding_" ++ trigger));
                    ("ai_present", VBool false);
                    ("ai_burst", VBool false);
                    ("outcome", VStr "saved") ]);
              ("timestamp", VNum timestamp) ]) in
     Return mappedEvent).

Definition mapSnapshotCreated (now : Z)
    (filesCount : number) (timestamp : number) : completion (option value) :=
  try_or_null
    (let* mappedEvent :=
       parse now EventsV1.SnapshotCreatedSchemaV1
         (VObj
            [ ("event", VStr "snapshot_created");
              ("properties",
                VObj
                  [ ("session_id", VStr "legacy_session");
                    ("snapshot_id", VStr ("snap_" ++ string_of_Z now));
                    ("bytes_original", VNum (mul filesCount (of_Z 1024)));
                    ("bytes_stored", VNum (mul filesCount (of_Z 512)));
                    ("dedup_hit", VBool false);
                    ("latency_ms", VNum (of_Z 0)) ]);
              ("timestamp", VNum timestamp) ]) in
     Return mappedEvent).

Definition mapSnapBackUsed (now : Z)
    (filesRestored duration : number) (success : bool) (timestamp : number)
    : completion (option value) :=
  try_or_null
    (let* slots := Array_ filesRestored in
     let* mappedEvent :=
       parse now EventsV1.SessionRestoredSchema
         (VObj
            [ ("event", VStr "session_restored");
              ("properties",
                VObj
                  [ ("session_id", VStr "legacy_session");
                    ("files_restored", VArr (fill (VStr "legacy_file") slots));
                    ("time_to_restore_ms", VNum duration);
                    ("reason", VStr (if success then "user_initiated" else "failed")) ]);
              ("timestamp", VNum timestamp) ]) in
     Return mappedEvent).

Definition mapRiskDetected (now : Z)
    (riskLevel : string) (patterns : list string) (timestamp : number)
    : completion (option value) :=
  try_or_null
    (let severityMap :=
       [ ("low", VStr "low"); ("medium", VStr "medium");
         ("high", VStr "high"); ("critical", VStr "critical") ] in
     let issueType :=
       if existsb (fun p => includes "mock" p || includes "test" p) patterns then "mock"
       else if existsb (fun p => includes "phantom" p || includes "unused" p) patterns
            then "phantom"
            else "secret" in
     let* mappedEvent :=
       parse now EventsV1.IssueCreatedSchema
         (VObj
            [ ("event", VStr "issue_created");
              ("properties",
                VObj
                  [ ("issue_id", VStr ("issue_" ++ string_of_Z now));
                    ("session_id", VStr "legacy_session");
                    ("file_kind", VStr "unknown");
                    ("type", VStr issueType);
                    ("severity", or_else (get severityMap riskLevel) (VStr "medium"));
                    ("recommendation", VStr "Review detected risk pattern") ]);
              ("timestamp", VNum timestamp) ]) in
     Return mappedEvent).

Definition mapEvent (now : Z) (event : TelemetryEvent) : completion (option value) :=
  match event with
  | Allowed (OnboardingProtectionAssignedEvent level trigger fileType _ timestamp) =>
      mapOnboardingProtectionAssigned now level trigger fileType timestamp
  | Allowed (SnapshotCreatedEvent _ filesCount timestamp) =>
      mapSnapshotCreated now filesCount timestamp
  | Allowed (SnapBackUsedEvent filesRestored duration success timestamp) =>
      mapSnapBackUsed now filesRestored duration success timestamp
  | Allowed (RiskDetectedEvent riskLevel patterns _ timestamp) =>
      mapRiskDetected now riskLevel patterns timestamp
  | Allowed (ExtensionActivatedEvent _ _ _)
  | Allowed (ExtensionDeactivatedEvent _)
  | Allowed (CommandExecutionEvent _ _ _ _)
  | Allowed (ViewActivatedEvent _ _)
  | Allowed (NotificationShownEvent _ _ _)
  | Allowed (FeatureUsedEvent _ _)
  | Allowed (ErrorEvent _ _ _)
  | Allowed (WalkthroughStepCompletedEvent _ _ _)
  | Allowed (OnboardingPhaseProgressedEvent _ _ _ _)
  | Allowed (OnboardingContextualPromptShownEvent _ _ _)
  | Allowed (SignatureVerificationSuccessEvent _)
  | Allowed (SignatureVerificationFailedEvent _)
  | Allowed (RulesCachedFallbackEvent _) =>
      Return None
  | Other _ _ _ _ =>
      Return None
  end.

(** [mapLegacyEventsToCore]: map every event and keep the non-null results;
    [clock i] is the reading of [Date.now()] while the [i]-th event is mapped. *)
Fixpoint mapLegacyEventsToCore_from (clock : nat -> Z) (i : nat)
    (events : list TelemetryEvent) : completion (list value) :=
  match events with
  | [] => Return []
  | event :: rest =>
      let* r := mapEvent (clock i) event in
      let* rs := mapLegacyEventsToCore_from clock (S i) rest in
      Return (match r with Some c => c :: rs | None => rs end)
  end.

Definition mapLegacyEventsToCore (clock : nat -> Z) (events : list TelemetryEvent)
    : completion (list value) :=
  mapLegacyEventsToCore_from clock O events.

End EventMapper.

(** ** The legacy mapper of the events module

    [events/migrate.ts]: the class [TelemetryEventMapper] whose methods
    build a candidate, validate it and parse it. *)

Module Migrate.
Import JS Zod TelemetryEvents.

(** Modelled from the spec: [events/index.ts], which declares
    [LegacyAllowedTelemetryEvent] and [LEGACY_TELEMETRY_EVENTS], is not among
    the sources.  The spec describes one legacy taxonomy of seventeen tags,
    and this file uses exactly the tag keys and property names of
    [telemetry/events.ts], so the legacy events are taken to be those. *)
Definition LegacyAllowedTelemetryEvent : Type := TelemetryEvent.

(** Modelled from the spec: the tag table that goes with
    [LegacyAllowedTelemetryEvent], missing with [events/index.ts]. *)
Definition LEGACY_TELEMETRY_EVENTS : list string := TELEMETRY_EVENTS.

(** The core event of each legacy event the switch maps, as its comments
    group them ("Map save attempt related events", ...). *)
Definition event_mapping : list (string * string) :=
  [ (ONBOARDING_PROTECTION_ASSIGNED, "save_attempt");
    (COMMAND_EXECUTION, "save_attempt");
    (SNAPSHOT_CREATED, "snapshot_created");
    (EXTENSION_DEACTIVATED, "session_finalized");
    (RISK_DETECTED, "issue_created");
    (WALKTHROUGH_STEP_COMPLETED, "issue_resolved");
    (SNAPBACK_USED, "session_restored") ].

(** Helper method to safely extract duration from various event types. *)
Definition getDurationFromEvent (event : LegacyAllowedTelemetryEvent) : number :=
  match event with
  | Allowed (CommandExecutionEvent _ duration _ _) => duration
  | Allowed (SnapBackUsedEvent _ duration _ _) => duration
  | _ => of_Z 0
  end.

(** [if (validateCoreTelemetryEvent(candidate)) return Schema.parse(candidate);
     return null] *)
Definition validated (now : Z) (s : schema) (candidate : value) : completion (option value) :=
  if EventsCore.validateCoreTelemetryEvent now candidate
  then let* parsed := parse now s candidate in Return (Some parsed)
  else Return None.

Definition mapOnboardingProtectionAssigned (now : Z) (event : LegacyAllowedTelemetryEvent)
    : completion (option value) :=
  match event with
  | Allowed (OnboardingProtectionAssignedEvent level trigger fileType _ timestamp) =>
      let saveAttemptEvent :=
        VObj
          [ ("event", VStr "save_attempt");
            ("properties",
              VObj
                [ ("protection", VStr level);
                  ("severity", VStr "medium");
                  ("file_kind", VStr fileType);
                  ("reason", VStr trigger);
                  ("ai_present", VBool false);
                  ("ai_burst", VBool false);
                  ("outcome", VStr "saved") ]);
            ("timestamp", VNum timestamp) ] in
      validated now EventsCore.SaveAttemptSchema saveAttemptEvent
  | _ => Return None
  end.

Definition mapCommandExecution (now : Z) (event : LegacyAllowedTelemetryEvent)
    : completion (option value) :=
  match event with
  | Allowed (CommandExecutionEvent command _ success timestamp) =>
      let saveAttemptEvent :=
        VObj
          [ ("event", VStr "save_attempt");
            ("properties",
              VObj
                [ ("protection", VStr "watch");
                  ("severity", VStr "low");
                  ("file_kind", VStr "unknown");
                  ("reason", VStr command);
                  ("ai_present", VBool false);
                  ("ai_burst", VBool false);
                  ("outcome", VStr (if success then "saved" else "canceled")) ]);
            ("timestamp", VNum timestamp) ] in
      validated now EventsCore.SaveAttemptSchema saveAttemptEvent
  | _ => Return None
  end.

Definition mapSnapshotCreated (now : Z) (event : LegacyAllowedTelemetryEvent)
    : completion (option value) :=
  match event with
  | Allowed (SnapshotCreatedEvent _ _ timestamp) =>
      let snapshotCreatedEvent :=
        VObj
          [ ("event", VStr "snapshot_created");
            ("properties",
              VObj
                [ ("session_id", VStr "unknown");
                  ("snapshot_id", VStr "unknown");
                  ("bytes_original", VNum (of_Z 0));
                  ("bytes_stored", VNum (of_Z 0));
                  ("dedup_hit", VBool false);
                  ("latency_ms", VNum (getDurationFromEvent event)) ]);
            ("timestamp", VNum timestamp) ] in
      validated now EventsCore.SnapshotCreatedSchema snapshotCreatedEvent
  | _ => Return None
  end.

Definition mapExtensionDeactivated (now : Z) (event : LegacyAllowedTelemetryEvent)
    : completion (option value) :=
  match event with
  | Allowed (ExtensionDeactivatedEvent timestamp) =>
      let sessionFinalizedEvent :=
        VObj
          [ ("event", VStr "session_finalized");
            ("properties",
              VObj
                [ ("session_id", VStr "unknown");
                  ("files", VArr []);
                  ("triggers", VArr []);
                  ("duration_ms", VNum (getDurationFromEvent event));
                  ("ai_present", VBool false);
                  ("ai_burst", VBool false);
                  ("highest_severity", VStr "low") ]);
            ("timestamp", VNum timestamp) ] in
      validated now EventsCore.SessionFinalizedSchema sessionFinalizedEvent
  | _ => Return None
  end.

Definition mapRiskDetected (now : Z) (event : LegacyAllowedTelemetryEvent)
    : completion (option value) :=
  match event with
  | Allowed (RiskDetectedEvent riskLevel _ _ timestamp) =>
      let issueCreatedEvent :=
        VObj
          [ ("event", VStr "issue_created");
            ("properties",
              VObj
                [ ("issue_id", VStr "unknown");
                  ("session_id", VStr "unknown");
                  ("file_kind", VStr "unknown");
                  ("type", VStr "phantom");
                  ("severity", VStr riskLevel);
                  ("recommendation", VStr "Review detected risk") ]);
            ("timestamp", VNum timestamp) ] in
      validated now EventsCore.IssueCreatedSchema issueCreatedEvent
  | _ => Return None
  end.

Definition mapWalkthroughStepCompleted (now : Z) (event : LegacyAllowedTelemetryEvent)
    : completion (option value) :=
  match event with
  | Allowed (WalkthroughStepCompletedEvent stepId _ timestamp) =>
      let issueResolvedEvent :=
        VObj
          [ ("event", VStr "issue_resolved");
            ("properties",
              VObj
                [ ("issue_id", VStr ("onboarding-" ++ stepId));
                  ("resolution", VStr "fixed") ]);
            ("timestamp", VNum timestamp) ] in
      validated now EventsCore.IssueResolvedSchema issueResolvedEvent
  | _ => Return None
  end.

Definition mapSnapBackUsed (now : Z) (event : LegacyAllowedTelemetryEvent)
    : completion (option value) :=
  match event with
  | Allowed (SnapBackUsedEvent _ _ _ timestamp) =>
      let sessionRestoredEvent :=
        VObj
          [ ("event", VStr "session_restored");
            ("properties",
              VObj
                [ ("session_id", VStr "unknown");
                  ("files_restored", VArr []);
                  ("time_to_restore_ms", VNum (getDurationFromEvent event));
                  ("reason", VStr "user_request") ]);
            ("timestamp", VNum timestamp) ] in
      validated now EventsCore.SessionRestoredSchema sessionRestoredEvent
  | _ => Return None
  end.

Definition mapEvent (now : Z) (event : LegacyAllowedTelemetryEvent)
    : completion (option value) :=
  match event with
  | Allowed (OnboardingProtectionAssignedEvent _ _ _ _ _) =>
      mapOnboardingProtectionAssigned now event
  | Allowed (CommandExecutionEvent _ _ _ _) =>
      mapCommandExecution now event
  | Allowed (SnapshotCreatedEvent _ _ _) =>
      mapSnapshotCreated now event
  | Allowed (ExtensionDeactivatedEvent _) =>
      mapExtensionDeactivated now event
  | Allowed (RiskDetectedEvent _ _ _ _) =>
      mapRiskDetected now event
  | Allowed (WalkthroughStepCompletedEvent _ _ _) =>
      mapWalkthroughStepCompleted now event
  | Allowed (SnapBackUsedEvent _ _ _ _) =>
      mapSnapBackUsed now event
  | Allowed (ExtensionActivatedEvent _ _ _)
  | Allowed (ViewActivatedEvent _ _)
  | Allowed (NotificationShownEvent _ _ _)
  | Allowed (FeatureUsedEvent _ _)
  | Allowed (ErrorEvent _ _ _)
  | Allowed (OnboardingPhaseProgressedEvent _ _ _ _)
  | Allowed (OnboardingContextualPromptShownEvent _ _ _)
  | Allowed (SignatureVerificationSuccessEvent _)
  | Allowed (SignatureVerificationFailedEvent _)
  | Allowed (RulesCachedFallbackEvent _) =>
      Return None
  | Other _ _ _ _ =>
      Return None
  end.

End Migrate.

(** ** The migration command

    [telemetry/migrate-events.ts].  The world of a run: the files found on
    disk, the files the run has written, and the two console streams.  File
    contents are taken up to JSON serialisation, and the elements of an
    input array are legacy event objects, as the type annotation of the
    script has it.  Writing a file is assumed to succeed. *)

Module MigrateEvents.
Import JS TelemetryEvents.

(** A file found on disk. *)
Inductive file : Type :=
| Blob (text : string)                          (* text that is not JSON *)
| NonArrayJson                                  (* JSON, but not an array *)
| EventArray (events : list TelemetryEvent).    (* a JSON array of event objects *)

(** What the run writes: [JSON.stringify] of an array of canonical events
    or of an array of legacy events. *)
Inductive document : Type :=
| CoreEvents (events : list value)
| LegacyEvents (events : list TelemetryEvent).

Record world : Type :=
  { disk : gmap string file;
    written : gmap string document;
    stdout : list string;
    stderr : list string }.

Definition console_log (line : string) (w : world) : world :=
  {| disk := disk w; written := written w;
     stdout := stdout w ++ [line]; stderr := stderr w |}.

Definition console_error (line : string) (w : world) : world :=
  {| disk := disk w; written := written w;
     stdout := stdout w; stderr := stderr w ++ [line] |}.

Definition writeFileSync (path : string) (data : document) (w : world) : world :=
  {| disk := disk w; written := <[path := data]> (written w);
     stdout := stdout w; stderr := stderr w |}.

(** [JSON.parse(readFileSync(path, "utf8"))]: the events of the array, or
    [None] when the content is JSON but not an array. *)
Definition read_events (w : world) (path : string)
    : completion (option (list TelemetryEvent)) :=
  match disk w !! path with
  | None => Throw (Error ("ENOENT: no such file or directory, open '" ++ path ++ "'"))
  | Some (Blob _) => Throw (SyntaxError "Unexpected token in JSON")
  | Some NonArrayJson => Return None
  | Some (EventArray events) => Return (Some events)
  end.

Definition count {A : Type} (l : list A) : string :=
  string_of_Z (Z.of_nat (length l)).

(** The conversion loop of [main]: [coreEvents] and [unmappedEvents] are the
    two arrays the loop pushes to; [clock i] is the reading of [Date.now()]
    while the [i]-th event is mapped. *)
Fixpoint convert (clock : nat -> Z) (i : nat) (legacyEvents : list TelemetryEvent)
    (coreEvents : list value) (unmappedEvents : list TelemetryEvent)
    : completion (list value * list TelemetryEvent) :=
  match legacyEvents with
  | [] => Return (coreEvents, unmappedEvents)
  | legacyEvent :: rest =>
      let* coreEvent := EventMapper.mapEvent (clock i) legacyEvent in
      match coreEvent with
      | Some c => convert clock (S i) rest (coreEvents ++ [c]) unmappedEvents
      | None => convert clock (S i) rest coreEvents (unmappedEvents ++ [legacyEvent])
      end
  end.

(** The partition the loop is meant to compute, stated on its own: the
    result of the mapper on the event at position [i] ... *)
Definition result_at (clock : nat -> Z) (i : nat) (e : TelemetryEvent) : option value :=
  match EventMapper.mapEvent (clock i) e with
  | Return r => r
  | Throw _ => None
  end.

(** ... the non-null results, in input order ([i] is the position of the
    first event) ... *)
Fixpoint non_null_results (clock : nat -> Z) (i : nat) (events : list TelemetryEvent)
    : list value :=
  match events with
  | [] => []
  | e :: rest =>
      match result_at clock i e with
      | Some c => c :: non_null_results clock (S i) rest
      | None => non_null_results clock (S i) rest
      end
  end.

(** ... and the events whose result is null, in input order. *)
Fixpoint null_result_events (clock : nat -> Z) (i : nat) (events : list TelemetryEvent)
    : list TelemetryEvent :=
  match events with
  | [] => []
  | e :: rest =>
      match result_at clock i e with
      | Some _ => null_result_events clock (S i) rest
      | None => e :: null_result_events clock (S i) rest
      end
  end.

(** [catch (error) { console.error("Migration failed:", error); process.exit(1) }] *)
Definition failed (e : exn) (w : world) : Z * world :=
  (1%Z, console_error ("Migration failed: " ++ exn_message e) w).

(** [main()], run with the arguments [args] after the script name; the
    result is the exit code and the world the process leaves behind. *)
Definition main (clock : nat -> Z) (args : list string) (w : world) : Z * world :=
  match args with
  | inputFile :: outputFile :: _ =>
      match read_events w inputFile with
      | Throw e => failed e w
      | Return None => failed (Error "Input file must contain an array of events") w
      | Return (Some legacyEvents) =>
          let w :=
            console_log ("Read " ++ count legacyEvents ++ " legacy events from " ++ inputFile) w in
          match convert clock O legacyEvents [] [] with
          | Throw e => failed e w
          | Return (coreEvents, unmappedEvents) =>
              let w := console_log ("Converted " ++ count coreEvents ++ " events to core format") w in
              let w :=
                console_log
                  (count unmappedEvents
                   ++ " events could not be mapped (contributing to derived metrics only)") w in
              let w := writeFileSync outputFile (CoreEvents coreEvents) w in
              let w :=
                console_log ("Wrote " ++ count coreEvents ++ " core events to " ++ outputFile) w in
              let w :=
                if (0 <? length unmappedEvents)%nat then
                  let unmappedFile := replace ".json" "-unmapped.json" outputFile in
                  let w := writeFileSync unmappedFile (LegacyEvents unmappedEvents) w in
                  console_log
                    ("Wrote " ++ count unmappedEvents ++ " unmapped events to " ++ unmappedFile) w
                else w in
              (0%Z, console_log "Migration completed successfully!" w)
          end
      end
  | _ =>
      let w := console_log "Usage: node migrate-events.js <input-file> <output-file>" w in
      let w :=
        console_log "  input-file: Path to JSON file containing legacy events array" w in
      let w := console_log "  output-file: Path to write converted core events" w in
      (1%Z, w)
  end.


(** [migrateLegacyEventsToArray(legacyEvents)] *)
Definition migrateLegacyEventsToArray (clock : nat -> Z) (legacyEvents : list TelemetryEvent)
    : completion (list value) :=
  EventMapper.mapLegacyEventsToCore clock legacyEvents.

End MigrateEvents.

(** ** The event bus

    The class [EventBus]: a map from event names to sets of handlers.
    Handlers are functions, compared by identity: [H] is the type of these
    identities and [call] is what calling a handler does.  A handler can
    reach the bus itself (to subscribe, unsubscribe or emit) and the rest
    of the program, [W], and it may throw. *)

Module EventBus.
Import JS.

Section Bus.
Context {H P W : Type} `{EqDecision H}.

(** The field [m].  A [Set] keeps its elements in insertion order, each once. *)
Definition bus : Type := gmap string (list H).

(** [this.m.get(k)], with no handlers for a key the map does not hold. *)
Definition handlers (b : bus) (k : string) : list H :=
  match b !! k with
  | Some set => set
  | None => []
  end.

(** [set.add(h)] *)
Definition Set_add (h : H) (set : list H) : list H :=
  if bool_decide (h ∈ set) then set else (set ++ [h])%list.

(** [set.delete(h)] *)
Definition Set_delete (h : H) (set : list H) : bool * list H :=
  (bool_decide (h ∈ set), List.filter (fun h' => negb (bool_decide (h' = h))) set).

(** [on(k, h)]: the bus afterwards.  The function it returns is
    [unsubscribe k h]. *)
Definition on (k : string) (h : H) (b : bus) : bus :=
  <[k := Set_add h (handlers b k)]> b.

(** [() => set.delete(h)], where [set] is the set the map holds for [k]
    from the call of [on] onwards. *)
Definition unsubscribe (k : string) (h : H) (b : bus) : bool * bus :=
  match b !! k with
  | Some set => let '(found, set') := Set_delete h set in (found, <[k := set']> b)
  | None => (false, b)
  end.

Variable call : H -> P -> bus * W -> completion (bus * W).

(** [for (const h of handlersArray) h(p)] *)
Fixpoint call_each (handlersArray : list H) (p : P) (s : bus * W) : completion (bus * W) :=
  match handlersArray with
  | [] => Return s
  | h :: rest => let* s' := call h p s in call_each rest p s'
  end.

(** [emit(k, p)]: the handlers are copied to an array before any is called. *)
Definition emit (k : string) (p : P) (s : bus * W) : completion (bus * W) :=
  match fst s !! k with
  | Some set => call_each set p s
  | None => Return s
  end.

End Bus.

(** A handler that only records its call. *)
Definition record {H P : Type} `{EqDecision H} (h : H) (p : P)
    (s : @bus H * list (H * P)) : completion (@bus H * list (H * P)) :=
  Return (fst s, (snd s ++ [(h, p)])%list).

End EventBus.

(** ** The session trigger bitmask

    The codec of the session schemas.  A mask is an integer; the 32-bit
    conversion that [|] and [&] apply leaves the four low bits as they are. *)

Module Session.

Inductive SessionTrigger : Type :=
| filewatch
| pre_commit
| manual
| idle_finalize.

(** Bit 0 (1): filewatch, bit 1 (2): pre-commit, bit 2 (4): manual,
    bit 3 (8): idle-finalize. *)
Definition trigger_bit (t : SessionTrigger) : Z :=
  match t with
  | filewatch => 1
  | pre_commit => 2
  | manual => 4
  | idle_finalize => 8
  end.

Definition encodeTriggerBitmask (triggers : list SessionTrigger) : Z :=
  fold_left
    (fun mask trigger =>
       match trigger with
       | filewatch => Z.lor mask 1
       | pre_commit => Z.lor mask 2
       | manual => Z.lor mask 4
       | idle_finalize => Z.lor mask 8
       end)
    triggers 0%Z.

Definition push (triggers : list SessionTrigger) (t : SessionTrigger) : list SessionTrigger :=
  app triggers [t].

Definition decodeTriggerBitmask (mask : Z) : list SessionTrigger :=
  let triggers := [] in
  let triggers := if (Z.land mask 1 =? 0)%Z then triggers else push triggers filewatch in
  let triggers := if (Z.land mask 2 =? 0)%Z then triggers else push triggers pre_commit in
  let triggers := if (Z.land mask 4 =? 0)%Z then triggers else push triggers manual in
  let triggers := if (Z.land mask 8 =? 0)%Z then triggers else push triggers idle_finalize in
  triggers.

(** The string a trigger is in the source. *)
Definition trigger_name (t : SessionTrigger) : string :=
  match t with
  | filewatch => "filewatch"
  | pre_commit => "pre-commit"
  | manual => "manual"
  | idle_finalize => "idle-finalize"
  end.

End Session.

(** The schemas of the session triggers and of the session creation
    options. *)

Module SessionSchemas.
Import JS Zod.

Definition SessionTriggerSchema : schema :=
  z_enum ["filewatch"; "pre-commit"; "manual"; "idle-finalize"].

Definition CreateSessionOptionsSchema : schema :=
  z_object
    [ ("workspaceUri", z_string);
      ("triggers", z_default (z_array SessionTriggerSchema) (Const (VArr [VStr "filewatch"])));
      ("name", z_optional z_string) ].

End SessionSchemas.

(** ** Risk score conversion *)

Module RiskConversion.
Import JS.

Inductive RiskScale : Type :=
| Scale_0_1      (* "0-1" *)
| Scale_0_10     (* "0-10" *)
| Scale_0_100.   (* "0-100" *)

Definition convertRisk_0_1_to_0_10 (score : number) : number :=
  Math_min (of_Z 10) (Math_max (of_Z 0) (mul score (of_Z 10))).

Definition convertRisk_0_10_to_0_1 (score : number) : number :=
  Math_min (of_Z 1) (Math_max (of_Z 0) (div score (of_Z 10))).

Definition convertRisk_0_100_to_0_10 (score : number) : number :=
  Math_min (of_Z 10) (Math_max (of_Z 0) (div score (of_Z 10))).

Definition convertRisk_0_10_to_0_100 (score : number) : number :=
  Math_min (of_Z 100) (Math_max (of_Z 0) (mul score (of_Z 10))).

Definition normalizeRiskScore (score : number) (fromScale : RiskScale) : number :=
  match fromScale with
  | Scale_0_1 => convertRisk_0_1_to_0_10 score
  | Scale_0_10 => Math_min (of_Z 10) (Math_max (of_Z 0) score)
  | Scale_0_100 => convertRisk_0_100_to_0_10 score
  end.

Definition getSeverity (score : number) : string :=
  let normalizedScore := Math_min (of_Z 10) (Math_max (of_Z 0) score) in
  if lt normalizedScore (Fin 3.0) then "low"
  else if lt normalizedScore (Fin 5.0) then "medium"
  else if lt normalizedScore (Fin 7.0) then "high"
  else "critical".

(** A score on the canonical scale: a finite number between 0 and 10. *)
Definition on_scale_0_10 (score : number) : Prop :=
  match score with
  | Fin q => (0 <= q <= 10)%Q
  | _ => False
  end.

Definition exceedsThreshold (score threshold : number) : bool :=
  ge score threshold.

Definition batchNormalize (scores : list number) (fromScale : RiskScale) : list number :=
  map (fun score => normalizeRiskScore score fromScale) scores.

End RiskConversion.

(** * Properties *)

(** ** The trigger bitmask codec *)

Section Codec.
Import Session.
Local Open Scope Z_scope.

Lemma small_mask_cases (m : Z) :
  0 <= m < 16 ->
  m = 0 \/ m = 1 \/ m = 2 \/ m = 3 \/ m = 4 \/ m = 5 \/ m = 6 \/ m = 7 \/
  m = 8 \/ m = 9 \/ m = 10 \/ m = 11 \/ m = 12 \/ m = 13 \/ m = 14 \/ m = 15.
Proof. lia. Qed.

Ltac each_small_mask H :=
  apply small_mask_cases in H;
  repeat (destruct H as [H | H]; [subst |]); [.. | subst].

Lemma lor_bit_small (m : Z) (t : SessionTrigger) :
  0 <= m < 16 -> 0 <= Z.lor m (trigger_bit t) < 16.
Proof.
  intros H. each_small_mask H; destruct t; vm_compute; split; congruence.
Qed.

Lemma encode_from_small (triggers : list SessionTrigger) (acc : Z) :
  0 <= acc < 16 ->
  0 <= fold_left
         (fun mask trigger =>
            match trigger with
            | filewatch => Z.lor mask 1
            | pre_commit => Z.lor mask 2
            | manual => Z.lor mask 4
            | idle_finalize => Z.lor mask 8
            end) triggers acc < 16.
Proof.
  revert acc. induction triggers as [| t rest IH]; intros acc Hacc; simpl.
  - exact Hacc.
  - apply IH. pose proof (lor_bit_small acc t Hacc) as Hs.
    destruct t; exact Hs.
Qed.

Lemma encode_small (triggers : list SessionTrigger) :
  0 <= encodeTriggerBitmask triggers < 16.
Proof. apply encode_from_small. lia. Qed.

(** Encoding what a small mask decodes to gives the mask back. *)
Lemma encode_decode_small (m : Z) :
  0 <= m < 16 -> encodeTriggerBitmask (decodeTriggerBitmask m) = m.
Proof.
  intros H. each_small_mask H; reflexivity.
Qed.

(** Decoding lists each trigger at most once, in bit order. *)
Lemma decode_sorted (m : Z) :
  StronglySorted (fun a b => trigger_bit a < trigger_bit b) (decodeTriggerBitmask m).
Proof.
  unfold decodeTriggerBitmask.
  destruct (Z.land m 1 =? 0), (Z.land m 2 =? 0), (Z.land m 4 =? 0), (Z.land m 8 =? 0);
    simpl; repeat constructor; simpl; lia.
Qed.

(** C6: one round trip through the codec normalises a trigger sequence,
    a second one changes nothing: decode (encode (decode (encode ts))) is
    decode (encode ts) for every sequence ts, duplicates and the empty
    sequence included; encode [] is 0 and decode 0 is []. *)
Theorem C6_codec_round_trip_idempotent :
  (forall ts : list SessionTrigger,
     decodeTriggerBitmask (encodeTriggerBitmask
       (decodeTriggerBitmask (encodeTriggerBitmask ts)))
     = decodeTriggerBitmask (encodeTriggerBitmask ts))
  /\ encodeTriggerBitmask [] = 0
  /\ decodeTriggerBitmask 0 = [].
Proof.
  split; [| split; reflexivity].
  intros ts. rewrite encode_decode_small; [reflexivity | apply encode_small].
Qed.

(** *** More on the codec *)

Lemma land_trigger_bits (t t' : SessionTrigger) :
  Z.land (trigger_bit t') (trigger_bit t) <> 0 <-> t' = t.
Proof.
  destruct t, t'; cbn; split; intros H;
    try reflexivity; try discriminate; try (exfalso; apply H; reflexivity).
Qed.

(** A bit of the mask is set exactly when its trigger is in the list. *)
Lemma encode_from_bit (t : SessionTrigger) (triggers : list SessionTrigger) (acc : Z) :
  Z.land
    (fold_left
       (fun mask trigger =>
          match trigger with
          | filewatch => Z.lor mask 1
          | pre_commit => Z.lor mask 2
          | manual => Z.lor mask 4
          | idle_finalize => Z.lor mask 8
          end) triggers acc) (trigger_bit t) <> 0
  <-> Z.land acc (trigger_bit t) <> 0 \/ In t triggers.
Proof.
  revert acc. induction triggers as [| t' rest IH]; intros acc; cbn [fold_left In].
  - tauto.
  - rewrite IH.
    replace (match t' with
             | filewatch => Z.lor acc 1
             | pre_commit => Z.lor acc 2
             | manual => Z.lor acc 4
             | idle_finalize => Z.lor acc 8
             end) with (Z.lor acc (trigger_bit t')) by (destruct t'; reflexivity).
    rewrite Z.land_lor_distr_l.
    pose proof (land_trigger_bits t t') as Hbits.
    pose proof (Z.lor_eq_0_iff (Z.land acc (trigger_bit t))
                  (Z.land (trigger_bit t') (trigger_bit t))) as Hlor.
    destruct (Z.eq_dec (Z.land acc (trigger_bit t)) 0),
             (Z.eq_dec (Z.land (trigger_bit t') (trigger_bit t)) 0); tauto.
Qed.

Lemma encode_bit (t : SessionTrigger) (triggers : list SessionTrigger) :
  Z.land (encodeTriggerBitmask triggers) (trigger_bit t) <> 0 <-> In t triggers.
Proof.
  unfold encodeTriggerBitmask. rewrite encode_from_bit. rewrite Z.land_0_l. tauto.
Qed.

Lemma decode_bit (t : SessionTrigger) (m : Z) :
  In t (decodeTriggerBitmask m) <-> Z.land m (trigger_bit t) <> 0.
Proof.
  unfold decodeTriggerBitmask, push.
  destruct (Z.land m 1 =? 0) eqn:E1, (Z.land m 2 =? 0) eqn:E2,
           (Z.land m 4 =? 0) eqn:E4, (Z.land m 8 =? 0) eqn:E8;
    rewrite ?Z.eqb_eq, ?Z.eqb_neq in *;
    destruct t; cbn; intuition congruence.
Qed.

(** What decoding depends on: which of the four low bits are set. *)
Lemma decode_by_bits (m m' : Z) :
  (forall t, Z.land m (trigger_bit t) <> 0 <-> Z.land m' (trigger_bit t) <> 0) ->
  decodeTriggerBitmask m = decodeTriggerBitmask m'.
Proof.
  intros Hbits. unfold decodeTriggerBitmask.
  pose proof (Hbits filewatch) as H1. pose proof (Hbits pre_commit) as H2.
  pose proof (Hbits manual) as H4. pose proof (Hbits idle_finalize) as H8.
  cbn in H1, H2, H4, H8.
  destruct (Z.land m 1 =? 0) eqn:E1, (Z.land m' 1 =? 0) eqn:E1',
           (Z.land m 2 =? 0) eqn:E2, (Z.land m' 2 =? 0) eqn:E2',
           (Z.land m 4 =? 0) eqn:E4, (Z.land m' 4 =? 0) eqn:E4',
           (Z.land m 8 =? 0) eqn:E8, (Z.land m' 8 =? 0) eqn:E8';
    rewrite ?Z.eqb_eq, ?Z.eqb_neq in *; try reflexivity; exfalso; tauto.
Qed.

(** X1: the mask depends only on which triggers occur in the sequence: two
    sequences with the same members, in any order and with any repetitions,
    encode to the same mask. *)
Theorem X1_encode_depends_on_membership_only :
  forall ts ts' : list SessionTrigger,
    (forall t, In t ts <-> In t ts') ->
    encodeTriggerBitmask ts = encodeTriggerBitmask ts'.
Proof.
  intros ts ts' Hsame.
  rewrite <- (encode_decode_small (encodeTriggerBitmask ts)) by apply encode_small.
  rewrite <- (encode_decode_small (encodeTriggerBitmask ts')) by apply encode_small.
  f_equal. apply decode_by_bits. intros t. rewrite !encode_bit. apply Hsame.
Qed.

Lemma X1_encode_depends_on_membership_only_witness :
  encodeTriggerBitmask [manual; filewatch; manual; manual]
  = encodeTriggerBitmask [filewatch; manual].
Proof.
  apply X1_encode_depends_on_membership_only.
  intros t. destruct t; cbn; intuition congruence.
Defined.

(** X2: decoding the mask of a sequence lists exactly the triggers of the
    sequence, each once, in the order of their bits (filewatch, pre-commit,
    manual, idle-finalize). *)
Theorem X2_decode_encode_lists_each_trigger_once :
  forall ts : list SessionTrigger,
    let decoded := decodeTriggerBitmask (encodeTriggerBitmask ts) in
    (forall t, In t decoded <-> In t ts)
    /\ List.NoDup decoded
    /\ StronglySorted (fun a b => trigger_bit a < trigger_bit b) decoded.
Proof.
  intros ts decoded. subst decoded. split; [| split].
  - intros t. rewrite decode_bit, encode_bit. reflexivity.
  - generalize (encodeTriggerBitmask ts). intros m. unfold decodeTriggerBitmask, push.
    destruct (Z.land m 1 =? 0), (Z.land m 2 =? 0), (Z.land m 4 =? 0), (Z.land m 8 =? 0);
      cbn; repeat constructor; cbn; intuition discriminate.
  - generalize (encodeTriggerBitmask ts). intros m. unfold decodeTriggerBitmask, push.
    destruct (Z.land m 1 =? 0), (Z.land m 2 =? 0), (Z.land m 4 =? 0), (Z.land m 8 =? 0);
      cbn; repeat constructor; cbn; lia.
Qed.

Lemma low_bits (m : Z) (t : SessionTrigger) :
  Z.land (Z.land m 15) (trigger_bit t) = Z.land m (trigger_bit t).
Proof.
  rewrite <- Z.land_assoc. f_equal. destruct t; reflexivity.
Qed.

(** X3: decodeTriggerBitmask reads the four low bits of the mask only: for
    every integer mask, negative ones included, decoding it is decoding its
    four low bits, and encoding what it decodes to gives those four bits. *)
Theorem X3_decode_reads_the_four_low_bits :
  forall m : Z,
    decodeTriggerBitmask m = decodeTriggerBitmask (Z.land m 15)
    /\ encodeTriggerBitmask (decodeTriggerBitmask m) = Z.land m 15.
Proof.
  intros m.
  assert (Hdecode : decodeTriggerBitmask m = decodeTriggerBitmask (Z.land m 15)).
  { apply decode_by_bits. intros t. rewrite low_bits. reflexivity. }
  split; [exact Hdecode |].
  rewrite Hdecode. apply encode_decode_small.
  change 15 with (Z.ones 4). rewrite Z.land_ones by lia.
  apply Z.mod_pos_bound. lia.
Qed.

End Codec.

(** ** Risk scores *)

Section Risk.
Import JS RiskConversion.
Local Open Scope Q_scope.

Lemma Qlt_bool_true (x y : Q) : Qlt_bool x y = true -> x < y.
Proof.
  unfold Qlt_bool. intros H. apply negb_true_iff in H.
  apply Qnot_le_lt. intros Hle. apply Qle_bool_iff in Hle. congruence.
Qed.

Lemma Qlt_bool_false (x y : Q) : Qlt_bool x y = false -> y <= x.
Proof.
  unfold Qlt_bool. intros H. apply negb_false_iff in H.
  apply Qle_bool_iff. exact H.
Qed.

Ltac split_comparisons :=
  repeat match goal with
    | |- context [Qlt_bool ?a ?b] =>
        let E := fresh "E" in
        destruct (Qlt_bool a b) eqn:E;
        [apply Qlt_bool_true in E | apply Qlt_bool_false in E]; simpl
    end.

(** Clamping a finite number gives a number on the scale. *)
Lemma clamp_finite (q : Q) :
  on_scale_0_10 (Math_min (of_Z 10) (Math_max (of_Z 0) (Fin q))).
Proof.
  unfold Math_min, Math_max, of_Z, lt; simpl.
  split_comparisons; unfold inject_Z in *; lra.
Qed.

Lemma clamp_not_NaN (score : number) :
  score <> NaN -> on_scale_0_10 (Math_min (of_Z 10) (Math_max (of_Z 0) score)).
Proof.
  intros H. destruct score as [q | | |].
  - apply clamp_finite.
  - congruence.
  - vm_compute. split; discriminate.
  - vm_compute. split; discriminate.
Qed.

Lemma times_ten_not_NaN (score : number) : score <> NaN -> mul score (of_Z 10) <> NaN.
Proof. destruct score; intros H; try congruence; vm_compute; discriminate. Qed.

Lemma tenth_not_NaN (score : number) : score <> NaN -> div score (of_Z 10) <> NaN.
Proof. destruct score; intros H; try congruence; vm_compute; discriminate. Qed.

(** C7: on the 0-10 scale the severity is low on [0,3), medium on [3,5),
    high on [5,7) and critical on [7,10], each bucket including its lower
    bound; 2.9 is low, 3.0 medium, 6.9 high, 7.0 and 10 critical. *)
Theorem C7_severity_buckets :
  (forall q : Q,
     (0 <= q < 3 -> getSeverity (Fin q) = "low"%string) /\
     (3 <= q < 5 -> getSeverity (Fin q) = "medium"%string) /\
     (5 <= q < 7 -> getSeverity (Fin q) = "high"%string) /\
     (7 <= q <= 10 -> getSeverity (Fin q) = "critical"%string))
  /\ getSeverity (Fin 2.9) = "low"%string
  /\ getSeverity (Fin 3.0) = "medium"%string
  /\ getSeverity (Fin 6.9) = "high"%string
  /\ getSeverity (Fin 7.0) = "critical"%string
  /\ getSeverity (Fin 10) = "critical"%string.
Proof.
  split; [| repeat split; reflexivity].
  intros q.
  repeat split; intros [Hlo Hhi];
    unfold getSeverity, Math_min, Math_max, of_Z, lt; simpl;
    split_comparisons; unfold inject_Z in *; try reflexivity; exfalso; lra.
Qed.

Lemma C7_severity_buckets_witness :
  getSeverity (Fin 2.9) = "low"%string /\ getSeverity (Fin 4) = "medium"%string
  /\ getSeverity (Fin 5) = "high"%string /\ getSeverity (Fin 8.5) = "critical"%string.
Proof.
  destruct C7_severity_buckets as [H _].
  split; [| split; [| split]].
  - apply (H 2.9). lra.
  - apply (H 4). lra.
  - apply (H 5). lra.
  - apply (H 8.5). lra.
Defined.

(** C8, as stated, fails on NaN, which the clamp lets through. *)
Lemma C8_counterexample_NaN :
  normalizeRiskScore NaN Scale_0_10 = NaN
  /\ ~ on_scale_0_10 (normalizeRiskScore NaN Scale_0_10).
Proof. split; [reflexivity | intros H; exact H]. Qed.

(** C8 (amended): for every score other than NaN and every source scale,
    normalizeRiskScore returns a number in the closed interval from 0 to
    10, negative, out-of-range and infinite inputs included, and for NaN
    it returns NaN; -5 on the 0-1 scale gives 0, 2 on the 0-1 scale gives
    10 and 150 on the 0-100 scale gives 10. *)
Theorem C8_normalize_clamps :
  (forall (score : number) (fromScale : RiskScale),
     score <> NaN -> on_scale_0_10 (normalizeRiskScore score fromScale))
  /\ (forall fromScale : RiskScale, normalizeRiskScore NaN fromScale = NaN)
  /\ normalizeRiskScore (Fin (-5)) Scale_0_1 = Fin 0
  /\ normalizeRiskScore (Fin 2) Scale_0_1 = Fin 10
  /\ normalizeRiskScore (Fin 150) Scale_0_100 = Fin 10.
Proof.
  split; [| split; [intros []; reflexivity | repeat split; reflexivity]].
  intros score fromScale H. destruct fromScale; simpl.
  - apply clamp_not_NaN, times_ten_not_NaN, H.
  - apply clamp_not_NaN, H.
  - apply clamp_not_NaN, tenth_not_NaN, H.
Qed.

Lemma C8_normalize_clamps_witness :
  on_scale_0_10 (normalizeRiskScore (Fin 150) Scale_0_100)
  /\ on_scale_0_10 (normalizeRiskScore NegInf Scale_0_1).
Proof.
  destruct C8_normalize_clamps as [H _].
  split; apply H; discriminate.
Defined.

(** *** More on the conversions *)

(** Clamping between 0 and an upper bound gives a finite number within the bounds. *)
Lemma clamp_between (hi : Z) (score : number) :
  (0 <= hi)%Z -> score <> NaN ->
  exists q : Q,
    Math_min (of_Z hi) (Math_max (of_Z 0) score) = Fin q /\ 0 <= q <= inject_Z hi.
Proof.
  intros Hhi Hscore.
  assert (Hq : 0 <= inject_Z hi) by (change 0 with (inject_Z 0); rewrite <- Zle_Qle; exact Hhi).
  destruct score as [q | | |]; [| congruence | |].
  - unfold Math_min, Math_max, of_Z, lt; simpl.
    split_comparisons; eexists; (split; [reflexivity |]); unfold inject_Z in *; simpl in *; lra.
  - exists (inject_Z hi). split; [| lra].
    unfold Math_min, Math_max, of_Z, lt; simpl. reflexivity.
  - unfold Math_min, Math_max, of_Z, lt; simpl.
    split_comparisons; eexists; (split; [reflexivity |]); unfold inject_Z in *; simpl in *; lra.
Qed.

(** Clamping a second time changes nothing. *)
Lemma clamp_idempotent (score : number) :
  let clamped := Math_min (of_Z 10) (Math_max (of_Z 0) score) in
  Math_min (of_Z 10) (Math_max (of_Z 0) clamped) = clamped.
Proof.
  destruct score as [q | | |]; try reflexivity.
  unfold Math_min, Math_max, of_Z, lt; simpl.
  split_comparisons; try reflexivity; exfalso; unfold inject_Z in *; simpl in *; lra.
Qed.

Lemma getSeverity_thresholds (score : number) :
  getSeverity score =
  (if lt score (Fin 3.0) then "low"
   else if lt score (Fin 5.0) then "medium"
   else if lt score (Fin 7.0) then "high"
   else "critical")%string.
Proof.
  destruct score as [q | | |]; try reflexivity.
  unfold getSeverity, Math_min, Math_max, of_Z, lt; simpl.
  split_comparisons; try reflexivity; exfalso; unfold inject_Z in *; simpl in *; lra.
Qed.

(** X4: the clamp inside getSeverity never changes the verdict: the severity
    is low below 3, medium below 5, high below 7 and critical otherwise,
    decided on the score itself.  So every negative score and -Infinity are
    low, every score above 10 and +Infinity are critical, and NaN, for which
    every comparison fails, is critical. *)
Theorem X4_getSeverity_compares_the_score_itself :
  (forall score : number,
     getSeverity score =
     (if lt score (Fin 3.0) then "low"
      else if lt score (Fin 5.0) then "medium"
      else if lt score (Fin 7.0) then "high"
      else "critical")%string)
  /\ (forall q : Q, q < 0 -> getSeverity (Fin q) = "low"%string)
  /\ (forall q : Q, 10 < q -> getSeverity (Fin q) = "critical"%string)
  /\ getSeverity NegInf = "low"%string
  /\ getSeverity PosInf = "critical"%string
  /\ getSeverity NaN = "critical"%string.
Proof.
  split; [exact getSeverity_thresholds |].
  split; [| split; [| repeat split; reflexivity]].
  - intros q Hq. rewrite getSeverity_thresholds. unfold lt.
    split_comparisons; try reflexivity; exfalso; lra.
  - intros q Hq. rewrite getSeverity_thresholds. unfold lt.
    split_comparisons; try reflexivity; exfalso; lra.
Qed.

Lemma X4_getSeverity_compares_the_score_itself_witness :
  getSeverity (Fin (-2.5)) = "low"%string /\ getSeverity (Fin 12) = "critical"%string.
Proof.
  destruct X4_getSeverity_compares_the_score_itself as (_ & Hlow & Hcritical & _).
  split; [apply Hlow | apply Hcritical]; lra.
Defined.

(** X5: the two conversions away from the 0-10 scale clamp as well: for
    every score other than NaN, convertRisk_0_10_to_0_1 returns a number in
    the interval from 0 to 1 and convertRisk_0_10_to_0_100 one in the
    interval from 0 to 100, infinite scores included; both return NaN for
    NaN. *)
Theorem X5_conversions_from_0_10_clamp :
  (forall score : number,
     score <> NaN ->
     (exists q : Q, convertRisk_0_10_to_0_1 score = Fin q /\ 0 <= q <= 1)
     /\ (exists q : Q, convertRisk_0_10_to_0_100 score = Fin q /\ 0 <= q <= 100))
  /\ convertRisk_0_10_to_0_1 NaN = NaN
  /\ convertRisk_0_10_to_0_100 NaN = NaN.
Proof.
  split; [| split; reflexivity].
  intros score Hscore. split.
  - apply (clamp_between 1); [lia |]. apply tenth_not_NaN, Hscore.
  - apply (clamp_between 100); [lia |]. apply times_ten_not_NaN, Hscore.
Qed.

Lemma X5_conversions_from_0_10_clamp_witness :
  (exists q : Q, convertRisk_0_10_to_0_1 (Fin 25) = Fin q /\ 0 <= q <= 1)
  /\ (exists q : Q, convertRisk_0_10_to_0_100 NegInf = Fin q /\ 0 <= q <= 100).
Proof.
  destruct X5_conversions_from_0_10_clamp as [H _].
  split.
  - apply (H (Fin 25)). discriminate.
  - apply (H NegInf). discriminate.
Defined.

(** X6: a normalised score is a fixed point: normalising it again as a 0-10
    score returns it unchanged, for every score (NaN too) and every source
    scale; and the severity of a 0-10 score is the severity of its
    normalisation. *)
Theorem X6_normalizing_twice_changes_nothing :
  forall (score : number) (fromScale : RiskScale),
    let normalized := normalizeRiskScore score fromScale in
    normalizeRiskScore normalized Scale_0_10 = normalized
    /\ getSeverity (normalizeRiskScore score Scale_0_10) = getSeverity score.
Proof.
  intros score fromScale normalized. split.
  - subst normalized. destruct fromScale; cbn [normalizeRiskScore];
      unfold convertRisk_0_1_to_0_10, convertRisk_0_100_to_0_10; apply clamp_idempotent.
  - cbn [normalizeRiskScore]. unfold getSeverity at 1.
    rewrite clamp_idempotent. reflexivity.
Qed.

(** X7: getSeverity and exceedsThreshold agree on every score other than
    NaN: the severity is critical exactly when the score reaches the
    threshold 7, and low exactly when it does not reach 3.  The comparison
    is inclusive: a score reaches itself.  With NaN on either side
    exceedsThreshold is false, although the severity of NaN is critical. *)
Theorem X7_thresholds_and_severity :
  (forall score : number,
     score <> NaN ->
     (exceedsThreshold score (Fin 3.0) = false <-> getSeverity score = "low"%string)
     /\ (exceedsThreshold score (Fin 7.0) = true <-> getSeverity score = "critical"%string))
  /\ (forall n : number, exceedsThreshold NaN n = false /\ exceedsThreshold n NaN = false)
  /\ (forall q : Q, exceedsThreshold (Fin q) (Fin q) = true).
Proof.
  split; [| split].
  - intros score Hscore. rewrite getSeverity_thresholds.
    destruct score as [q | | |]; [| congruence | |].
    + unfold exceedsThreshold, ge, lt. 
      split; split_comparisons; split; intros H; try reflexivity; try discriminate; exfalso; lra.
    + split; split; intros H; try reflexivity; discriminate.
    + split; split; intros H; try reflexivity; discriminate.
  - intros n. split; [reflexivity | destruct n; reflexivity].
  - intros q. unfold exceedsThreshold, ge, lt, Qlt_bool.
    assert (H : Qle_bool q q = true) by (apply Qle_bool_iff; lra).
    rewrite H. reflexivity.
Qed.

Lemma X7_thresholds_and_severity_witness :
  exceedsThreshold (Fin 8.5) (Fin 7.0) = true <-> getSeverity (Fin 8.5) = "critical"%string.
Proof.
  destruct X7_thresholds_and_severity as [H _].
  apply (H (Fin 8.5)). discriminate.
Defined.

Lemma normalize_on_scale (score : number) (fromScale : RiskScale) :
  score <> NaN -> on_scale_0_10 (normalizeRiskScore score fromScale).
Proof.
  intros H. destruct fromScale; simpl.
  - apply clamp_not_NaN, times_ten_not_NaN, H.
  - apply clamp_not_NaN, H.
  - apply clamp_not_NaN, tenth_not_NaN, H.
Qed.

(** X8: batchNormalize returns as many scores as it is given; when none of
    them is NaN every returned score is on the 0-10 scale, and a NaN stays
    NaN at its position. *)
Theorem X8_batchNormalize_keeps_length_and_scale :
  forall (scores : list number) (fromScale : RiskScale),
    length (batchNormalize scores fromScale) = length scores
    /\ (Forall (fun score => score <> NaN) scores ->
        Forall on_scale_0_10 (batchNormalize scores fromScale))
    /\ (forall i : nat,
          nth_error scores i = Some NaN ->
          nth_error (batchNormalize scores fromScale) i = Some NaN).
Proof.
  intros scores fromScale. unfold batchNormalize. split; [apply length_map | split].
  - intros Hscores. induction Hscores as [| score rest Hscore _ IH]; cbn [map]; constructor.
    + apply normalize_on_scale, Hscore.
    + exact IH.
  - intros i Hi. rewrite nth_error_map, Hi. destruct fromScale; reflexivity.
Qed.

Lemma X8_batchNormalize_keeps_length_and_scale_witness :
  Forall on_scale_0_10 (batchNormalize [Fin 0.5; Fin 2; NegInf] Scale_0_1).
Proof.
  apply (proj1 (proj2 (X8_batchNormalize_keeps_length_and_scale [Fin 0.5; Fin 2; NegInf] Scale_0_1))).
  repeat constructor; discriminate.
Defined.

End Risk.

(** ** Strings *)

Section Strings.
Import JS.

Lemma prefix_iff (s1 s2 : string) :
  String.prefix s1 s2 = true <-> exists post : string, s2 = s1 ++ post.
Proof.
  revert s2. induction s1 as [| a s1 IH]; intros s2.
  - split; [intros _; exists s2; reflexivity |].
    intros _. destruct s2; reflexivity.
  - destruct s2 as [| b s2]; simpl.
    + split; [discriminate | intros [post H]; discriminate].
    + destruct (ascii_dec a b) as [-> | Hne].
      * rewrite IH. split; intros [post H]; exists post.
        -- rewrite H. reflexivity.
        -- injection H as H. exact H.
      * split; [discriminate |]. intros [post H]. injection H as Hab _. congruence.
Qed.

Lemma includes_unfold (sub s : string) :
  includes sub s =
  if String.prefix sub s then true
  else match s with
       | EmptyString => false
       | String _ s' => includes sub s'
       end.
Proof. destruct s; reflexivity. Qed.

(** [includes] decides occurrence. *)
Lemma includes_iff (sub s : string) : includes sub s = true <-> contains sub s.
Proof.
  split.
  - induction s as [| c s IH]; rewrite includes_unfold;
      destruct (String.prefix sub _) eqn:Hp; try discriminate.
    + intros _. apply prefix_iff in Hp as [post ->]. exists "", post. reflexivity.
    + intros _. apply prefix_iff in Hp as [post ->]. exists "", post. reflexivity.
    + intros H. destruct (IH H) as (pre & post & ->).
      exists (String c pre), post. reflexivity.
  - intros (pre & post & ->).
    induction pre as [| c pre IH]; rewrite includes_unfold.
    + replace (String.prefix sub ("" ++ sub ++ post)) with true; [reflexivity |].
      symmetry. apply prefix_iff. exists post. reflexivity.
    + destruct (String.prefix sub _); [reflexivity | exact IH].
Qed.

Lemma replace_unfold (pat rep s : string) :
  replace pat rep s =
  if String.prefix pat s then rep ++ drop (String.length pat) s
  else match s with
       | EmptyString => EmptyString
       | String c s' => String c (replace pat rep s')
       end.
Proof. destruct s; reflexivity. Qed.

Lemma append_cons (c : ascii) (s t : string) : String c s ++ t = String c (s ++ t).
Proof. reflexivity. Qed.

Lemma drop_app (s t : string) : drop (String.length s) (s ++ t) = t.
Proof. induction s as [| c s IH]; [destruct t; reflexivity | exact IH]. Qed.

(** [replace] rewrites the first occurrence of the pattern. *)
Lemma replace_first (pat rep pre post : string) :
  free_before pat (String.length pre) (pre ++ pat ++ post) = true ->
  replace pat rep (pre ++ pat ++ post) = pre ++ rep ++ post.
Proof.
  induction pre as [| c pre IH]; intros Hfree; rewrite replace_unfold.
  - replace (String.prefix pat ("" ++ pat ++ post)) with true.
    + change ("" ++ pat ++ post) with (pat ++ post).
      change ("" ++ rep ++ post) with (rep ++ post).
      rewrite drop_app. reflexivity.
    + symmetry. apply prefix_iff. exists post. reflexivity.
  - rewrite !append_cons in *. cbn [String.length free_before] in Hfree.
    apply andb_true_iff in Hfree as [Hhere Hrest].
    apply negb_true_iff in Hhere. rewrite Hhere.
    f_equal. apply IH, Hrest.
Qed.

(** Without an occurrence of the pattern, [replace] changes nothing. *)
Lemma replace_absent (pat rep s : string) :
  includes pat s = false -> replace pat rep s = s.
Proof.
  induction s as [| c s IH]; rewrite includes_unfold, replace_unfold;
    destruct (String.prefix pat _); try discriminate; [reflexivity |].
  intros H. f_equal. apply IH, H.
Qed.

End Strings.

(** ** The legacy mappers *)

#[local] Arguments JS.string_of_Z : simpl never.
#[local] Arguments JS.mul : simpl never.
#[local] Arguments JS.of_Z : simpl never.
#[local] Arguments JS.Array_ : simpl never.

Section Mappers.
Import JS Zod TelemetryEvents.

Ltac case_string s lit :=
  let E := fresh "E" in
  destruct (String.eqb s lit) eqn:E;
  [apply String.eqb_eq in E; subst s |].

(** An array filled with one string passes [z.array(z.string())] unchanged. *)
Lemma safeParse_filled (now : Z) (p : list string) (slots : list value) (s : string) :
  safeParse now (z_array z_string) p (VArr (fill (VStr s) slots))
  = Ok (VArr (fill (VStr s) slots)).
Proof.
  cbn [safeParse].
  assert (H : forall i,
    (fix each (i : nat) (xs : list value) {struct xs} : list value * list issue :=
       match xs with
       | [] => ([], [])
       | x :: xs' =>
           let '(out, issues) := each (S i) xs' in
           match safeParse now z_string (p ++ [string_of_Z (Z.of_nat i)]) x with
           | Ok d => (d :: out, issues)
           | Invalid here => (out, (here ++ issues)%list)
           end
       end) i (fill (VStr s) slots) = (fill (VStr s) slots, [])).
  { induction slots as [| x rest IH]; intros i; [reflexivity |].
    cbn [fill map]. unfold fill in IH. rewrite IH. reflexivity. }
  cbn [safeParse] in H. rewrite H. reflexivity.
Qed.

(** *** [telemetry/event-mapper.ts]: what each method returns *)

Lemma EventMapper_mapOnboardingProtectionAssigned_result
    (now : Z) (level trigger fileType : string) (ts : number) :
  EventMapper.mapOnboardingProtectionAssigned now level trigger fileType ts =
  Return
    (match
       or_else (get [ ("low", VStr "watch"); ("medium", VStr "warn");
                      ("high", VStr "block"); ("critical", VStr "block") ] level)
               (VStr "watch"),
       or_else (get [ ("low", VStr "low"); ("medium", VStr "medium");
                      ("high", VStr "high"); ("critical", VStr "critical") ] level)
               (VStr "low")
     with
     | VStr protection, VStr severity =>
         if isNaN ts then None
         else Some
           (VObj
              [ ("event_version", VStr "1.0.0");
                ("timestamp", VNum ts);
                ("event", VStr "save_attempt");
                ("properties",
                  VObj
                    [ ("protection", VStr protection);
                      ("severity", VStr severity);
                      ("file_kind", VStr fileType);
                      ("reason", VStr ("onboarding_" ++ trigger));
                      ("ai_present", VBool false);
                      ("ai_burst", VBool false);
                      ("outcome", VStr "saved") ]) ])
     | _, _ => None
     end).
Proof.
  unfold EventMapper.mapOnboardingProtectionAssigned, parse.
  case_string level "low"; [destruct ts; reflexivity |].
  case_string level "medium"; [destruct ts; reflexivity |].
  case_string level "high"; [destruct ts; reflexivity |].
  case_string level "critical"; [destruct ts; reflexivity |].
  unfold get, own; rewrite E, E0, E1, E2.
  destruct (inherited level); destruct ts; reflexivity.
Qed.

Lemma EventMapper_mapSnapshotCreated_result (now : Z) (filesCount ts : number) :
  EventMapper.mapSnapshotCreated now filesCount ts =
  Return
    (if isNaN filesCount || isNaN ts then None
     else Some
       (VObj
          [ ("event_version", VStr "1.0.0");
            ("timestamp", VNum ts);
            ("event", VStr "snapshot_created");
            ("properties",
              VObj
                [ ("session_id", VStr "legacy_session");
                  ("snapshot_id", VStr ("snap_" ++ string_of_Z now));
                  ("bytes_original", VNum (mul filesCount (of_Z 1024)));
                  ("bytes_stored", VNum (mul filesCount (of_Z 512)));
                  ("dedup_hit", VBool false);
                  ("latency_ms", VNum (of_Z 0)) ]) ])).
Proof.
  unfold EventMapper.mapSnapshotCreated, parse.
  destruct filesCount, ts; reflexivity.
Qed.

Lemma EventMapper_mapSnapBackUsed_result
    (now : Z) (filesRestored duration : number) (success : bool) (ts : number) :
  EventMapper.mapSnapBackUsed now filesRestored duration success ts =
  Return
    (match Array_ filesRestored with
     | Return slots =>
         if isNaN duration || isNaN ts then None
         else Some
           (VObj
              [ ("event_version", VStr "1.0.0");
                ("timestamp", VNum ts);
                ("event", VStr "session_restored");
                ("properties",
                  VObj
                    [ ("session_id", VStr "legacy_session");
                      ("files_restored", VArr (fill (VStr "legacy_file") slots));
                      ("time_to_restore_ms", VNum duration);
                      ("reason", VStr (if success then "user_initiated" else "failed")) ]) ])
     | Throw _ => None
     end).
Proof.
  unfold EventMapper.mapSnapBackUsed, parse.
  destruct (Array_ filesRestored) as [slots | e]; [| reflexivity].
  cbn [bind try_or_null].
  pose proof (safeParse_filled now ["properties"; "files_restored"] slots "legacy_file") as Hf.
  cbn. cbn in Hf. rewrite Hf.
  destruct duration, ts; reflexivity.
Qed.

Lemma EventMapper_mapRiskDetected_result
    (now : Z) (riskLevel : string) (patterns : list string) (ts : number) :
  EventMapper.mapRiskDetected now riskLevel patterns ts =
  Return
    (match
       or_else (get [ ("low", VStr "low"); ("medium", VStr "medium");
                      ("high", VStr "high"); ("critical", VStr "critical") ] riskLevel)
               (VStr "medium")
     with
     | VStr severity =>
         if isNaN ts then None
         else Some
           (VObj
              [ ("event_version", VStr "1.0.0");
                ("timestamp", VNum ts);
                ("event", VStr "issue_created");
                ("properties",
                  VObj
                    [ ("issue_id", VStr ("issue_" ++ string_of_Z now));
                      ("session_id", VStr "legacy_session");
                      ("file_kind", VStr "unknown");
                      ("type",
                        VStr
                          (if existsb (fun p => includes "mock" p || includes "test" p) patterns
                           then "mock"
                           else if existsb
                                     (fun p => includes "phantom" p || includes "unused" p)
                                     patterns
                                then "phantom"
                                else "secret"));
                      ("severity", VStr severity);
                      ("recommendation", VStr "Review detected risk pattern") ]) ])
     | _ => None
     end).
Proof.
  unfold EventMapper.mapRiskDetected, parse.
  destruct (existsb (fun p => includes "mock" p || includes "test" p) patterns);
  destruct (existsb (fun p => includes "phantom" p || includes "unused" p) patterns);
  (case_string riskLevel "low"; [destruct ts; reflexivity |];
   case_string riskLevel "medium"; [destruct ts; reflexivity |];
   case_string riskLevel "high"; [destruct ts; reflexivity |];
   case_string riskLevel "critical"; [destruct ts; reflexivity |];
   unfold get, own; rewrite E, E0, E1, E2;
   destruct (inherited riskLevel); destruct ts; reflexivity).
Qed.

(** What a lookup in one of the level tables, with its fallback, yields:
    the table entry for the four levels, the fallback for any other name
    that [Object.prototype] does not define, and the inherited member for
    the names it defines. *)
Lemma level_lookup (low medium high critical fallback level : string) :
  fallback <> "" -> low <> "" -> medium <> "" -> high <> "" -> critical <> "" ->
  or_else (get [ ("low", VStr low); ("medium", VStr medium);
                 ("high", VStr high); ("critical", VStr critical) ] level)
          (VStr fallback)
  = if String.eqb level "low" then VStr low
    else if String.eqb level "medium" then VStr medium
    else if String.eqb level "high" then VStr high
    else if String.eqb level "critical" then VStr critical
    else if inherited level then VNative level
    else VStr fallback.
Proof.
  intros Hf Hl Hm Hh Hc. unfold get, own.
  destruct (String.eqb level "low") eqn:E1.
  { unfold or_else, truthy. apply String.eqb_neq in Hl. rewrite Hl. reflexivity. }
  destruct (String.eqb level "medium") eqn:E2.
  { unfold or_else, truthy. apply String.eqb_neq in Hm. rewrite Hm. reflexivity. }
  destruct (String.eqb level "high") eqn:E3.
  { unfold or_else, truthy. apply String.eqb_neq in Hh. rewrite Hh. reflexivity. }
  destruct (String.eqb level "critical") eqn:E4.
  { unfold or_else, truthy. apply String.eqb_neq in Hc. rewrite Hc. reflexivity. }
  destruct (inherited level); reflexivity.
Qed.

(** *** [events/migrate.ts]: what each method returns *)

Ltac by_cases_on_numbers :=
  repeat match goal with
    | n : number |- _ => destruct n
    end;
  reflexivity.

Lemma Migrate_mapOnboardingProtectionAssigned_result
    (now : Z) (level trigger fileType : string) (first : bool) (ts : number) :
  Migrate.mapEvent now (Allowed (OnboardingProtectionAssignedEvent level trigger fileType first ts)) =
  Return
    (if existsb (String.eqb level) ["watch"; "warn"; "block"] && negb (isNaN ts)
     then Some
       (VObj
          [ ("event_version", VStr "1.0.0");
            ("timestamp", VNum ts);
            ("event", VStr "save_attempt");
            ("properties",
              VObj
                [ ("protection", VStr level);
                  ("severity", VStr "medium");
                  ("file_kind", VStr fileType);
                  ("reason", VStr trigger);
                  ("ai_present", VBool false);
                  ("ai_burst", VBool false);
                  ("outcome", VStr "saved") ]) ])
     else None).
Proof.
  unfold Migrate.mapEvent, Migrate.mapOnboardingProtectionAssigned, Migrate.validated,
    EventsCore.validateCoreTelemetryEvent, parse.
  case_string level "watch"; [by_cases_on_numbers |].
  case_string level "warn"; [by_cases_on_numbers |].
  case_string level "block"; [by_cases_on_numbers |].
  cbn. rewrite E, E0, E1. by_cases_on_numbers.
Qed.

Lemma Migrate_mapCommandExecution_result
    (now : Z) (command : string) (duration : number) (success : bool) (ts : number) :
  Migrate.mapEvent now (Allowed (CommandExecutionEvent command duration success ts)) =
  Return
    (if isNaN ts then None
     else Some
       (VObj
          [ ("event_version", VStr "1.0.0");
            ("timestamp", VNum ts);
            ("event", VStr "save_attempt");
            ("properties",
              VObj
                [ ("protection", VStr "watch");
                  ("severity", VStr "low");
                  ("file_kind", VStr "unknown");
                  ("reason", VStr command);
                  ("ai_present", VBool false);
                  ("ai_burst", VBool false);
                  ("outcome", VStr (if success then "saved" else "canceled")) ]) ])).
Proof.
  unfold Migrate.mapEvent, Migrate.mapCommandExecution, Migrate.validated,
    EventsCore.validateCoreTelemetryEvent, parse.
  destruct success, ts; reflexivity.
Qed.

Lemma Migrate_mapSnapshotCreated_result
    (now : Z) (method : string) (filesCount ts : number) :
  Migrate.mapEvent now (Allowed (SnapshotCreatedEvent method filesCount ts)) =
  Return
    (if isNaN ts then None
     else Some
       (VObj
          [ ("event_version", VStr "1.0.0");
            ("timestamp", VNum ts);
            ("event", VStr "snapshot_created");
            ("properties",
              VObj
                [ ("session_id", VStr "unknown");
                  ("snapshot_id", VStr "unknown");
                  ("bytes_original", VNum (of_Z 0));
                  ("bytes_stored", VNum (of_Z 0));
                  ("dedup_hit", VBool false);
                  ("latency_ms", VNum (of_Z 0)) ]) ])).
Proof.
  unfold Migrate.mapEvent, Migrate.mapSnapshotCreated, Migrate.validated,
    EventsCore.validateCoreTelemetryEvent, parse.
  destruct ts; reflexivity.
Qed.

Lemma Migrate_mapExtensionDeactivated_result (now : Z) (ts : number) :
  Migrate.mapEvent now (Allowed (ExtensionDeactivatedEvent ts)) =
  Return
    (if isNaN ts then None
     else Some
       (VObj
          [ ("event_version", VStr "1.0.0");
            ("timestamp", VNum ts);
            ("event", VStr "session_finalized");
            ("properties",
              VObj
                [ ("session_id", VStr "unknown");
                  ("files", VArr []);
                  ("triggers", VArr []);
                  ("duration_ms", VNum (of_Z 0));
                  ("ai_present", VBool false);
                  ("ai_burst", VBool false);
                  ("highest_severity", VStr "low") ]) ])).
Proof.
  unfold Migrate.mapEvent, Migrate.mapExtensionDeactivated, Migrate.validated,
    EventsCore.validateCoreTelemetryEvent, parse.
  destruct ts; reflexivity.
Qed.

Lemma Migrate_mapRiskDetected_result
    (now : Z) (riskLevel : string) (patterns : list string) (confidence ts : number) :
  Migrate.mapEvent now (Allowed (RiskDetectedEvent riskLevel patterns confidence ts)) =
  Return
    (if existsb (String.eqb riskLevel) ["low"; "medium"; "high"; "critical"]
        && negb (isNaN ts)
     then Some
       (VObj
          [ ("event_version", VStr "1.0.0");
            ("timestamp", VNum ts);
            ("event", VStr "issue_created");
            ("properties",
              VObj
                [ ("issue_id", VStr "unknown");
                  ("session_id", VStr "unknown");
                  ("file_kind", VStr "unknown");
                  ("type", VStr "phantom");
                  ("severity", VStr riskLevel);
                  ("recommendation", VStr "Review detected risk") ]) ])
     else None).
Proof.
  unfold Migrate.mapEvent, Migrate.mapRiskDetected, Migrate.validated,
    EventsCore.validateCoreTelemetryEvent, parse.
  case_string riskLevel "low"; [destruct ts; reflexivity |].
  case_string riskLevel "medium"; [destruct ts; reflexivity |].
  case_string riskLevel "high"; [destruct ts; reflexivity |].
  case_string riskLevel "critical"; [destruct ts; reflexivity |].
  cbn. rewrite E, E0, E1, E2. destruct ts; reflexivity.
Qed.

Lemma Migrate_mapWalkthroughStepCompleted_result
    (now : Z) (stepId stepTitle : string) (ts : number) :
  Migrate.mapEvent now (Allowed (WalkthroughStepCompletedEvent stepId stepTitle ts)) =
  Return
    (if isNaN ts then None
     else Some
       (VObj
          [ ("event_version", VStr "1.0.0");
            ("timestamp", VNum ts);
            ("event", VStr "issue_resolved");
            ("properties",
              VObj
                [ ("issue_id", VStr ("onboarding-" ++ stepId));
                  ("resolution", VStr "fixed") ]) ])).
Proof.
  unfold Migrate.mapEvent, Migrate.mapWalkthroughStepCompleted, Migrate.validated,
    EventsCore.validateCoreTelemetryEvent, parse.
  destruct ts; reflexivity.
Qed.

Lemma Migrate_mapSnapBackUsed_result
    (now : Z) (filesRestored duration : number) (success : bool) (ts : number) :
  Migrate.mapEvent now (Allowed (SnapBackUsedEvent filesRestored duration success ts)) =
  Return
    (if isNaN duration || isNaN ts then None
     else Some
       (VObj
          [ ("event_version", VStr "1.0.0");
            ("timestamp", VNum ts);
            ("event", VStr "session_restored");
            ("properties",
              VObj
                [ ("session_id", VStr "unknown");
                  ("files_restored", VArr []);
                  ("time_to_restore_ms", VNum duration);
                  ("reason", VStr "user_request") ]) ])).
Proof.
  unfold Migrate.mapEvent, Migrate.mapSnapBackUsed, Migrate.validated,
    EventsCore.validateCoreTelemetryEvent, parse.
  destruct duration, ts; reflexivity.
Qed.

(** *** Consequences *)

Lemma event_of_known (a : AllowedTelemetryEvent) : In (event_of a) TELEMETRY_EVENTS.
Proof.
  destruct a; unfold TELEMETRY_EVENTS, event_of;
    repeat (try (left; reflexivity); right).
Qed.

(** The telemetry mapper never throws: every method catches. *)
Lemma EventMapper_mapEvent_returns (now : Z) (event : TelemetryEvent) :
  exists r, EventMapper.mapEvent now event = Return r.
Proof.
  destruct event as [a | tag props ts Hfresh]; [destruct a |];
    cbn [EventMapper.mapEvent];
    rewrite ?EventMapper_mapOnboardingProtectionAssigned_result,
      ?EventMapper_mapSnapshotCreated_result,
      ?EventMapper_mapSnapBackUsed_result,
      ?EventMapper_mapRiskDetected_result;
    eexists; reflexivity.
Qed.

(** The events mapper never throws: it parses only what it has validated. *)
Lemma Migrate_mapEvent_returns (now : Z) (event : TelemetryEvent) :
  exists r, Migrate.mapEvent now event = Return r.
Proof.
  destruct event as [a | tag props ts Hfresh]; [destruct a |];
    rewrite ?Migrate_mapOnboardingProtectionAssigned_result,
      ?Migrate_mapCommandExecution_result,
      ?Migrate_mapSnapshotCreated_result,
      ?Migrate_mapExtensionDeactivated_result,
      ?Migrate_mapRiskDetected_result,
      ?Migrate_mapWalkthroughStepCompleted_result,
      ?Migrate_mapSnapBackUsed_result;
    eexists; reflexivity.
Qed.

Ltac open_result H :=
  repeat match type of H with
    | Return (match ?x with _ => _ end) = _ => destruct x eqn:?; try discriminate H
    | Return (if ?x then _ else _) = _ => destruct x eqn:?; try discriminate H
    end;
  injection H as H; subst.

Lemma EventMapper_timestamp (now : Z) (event : TelemetryEvent) (c : value) :
  EventMapper.mapEvent now event = Return (Some c) ->
  field c "timestamp" = VNum (timestamp event).
Proof.
  destruct event as [a | tag props ts Hfresh]; [destruct a |];
    cbn [EventMapper.mapEvent]; try discriminate;
    rewrite ?EventMapper_mapOnboardingProtectionAssigned_result,
      ?EventMapper_mapSnapshotCreated_result,
      ?EventMapper_mapSnapBackUsed_result,
      ?EventMapper_mapRiskDetected_result;
    intros H; open_result H; reflexivity.
Qed.

Lemma Migrate_timestamp (now : Z) (event : TelemetryEvent) (c : value) :
  Migrate.mapEvent now event = Return (Some c) ->
  field c "timestamp" = VNum (timestamp event).
Proof.
  destruct event as [a | tag props ts Hfresh]; [destruct a |];
    try (cbn [Migrate.mapEvent]; discriminate);
    rewrite ?Migrate_mapOnboardingProtectionAssigned_result,
      ?Migrate_mapCommandExecution_result,
      ?Migrate_mapSnapshotCreated_result,
      ?Migrate_mapExtensionDeactivated_result,
      ?Migrate_mapRiskDetected_result,
      ?Migrate_mapWalkthroughStepCompleted_result,
      ?Migrate_mapSnapBackUsed_result;
    intros H; open_result H; reflexivity.
Qed.

(** C10: whenever a mapper returns a canonical event, its timestamp is the
    timestamp of the legacy event; neither mapper substitutes a default or
    the capture time. *)
Theorem C10_timestamp_carried_over :
  forall (now : Z) (event : TelemetryEvent) (c : value),
    (EventMapper.mapEvent now event = Return (Some c) ->
     field c "timestamp" = VNum (timestamp event))
    /\ (Migrate.mapEvent now event = Return (Some c) ->
        field c "timestamp" = VNum (timestamp event)).
Proof.
  intros now event c. split.
  - apply EventMapper_timestamp.
  - apply Migrate_timestamp.
Qed.

Lemma C10_timestamp_carried_over_witness :
  exists c : value,
    EventMapper.mapEvent 5
      (Allowed (RiskDetectedEvent "high" ["mock_test_helper"] (Fin 0.5) (of_Z 1700000000000)))
    = Return (Some c)
    /\ field c "timestamp" = VNum (of_Z 1700000000000).
Proof.
  eexists. split.
  - reflexivity.
  - apply (proj1 (C10_timestamp_carried_over 5%Z
      (Allowed (RiskDetectedEvent "high" ["mock_test_helper"] (Fin 0.5) (of_Z 1700000000000)))
      _)).
    reflexivity.
Defined.

Ltac finish_numbers :=
  repeat match goal with
    | n : number |- _ => destruct n
    end;
  try (simpl in *; discriminate);
  reflexivity.

(** What the telemetry mapper returns is a canonical event. *)
Lemma EventMapper_canonical (now now' : Z) (event : TelemetryEvent) (c : value) :
  EventMapper.mapEvent now event = Return (Some c) ->
  EventsV1.validateCoreTelemetryEvent now' c = true.
Proof.
  destruct event as [a | tag props ts Hfresh]; [destruct a |];
    cbn [EventMapper.mapEvent]; try discriminate.
  - rewrite EventMapper_mapSnapshotCreated_result. intros H. open_result H.
    finish_numbers.
  - rewrite EventMapper_mapSnapBackUsed_result. intros H. open_result H.
    unfold EventsV1.validateCoreTelemetryEvent, safeParse_union.
    match goal with
    | slots : list value |- _ =>
        pose proof (safeParse_filled now' ["properties"; "files_restored"] slots "legacy_file")
          as Hf
    end.
    cbn. cbn in Hf. rewrite Hf.
    destruct success; finish_numbers.
  - rewrite EventMapper_mapRiskDetected_result, level_lookup by discriminate.
    destruct (existsb (fun p => includes "mock" p || includes "test" p) patterns);
    destruct (existsb (fun p => includes "phantom" p || includes "unused" p) patterns);
    destruct (String.eqb riskLevel "low"), (String.eqb riskLevel "medium"),
      (String.eqb riskLevel "high"), (String.eqb riskLevel "critical"),
      (inherited riskLevel);
      intros H; open_result H; finish_numbers.
  - rewrite EventMapper_mapOnboardingProtectionAssigned_result,
      !level_lookup by discriminate.
    destruct (String.eqb level "low"), (String.eqb level "medium"),
      (String.eqb level "high"), (String.eqb level "critical"), (inherited level);
      intros H; open_result H; finish_numbers.
Qed.

(** What the events mapper returns is a canonical event. *)
Lemma Migrate_canonical (now now' : Z) (event : TelemetryEvent) (c : value) :
  Migrate.mapEvent now event = Return (Some c) ->
  EventsCore.validateCoreTelemetryEvent now' c = true.
Proof.
  destruct event as [a | tag props ts Hfresh]; [destruct a |];
    try (cbn [Migrate.mapEvent]; discriminate).
  - rewrite Migrate_mapExtensionDeactivated_result. intros H. open_result H.
    finish_numbers.
  - rewrite Migrate_mapCommandExecution_result. intros H. open_result H.
    destruct success; finish_numbers.
  - rewrite Migrate_mapSnapshotCreated_result. intros H. open_result H.
    finish_numbers.
  - rewrite Migrate_mapSnapBackUsed_result. intros H. open_result H.
    finish_numbers.
  - rewrite Migrate_mapRiskDetected_result. intros H. cbn [existsb] in H.
    destruct (String.eqb riskLevel "low") eqn:E1;
      [apply String.eqb_eq in E1; subst |].
    { open_result H. finish_numbers. }
    destruct (String.eqb riskLevel "medium") eqn:E2;
      [apply String.eqb_eq in E2; subst |].
    { open_result H. finish_numbers. }
    destruct (String.eqb riskLevel "high") eqn:E3;
      [apply String.eqb_eq in E3; subst |].
    { open_result H. finish_numbers. }
    destruct (String.eqb riskLevel "critical") eqn:E4;
      [apply String.eqb_eq in E4; subst |].
    { open_result H. finish_numbers. }
    discriminate H.
  - rewrite Migrate_mapWalkthroughStepCompleted_result. intros H. open_result H.
    finish_numbers.
  - rewrite Migrate_mapOnboardingProtectionAssigned_result. intros H. cbn [existsb] in H.
    destruct (String.eqb level "watch") eqn:E1;
      [apply String.eqb_eq in E1; subst |].
    { open_result H. finish_numbers. }
    destruct (String.eqb level "warn") eqn:E2;
      [apply String.eqb_eq in E2; subst |].
    { open_result H. finish_numbers. }
    destruct (String.eqb level "block") eqn:E3;
      [apply String.eqb_eq in E3; subst |].
    { open_result H. finish_numbers. }
    discriminate H.
Qed.

Lemma unrecognized_unmapped (mapping : list (string * string)) (tag : string) :
  Forall (fun entry => is_legacy_tag (fst entry) = true) mapping ->
  is_legacy_tag tag = false ->
  core_event mapping tag = None.
Proof.
  intros Hall Hfresh. unfold core_event.
  induction Hall as [| entry rest Hentry _ IH]; [reflexivity |].
  cbn [find]. destruct (String.eqb tag (fst entry)) eqn:E; [| exact IH].
  apply String.eqb_eq in E. congruence.
Qed.

(** The telemetry mapper follows its table: a tag the table maps gives
    null or an event with the core tag of the table, any other tag null. *)
Lemma EventMapper_follows_table (now : Z) (event : TelemetryEvent) (r : option value) :
  EventMapper.mapEvent now event = Return r ->
  match core_event EventMapper.event_mapping (TelemetryEvents.event event) with
  | Some core => forall c, r = Some c -> field c "event" = VStr core
  | None => r = None
  end.
Proof.
  destruct event as [a | tag props ts Hfresh].
  - destruct a; cbn [EventMapper.mapEvent];
      rewrite ?EventMapper_mapOnboardingProtectionAssigned_result,
        ?EventMapper_mapSnapshotCreated_result,
        ?EventMapper_mapSnapBackUsed_result,
        ?EventMapper_mapRiskDetected_result;
      intros H; cbn; try congruence;
      intros c ->; open_result H; reflexivity.
  - cbn [TelemetryEvents.event EventMapper.mapEvent].
    rewrite unrecognized_unmapped; [congruence | | exact Hfresh].
    repeat constructor.
Qed.

(** So does the events mapper. *)
Lemma Migrate_follows_table (now : Z) (event : TelemetryEvent) (r : option value) :
  Migrate.mapEvent now event = Return r ->
  match core_event Migrate.event_mapping (TelemetryEvents.event event) with
  | Some core => forall c, r = Some c -> field c "event" = VStr core
  | None => r = None
  end.
Proof.
  destruct event as [a | tag props ts Hfresh].
  - destruct a;
      rewrite ?Migrate_mapOnboardingProtectionAssigned_result,
        ?Migrate_mapCommandExecution_result,
        ?Migrate_mapSnapshotCreated_result,
        ?Migrate_mapExtensionDeactivated_result,
        ?Migrate_mapRiskDetected_result,
        ?Migrate_mapWalkthroughStepCompleted_result,
        ?Migrate_mapSnapBackUsed_result;
      intros H; cbn; try (cbn in H; congruence);
      intros c ->; open_result H; reflexivity.
  - cbn [TelemetryEvents.event Migrate.mapEvent].
    rewrite unrecognized_unmapped; [congruence | | exact Hfresh].
    repeat constructor.
Qed.

(** C1: on every legacy event each [mapEvent] returns, never throws, and
    what it returns is null or an event the validator accepts; every legacy
    tag has its case: a tag its mapper's table maps gives null or an event
    with the core tag of the table, every other legacy tag gives null, and
    so does an event whose tag is not a legacy tag; a failure while the
    canonical event is built (here the [RangeError] of [Array(-1)]) gives
    null as well. *)
Theorem C1_mapEvent_returns_canonical_or_null :
  (forall (now : Z) (event : TelemetryEvent),
     (exists r : option value,
        EventMapper.mapEvent now event = Return r
        /\ (forall c, r = Some c -> EventsV1.validateCoreTelemetryEvent now c = true)
        /\ match core_event EventMapper.event_mapping (TelemetryEvents.event event) with
           | Some core => forall c, r = Some c -> field c "event" = VStr core
           | None => r = None
           end
        /\ (~ In (TelemetryEvents.event event) TELEMETRY_EVENTS -> r = None))
     /\ (exists r : option value,
        Migrate.mapEvent now event = Return r
        /\ (forall c, r = Some c -> EventsCore.validateCoreTelemetryEvent now c = true)
        /\ match core_event Migrate.event_mapping (TelemetryEvents.event event) with
           | Some core => forall c, r = Some c -> field c "event" = VStr core
           | None => r = None
           end
        /\ (~ In (TelemetryEvents.event event) Migrate.LEGACY_TELEMETRY_EVENTS -> r = None)))
  /\ Array_ (Fin (-1)) = Throw (RangeError "Invalid array length")
  /\ (forall now : Z,
        EventMapper.mapEvent now
          (Allowed (SnapBackUsedEvent (Fin (-1)) (Fin 1500) true (of_Z 1700000000000)))
        = Return None).
Proof.
  split; [| split; [reflexivity | intros now; reflexivity]].
  intros now event. split.
  - destruct (EventMapper_mapEvent_returns now event) as [r Hr].
    exists r. split; [exact Hr | split; [| split]].
    + intros c ->. eapply EventMapper_canonical, Hr.
    + apply (EventMapper_follows_table now), Hr.
    + intros Hunknown. destruct event as [a | tag props ts Hfresh].
      * destruct Hunknown. apply event_of_known.
      * cbn in Hr. congruence.
  - destruct (Migrate_mapEvent_returns now event) as [r Hr].
    exists r. split; [exact Hr | split; [| split]].
    + intros c ->. eapply Migrate_canonical, Hr.
    + apply (Migrate_follows_table now), Hr.
    + intros Hunknown. destruct event as [a | tag props ts Hfresh].
      * destruct Hunknown. apply event_of_known.
      * cbn in Hr. congruence.
Qed.

Lemma C1_mapEvent_returns_canonical_or_null_witness :
  exists r : option value,
    EventMapper.mapEvent 0 (Other "custom.event" None (of_Z 1700000000000) eq_refl)
    = Return r
    /\ r = None.
Proof.
  destruct (proj1 C1_mapEvent_returns_canonical_or_null 0%Z
              (Other "custom.event" None (of_Z 1700000000000) eq_refl))
    as [(r & Hr & _ & _ & Hunknown) _].
  exists r. split; [exact Hr |].
  apply Hunknown. cbn.
  intros H. repeat (destruct H as [H | H]; [discriminate H |]). exact H.
Defined.

(** Some pattern contains one of two words. *)
Lemma some_pattern (a b : string) (patterns : list string) :
  existsb (fun p => includes a p || includes b p) patterns = true
  <-> Exists (fun p => contains a p \/ contains b p) patterns.
Proof.
  induction patterns as [| p rest IH]; cbn [existsb].
  - split; [discriminate | intros H; inversion H].
  - rewrite !orb_true_iff, IH, !includes_iff. split.
    + intros [H | H]; [left; exact H | right; exact H].
    + intros H. inversion H; subst; [left | right]; assumption.
Qed.

(** C2, as stated, fails: the telemetry mapper returns null for a risk
    level that names a member of [Object.prototype] (the table lookup finds
    the inherited member, so the fallback is not taken and the schema
    rejects the event), and the events mapper gives type phantom whatever
    the patterns are and null for a level outside the four. *)
Lemma C2_counterexample :
  EventMapper.mapEvent 0
    (Allowed (RiskDetectedEvent "constructor" ["mock_test_helper"] (Fin 0.5)
                (of_Z 1700000000000)))
  = Return None
  /\ (exists c : value,
        Migrate.mapEvent 0
          (Allowed (RiskDetectedEvent "high" ["mock_test_helper"] (Fin 0.5)
                      (of_Z 1700000000000)))
        = Return (Some c)
        /\ field (field c "properties") "type" = VStr "phantom")
  /\ Migrate.mapEvent 0
       (Allowed (RiskDetectedEvent "severe" ["mock_test_helper"] (Fin 0.5)
                   (of_Z 1700000000000)))
     = Return None.
Proof.
  split; [reflexivity | split; [| reflexivity]].
  eexists. split; reflexivity.
Qed.

(** C2 (amended): for every legacy risk-detection event whose timestamp is
    a finite number and whose risk level is not the name of a member of
    [Object.prototype], the [mapEvent] of the telemetry mapper produces an
    issue_created event; its type is mock when some pattern contains mock
    or test, otherwise phantom when some pattern contains phantom or
    unused, otherwise secret; its severity is the risk level when that is
    low, medium, high or critical, and medium otherwise.  Patterns
    [mock_test_helper] with risk level high give type mock, severity high. *)
Theorem C2_risk_detected_becomes_issue_created :
  (forall (now : Z) (riskLevel : string) (patterns : list string)
          (confidence ts : number),
     isFinite ts = true ->
     inherited riskLevel = false ->
     exists c : value,
       EventMapper.mapEvent now (Allowed (RiskDetectedEvent riskLevel patterns confidence ts))
       = Return (Some c)
       /\ field c "event" = VStr "issue_created"
       /\ (let mocks := Exists (fun p => contains "mock" p \/ contains "test" p) patterns in
           let phantoms :=
             Exists (fun p => contains "phantom" p \/ contains "unused" p) patterns in
           (mocks -> field (field c "properties") "type" = VStr "mock")
           /\ (~ mocks -> phantoms -> field (field c "properties") "type" = VStr "phantom")
           /\ (~ mocks -> ~ phantoms -> field (field c "properties") "type" = VStr "secret"))
       /\ (In riskLevel ["low"; "medium"; "high"; "critical"] ->
           field (field c "properties") "severity" = VStr riskLevel)
       /\ (~ In riskLevel ["low"; "medium"; "high"; "critical"] ->
           field (field c "properties") "severity" = VStr "medium"))
  /\ (forall now : Z,
        exists c : value,
          EventMapper.mapEvent now
            (Allowed (RiskDetectedEvent "high" ["mock_test_helper"] (Fin 0.5)
                        (of_Z 1700000000000)))
          = Return (Some c)
          /\ field c "event" = VStr "issue_created"
          /\ field (field c "properties") "type" = VStr "mock"
          /\ field (field c "properties") "severity" = VStr "high").
Proof.
  split; [| intros now; eexists; repeat split; reflexivity].
  intros now riskLevel patterns confidence ts Hfinite Hproto.
  assert (Hts : isNaN ts = false) by (destruct ts; [reflexivity | discriminate ..]).
  cbn [EventMapper.mapEvent].
  rewrite EventMapper_mapRiskDetected_result, level_lookup by discriminate.
  rewrite Hts, Hproto.
  pose proof (some_pattern "mock" "test" patterns) as Hmock.
  pose proof (some_pattern "phantom" "unused" patterns) as Hphantom.
  assert (Hsev :
    exists severity : string,
      (if String.eqb riskLevel "low" then VStr "low"
       else if String.eqb riskLevel "medium" then VStr "medium"
       else if String.eqb riskLevel "high" then VStr "high"
       else if String.eqb riskLevel "critical" then VStr "critical"
       else VStr "medium") = VStr severity
      /\ (In riskLevel ["low"; "medium"; "high"; "critical"] -> severity = riskLevel)
      /\ (~ In riskLevel ["low"; "medium"; "high"; "critical"] -> severity = "medium")).
  { case_string riskLevel "low".
    { exists "low". split; [reflexivity | split; [reflexivity |]].
      intros Hn. destruct Hn. cbn. tauto. }
    case_string riskLevel "medium".
    { exists "medium". split; [reflexivity | split; reflexivity]. }
    case_string riskLevel "high".
    { exists "high". split; [reflexivity | split; [reflexivity |]].
      intros Hn. destruct Hn. cbn. tauto. }
    case_string riskLevel "critical".
    { exists "critical". split; [reflexivity | split; [reflexivity |]].
      intros Hn. destruct Hn. cbn. tauto. }
    exists "medium". split; [reflexivity | split; [| reflexivity]].
    apply String.eqb_neq in E, E0, E1, E2.
    intros [H | [H | [H | [H | []]]]]; congruence. }
  destruct Hsev as (severity & -> & Hin & Hout).
  eexists. split; [reflexivity |]. split; [reflexivity |].
  cbn [field get own String.eqb Ascii.eqb Bool.eqb inherited existsb Object_prototype orb].
  split; [| split].
  - destruct (existsb (fun p => includes "mock" p || includes "test" p) patterns);
    destruct (existsb (fun p => includes "phantom" p || includes "unused" p) patterns);
      (split; [| split]); intros; try reflexivity;
      try (exfalso; tauto);
      try (assert (false = true) by tauto; discriminate).
  - intros H. rewrite (Hin H). reflexivity.
  - intros H. rewrite (Hout H). reflexivity.
Qed.

Lemma C2_risk_detected_becomes_issue_created_witness :
  exists c : value,
    EventMapper.mapEvent 5
      (Allowed (RiskDetectedEvent "severe" ["an_unused_import"] (Fin 0.5)
                  (of_Z 1700000000000)))
    = Return (Some c)
    /\ field c "event" = VStr "issue_created".
Proof.
  destruct (proj1 C2_risk_detected_becomes_issue_created 5%Z "severe" ["an_unused_import"]
              (Fin 0.5) (of_Z 1700000000000) eq_refl eq_refl)
    as (c & Hc & Hevent & _).
  exists c. split; [exact Hc | exact Hevent].
Defined.

(** C3, as stated, fails in one respect: no legacy event makes the two
    mappers return canonical events that differ in severity and in outcome,
    because whenever both return an event the outcome is the same. *)
Lemma C3_counterexample_outcomes_agree :
  ~ exists (now : Z) (event : TelemetryEvent) (c1 c2 : value),
      EventMapper.mapEvent now event = Return (Some c1)
      /\ Migrate.mapEvent now event = Return (Some c2)
      /\ field (field c1 "properties") "severity" <> field (field c2 "properties") "severity"
      /\ field (field c1 "properties") "outcome" <> field (field c2 "properties") "outcome".
Proof.
  intros (now & event & c1 & c2 & H1 & H2 & _ & Hout). apply Hout. clear Hout.
  destruct event as [a | tag props ts Hfresh]; [destruct a |];
    cbn [EventMapper.mapEvent] in H1; try discriminate H1;
    rewrite ?EventMapper_mapOnboardingProtectionAssigned_result,
      ?EventMapper_mapSnapshotCreated_result,
      ?EventMapper_mapSnapBackUsed_result,
      ?EventMapper_mapRiskDetected_result in H1;
    rewrite ?Migrate_mapOnboardingProtectionAssigned_result,
      ?Migrate_mapSnapshotCreated_result,
      ?Migrate_mapRiskDetected_result,
      ?Migrate_mapSnapBackUsed_result in H2;
    open_result H1; open_result H2; reflexivity.
Qed.

(** C3 (amended): there is a legacy event, a protection assignment, on
    which the two mappers return different canonical events: the telemetry
    mapper derives the severity from the level and falls back to low, the
    events mapper always gives medium, and the reasons differ too; the
    outcome is saved in both. *)
Theorem C3_mappers_disagree :
  exists event : TelemetryEvent,
    TelemetryEvents.event event = ONBOARDING_PROTECTION_ASSIGNED
    /\ forall now : Z,
        exists c1 c2 : value,
          EventMapper.mapEvent now event = Return (Some c1)
          /\ Migrate.mapEvent now event = Return (Some c2)
          /\ c1 <> c2
          /\ field (field c1 "properties") "severity" = VStr "low"
          /\ field (field c2 "properties") "severity" = VStr "medium"
          /\ field (field c1 "properties") "reason" = VStr "onboarding_first_save"
          /\ field (field c2 "properties") "reason" = VStr "first_save"
          /\ field (field c1 "properties") "outcome" = VStr "saved"
          /\ field (field c2 "properties") "outcome" = VStr "saved".
Proof.
  exists (Allowed (OnboardingProtectionAssignedEvent "watch" "first_save" "typescript" true
                     (of_Z 1700000000000))).
  split; [reflexivity |].
  intros now. eexists. eexists.
  split; [reflexivity |]. split; [reflexivity |].
  split; [discriminate |].
  repeat split; reflexivity.
Qed.

(** *** More on the two mappers *)

Lemma Qred_inject_Z (n : Z) : Qred (inject_Z n) = inject_Z n.
Proof.
  unfold Qred, inject_Z.
  pose proof (Z.ggcd_gcd n 1) as Hg.
  pose proof (Z.ggcd_correct_divisors n 1) as Hd.
  destruct (Z.ggcd n 1) as [g [a b]]. cbn [fst snd] in *.
  rewrite Z.gcd_1_r in Hg. subst g. destruct Hd as [Ha Hb].
  rewrite Z.mul_1_l in Ha, Hb. subst a b. reflexivity.
Qed.

(** [Array(n)] for an array length [n]. *)
Lemma Array_of_length (n : Z) :
  (0 <= n < 2 ^ 32)%Z -> Array_ (of_Z n) = Return (repeat VUndefined (Z.to_nat n)).
Proof.
  intros [Hlo Hhi]. unfold Array_, of_Z. rewrite Qred_inject_Z. cbn [inject_Z Qden Qnum].
  rewrite Z.eqb_refl.
  apply Z.leb_le in Hlo. apply Z.ltb_lt in Hhi. rewrite Hlo, Hhi. reflexivity.
Qed.

(** [Array(n)] throws for a negative or fractional [n], for [NaN] and for
    the infinities. *)
Lemma Array_of_no_length (n : number) :
  isInteger n = false \/ lt n (of_Z 0) = true -> exists e, Array_ n = Throw e.
Proof.
  intros H. destruct n as [q | | |]; try (eexists; reflexivity).
  unfold Array_. cbn [isInteger] in H. destruct H as [H | H].
  - rewrite H. eexists. reflexivity.
  - assert (Hneg : (Qnum (Qred q) < 0)%Z).
    { unfold lt, of_Z in H. apply Qlt_bool_true in H.
      rewrite <- (Qred_correct q) in H. unfold Qlt, inject_Z in H. cbn in H. lia. }
    apply Z.leb_gt in Hneg. rewrite Hneg, andb_false_r. eexists. reflexivity.
Qed.

Lemma fill_repeat (x : value) (n : nat) : fill x (repeat VUndefined n) = repeat x n.
Proof. induction n as [| n IH]; [reflexivity |]. cbn. unfold fill in IH. rewrite IH. reflexivity. Qed.

(** X9: the telemetry mapper maps a restore event only when filesRestored is
    an array length.  For an integer n from 0 to 2^32 - 1, with a duration
    and a timestamp other than NaN, the result is a session_restored event
    with n placeholder file names, the duration as time_to_restore_ms and
    the reason user_initiated or failed after the success flag (memory
    limits aside).  For a negative or fractional count, NaN or an infinity
    (where [Array] throws) and for a NaN duration or timestamp the result
    is null. *)
Theorem X9_restore_maps_for_a_file_count_only :
  (forall (now n : Z) (duration : number) (success : bool) (ts : number),
     (0 <= n < 2 ^ 32)%Z -> isNaN duration = false -> isNaN ts = false ->
     exists c : value,
       EventMapper.mapEvent now (Allowed (SnapBackUsedEvent (of_Z n) duration success ts))
       = Return (Some c)
       /\ field c "event" = VStr "session_restored"
       /\ field (field c "properties") "files_restored"
          = VArr (repeat (VStr "legacy_file") (Z.to_nat n))
       /\ field (field c "properties") "time_to_restore_ms" = VNum duration
       /\ field (field c "properties") "reason"
          = VStr (if success then "user_initiated" else "failed"))
  /\ (forall (now : Z) (filesRestored duration : number) (success : bool) (ts : number),
        isInteger filesRestored = false \/ lt filesRestored (of_Z 0) = true
        \/ isNaN duration = true \/ isNaN ts = true ->
        EventMapper.mapEvent now (Allowed (SnapBackUsedEvent filesRestored duration success ts))
        = Return None).
Proof.
  split.
  - intros now n duration success ts Hn Hduration Hts.
    cbn [EventMapper.mapEvent]. rewrite EventMapper_mapSnapBackUsed_result.
    rewrite (Array_of_length n Hn), Hduration, Hts, fill_repeat.
    eexists. split; [reflexivity |]. repeat split; reflexivity.
  - intros now filesRestored duration success ts H.
    cbn [EventMapper.mapEvent]. rewrite EventMapper_mapSnapBackUsed_result.
    destruct H as [H | [H | H]].
    + destruct (Array_of_no_length filesRestored (or_introl H)) as [e ->]. reflexivity.
    + destruct (Array_of_no_length filesRestored (or_intror H)) as [e ->]. reflexivity.
    + destruct (Array_ filesRestored); [| reflexivity].
      destruct H as [-> | ->]; [| rewrite orb_true_r]; reflexivity.
Qed.

Lemma X9_restore_maps_for_a_file_count_only_witness :
  (exists c : value,
     EventMapper.mapEvent 5 (Allowed (SnapBackUsedEvent (of_Z 2) (Fin 1500) false (of_Z 1700000000000)))
     = Return (Some c)
     /\ field (field c "properties") "files_restored"
        = VArr [VStr "legacy_file"; VStr "legacy_file"])
  /\ EventMapper.mapEvent 5
       (Allowed (SnapBackUsedEvent (Fin 2.5) (Fin 1500) true (of_Z 1700000000000)))
     = Return None.
Proof.
  split.
  - destruct (proj1 X9_restore_maps_for_a_file_count_only 5%Z 2%Z (Fin 1500) false
                (of_Z 1700000000000)) as (c & Hc & _ & Hfiles & _);
      [lia | reflexivity | reflexivity |].
    exists c. split; [exact Hc | exact Hfiles].
  - apply (proj2 X9_restore_maps_for_a_file_count_only). left. reflexivity.
Defined.

(** The protection the telemetry mapper derives from a level. *)
Lemma protection_lookup (level : string) :
  inherited level = false ->
  or_else (get [ ("low", VStr "watch"); ("medium", VStr "warn");
                 ("high", VStr "block"); ("critical", VStr "block") ] level)
          (VStr "watch")
  = VStr (if String.eqb level "medium" then "warn"
          else if String.eqb level "high" then "block"
          else if String.eqb level "critical" then "block"
          else "watch").
Proof.
  intros Hproto. rewrite level_lookup by discriminate. rewrite Hproto.
  case_string level "low"; [reflexivity |].
  destruct (String.eqb level "medium"), (String.eqb level "high"),
    (String.eqb level "critical"); reflexivity.
Qed.

Lemma severity_lookup (fallback level : string) :
  fallback <> "" ->
  inherited level = false ->
  or_else (get [ ("low", VStr "low"); ("medium", VStr "medium");
                 ("high", VStr "high"); ("critical", VStr "critical") ] level)
          (VStr fallback)
  = VStr (if existsb (String.eqb level) ["low"; "medium"; "high"; "critical"]
          then level else fallback).
Proof.
  intros Hfallback Hproto. rewrite level_lookup by (discriminate || assumption).
  rewrite Hproto. cbn [existsb].
  case_string level "low"; [reflexivity |].
  case_string level "medium"; [reflexivity |].
  case_string level "high"; [reflexivity |].
  case_string level "critical"; reflexivity.
Qed.

Lemma inherited_lookup (low medium high critical fallback level : string) :
  fallback <> "" -> low <> "" -> medium <> "" -> high <> "" -> critical <> "" ->
  inherited level = true ->
  or_else (get [ ("low", VStr low); ("medium", VStr medium);
                 ("high", VStr high); ("critical", VStr critical) ] level)
          (VStr fallback)
  = VNative level.
Proof.
  intros Hf Hl Hm Hh Hc Hproto. rewrite level_lookup by assumption. rewrite Hproto.
  case_string level "low"; [discriminate Hproto |].
  case_string level "medium"; [discriminate Hproto |].
  case_string level "high"; [discriminate Hproto |].
  case_string level "critical"; [discriminate Hproto |].
  reflexivity.
Qed.

(** X10: the telemetry mapper turns a protection assignment whose level is
    not the name of a member of [Object.prototype] and whose timestamp is
    not NaN into a save_attempt event: protection warn for medium, block for
    high and critical, watch for low and for every other level; severity the
    level when it is one of the four, low otherwise; file_kind the file
    type; reason onboarding_ followed by the trigger; outcome saved and both
    AI flags false. *)
Theorem X10_protection_assignment_becomes_save_attempt :
  forall (now : Z) (level trigger fileType : string) (first : bool) (ts : number),
    isNaN ts = false ->
    inherited level = false ->
    exists c : value,
      EventMapper.mapEvent now
        (Allowed (OnboardingProtectionAssignedEvent level trigger fileType first ts))
      = Return (Some c)
      /\ field c "event" = VStr "save_attempt"
      /\ field (field c "properties") "protection"
         = VStr (if String.eqb level "medium" then "warn"
                 else if String.eqb level "high" then "block"
                 else if String.eqb level "critical" then "block"
                 else "watch")
      /\ field (field c "properties") "severity"
         = VStr (if existsb (String.eqb level) ["low"; "medium"; "high"; "critical"]
                 then level else "low")
      /\ field (field c "properties") "file_kind" = VStr fileType
      /\ field (field c "properties") "reason" = VStr ("onboarding_" ++ trigger)
      /\ field (field c "properties") "outcome" = VStr "saved"
      /\ field (field c "properties") "ai_present" = VBool false
      /\ field (field c "properties") "ai_burst" = VBool false.
Proof.
  intros now level trigger fileType first ts Hts Hproto.
  cbn [EventMapper.mapEvent]. rewrite EventMapper_mapOnboardingProtectionAssigned_result.
  rewrite (protection_lookup level Hproto), (severity_lookup "low" level) by (discriminate || assumption).
  rewrite Hts. eexists. split; [reflexivity |]. repeat split; reflexivity.
Qed.

Lemma X10_protection_assignment_becomes_save_attempt_witness :
  exists c : value,
    EventMapper.mapEvent 5
      (Allowed (OnboardingProtectionAssignedEvent "high" "first_save" "typescript" true
                  (of_Z 1700000000000)))
    = Return (Some c)
    /\ field (field c "properties") "protection" = VStr "block".
Proof.
  destruct (X10_protection_assignment_becomes_save_attempt 5%Z "high" "first_save" "typescript"
              true (of_Z 1700000000000) eq_refl eq_refl)
    as (c & Hc & _ & Hprotection & _).
  exists c. split; [exact Hc | exact Hprotection].
Defined.

(** X11: a level that names a member of [Object.prototype] (constructor,
    toString, ...) makes the telemetry mapper return null, for risk
    detections and for protection assignments alike: the table lookup finds
    the inherited member, the fallback is not taken and the schema rejects
    the value. *)
Theorem X11_inherited_level_names_are_dropped :
  forall (now : Z) (level : string),
    inherited level = true ->
    (forall (patterns : list string) (confidence ts : number),
       EventMapper.mapEvent now (Allowed (RiskDetectedEvent level patterns confidence ts))
       = Return None)
    /\ (forall (trigger fileType : string) (first : bool) (ts : number),
          EventMapper.mapEvent now
            (Allowed (OnboardingProtectionAssignedEvent level trigger fileType first ts))
          = Return None).
Proof.
  intros now level Hproto. split.
  - intros patterns confidence ts. cbn [EventMapper.mapEvent].
    rewrite EventMapper_mapRiskDetected_result.
    rewrite inherited_lookup by (discriminate || assumption). reflexivity.
  - intros trigger fileType first ts. cbn [EventMapper.mapEvent].
    rewrite EventMapper_mapOnboardingProtectionAssigned_result.
    rewrite !inherited_lookup by (discriminate || assumption). reflexivity.
Qed.

Lemma X11_inherited_level_names_are_dropped_witness :
  EventMapper.mapEvent 5
    (Allowed (OnboardingProtectionAssignedEvent "toString" "first_save" "typescript" true
                (of_Z 1700000000000)))
  = Return None.
Proof.
  apply (proj2 (X11_inherited_level_names_are_dropped 5%Z "toString" eq_refl)).
Defined.

(** X12: the identifiers the telemetry mapper generates hold the clock
    reading and nothing else: an issue_created event has the issue_id
    issue_ followed by the reading, a snapshot_created event the snapshot_id
    snap_ followed by it.  So two events of the same kind mapped at the same
    reading of [Date.now()] get the same identifiers, and the same
    placeholder session id. *)
Theorem X12_generated_ids_are_the_clock_reading :
  forall (now : Z) (e e' : TelemetryEvent) (c c' : value),
    EventMapper.mapEvent now e = Return (Some c) ->
    EventMapper.mapEvent now e' = Return (Some c') ->
    (TelemetryEvents.event e = RISK_DETECTED ->
     field (field c "properties") "issue_id" = VStr ("issue_" ++ string_of_Z now))
    /\ (TelemetryEvents.event e = SNAPSHOT_CREATED ->
        field (field c "properties") "snapshot_id" = VStr ("snap_" ++ string_of_Z now))
    /\ (TelemetryEvents.event e = TelemetryEvents.event e' ->
        field (field c "properties") "issue_id" = field (field c' "properties") "issue_id"
        /\ field (field c "properties") "snapshot_id"
           = field (field c' "properties") "snapshot_id"
        /\ field (field c "properties") "session_id"
           = field (field c' "properties") "session_id").
Proof.
  intros now e e' c c' H H'.
  destruct e as [a | tag props ts Hfresh]; [destruct a |];
    cbn [EventMapper.mapEvent] in H; try discriminate H;
    rewrite ?EventMapper_mapOnboardingProtectionAssigned_result,
      ?EventMapper_mapSnapshotCreated_result,
      ?EventMapper_mapSnapBackUsed_result,
      ?EventMapper_mapRiskDetected_result in H;
    open_result H;
    (split; [intros Htag; try discriminate Htag; reflexivity |]);
    (split; [intros Htag; try discriminate Htag; reflexivity |]);
    intros Htag;
    (destruct e' as [a' | tag' props' ts' Hfresh']; [destruct a' |];
     cbn [EventMapper.mapEvent] in H'; try discriminate H';
     try discriminate Htag;
     rewrite ?EventMapper_mapOnboardingProtectionAssigned_result,
       ?EventMapper_mapSnapshotCreated_result,
       ?EventMapper_mapSnapBackUsed_result,
       ?EventMapper_mapRiskDetected_result in H';
     open_result H'; repeat split; reflexivity).
Qed.

Lemma X12_generated_ids_are_the_clock_reading_witness :
  let e := Allowed (RiskDetectedEvent "high" ["mock_test_helper"] (Fin 0.5) (of_Z 1700000000000)) in
  let e' := Allowed (RiskDetectedEvent "low" ["api_key"] (Fin 0.9) (of_Z 1700000000001)) in
  exists c c' : value,
    EventMapper.mapEvent 5 e = Return (Some c)
    /\ EventMapper.mapEvent 5 e' = Return (Some c')
    /\ field (field c "properties") "issue_id" = field (field c' "properties") "issue_id".
Proof.
  intros e e'. eexists. eexists.
  split; [reflexivity |]. split; [reflexivity |].
  apply (proj2 (proj2 (X12_generated_ids_are_the_clock_reading 5%Z e e' _ _ eq_refl eq_refl))).
  reflexivity.
Defined.

(** X13: whether an event maps does not depend on the time of the call: the
    telemetry mapper returns null at one clock reading exactly when it does
    at any other; apart from risk detections and snapshot creations, whose
    ids hold the reading, its result does not depend on the reading at all;
    and the result of the events mapper never does. *)
Theorem X13_mapping_is_independent_of_the_clock :
  forall (now now' : Z) (e : TelemetryEvent),
    (EventMapper.mapEvent now e = Return None <-> EventMapper.mapEvent now' e = Return None)
    /\ (TelemetryEvents.event e <> RISK_DETECTED ->
        TelemetryEvents.event e <> SNAPSHOT_CREATED ->
        EventMapper.mapEvent now e = EventMapper.mapEvent now' e)
    /\ Migrate.mapEvent now e = Migrate.mapEvent now' e.
Proof.
  intros now now' e.
  destruct e as [a | tag props ts Hfresh]; [destruct a |];
    cbn [EventMapper.mapEvent];
    rewrite ?EventMapper_mapOnboardingProtectionAssigned_result,
      ?EventMapper_mapSnapshotCreated_result,
      ?EventMapper_mapSnapBackUsed_result,
      ?EventMapper_mapRiskDetected_result,
      ?Migrate_mapOnboardingProtectionAssigned_result,
      ?Migrate_mapCommandExecution_result,
      ?Migrate_mapSnapshotCreated_result,
      ?Migrate_mapExtensionDeactivated_result,
      ?Migrate_mapRiskDetected_result,
      ?Migrate_mapWalkthroughStepCompleted_result,
      ?Migrate_mapSnapBackUsed_result;
    (split; [| split; [intros Hrisk Hsnapshot; try reflexivity; exfalso; auto | reflexivity]]).
  all: try tauto.
  all: repeat match goal with
         | |- context [match ?x with _ => _ end] => destruct x
         end;
       split; intros H; try reflexivity; discriminate H.
Qed.

Lemma X13_mapping_is_independent_of_the_clock_witness :
  let e := Allowed (SnapBackUsedEvent (of_Z 2) (Fin 1500) true (of_Z 1700000000000)) in
  EventMapper.mapEvent 5 e = EventMapper.mapEvent 9 e.
Proof.
  intros e.
  apply (proj1 (proj2 (X13_mapping_is_independent_of_the_clock 5%Z 9%Z e))); discriminate.
Defined.

(** X14: the events mapper passes the level of a protection assignment to
    the schema unchanged, so it maps the event when the level is watch, warn
    or block (and the timestamp is not NaN), with severity medium and the
    trigger as reason, and returns null for every other level; on the legacy
    levels low, medium, high and critical, which the telemetry mapper
    translates, it returns null. *)
Theorem X14_events_mapper_takes_protection_levels_only :
  (forall (now : Z) (level trigger fileType : string) (first : bool) (ts : number),
     In level ["watch"; "warn"; "block"] -> isNaN ts = false ->
     exists c : value,
       Migrate.mapEvent now
         (Allowed (OnboardingProtectionAssignedEvent level trigger fileType first ts))
       = Return (Some c)
       /\ field c "event" = VStr "save_attempt"
       /\ field (field c "properties") "protection" = VStr level
       /\ field (field c "properties") "severity" = VStr "medium"
       /\ field (field c "properties") "file_kind" = VStr fileType
       /\ field (field c "properties") "reason" = VStr trigger
       /\ field (field c "properties") "outcome" = VStr "saved")
  /\ (forall (now : Z) (level trigger fileType : string) (first : bool) (ts : number),
        ~ In level ["watch"; "warn"; "block"] ->
        Migrate.mapEvent now
          (Allowed (OnboardingProtectionAssignedEvent level trigger fileType first ts))
        = Return None)
  /\ (forall (now : Z) (level trigger fileType : string) (first : bool) (ts : number),
        In level ["low"; "medium"; "high"; "critical"] -> isNaN ts = false ->
        Migrate.mapEvent now
          (Allowed (OnboardingProtectionAssignedEvent level trigger fileType first ts))
        = Return None
        /\ exists c : value,
             EventMapper.mapEvent now
               (Allowed (OnboardingProtectionAssignedEvent level trigger fileType first ts))
             = Return (Some c)).
Proof.
  split; [| split].
  - intros now level trigger fileType first ts Hlevel Hts.
    rewrite Migrate_mapOnboardingProtectionAssigned_result, Hts.
    cbn in Hlevel. destruct Hlevel as [<- | [<- | [<- | []]]];
      (eexists; split; [reflexivity |]; repeat split; reflexivity).
  - intros now level trigger fileType first ts Hlevel.
    rewrite Migrate_mapOnboardingProtectionAssigned_result. cbn [existsb].
    case_string level "watch"; [destruct Hlevel; cbn; tauto |].
    case_string level "warn"; [destruct Hlevel; cbn; tauto |].
    case_string level "block"; [destruct Hlevel; cbn; tauto |].
    reflexivity.
  - intros now level trigger fileType first ts Hlevel Hts.
    rewrite Migrate_mapOnboardingProtectionAssigned_result.
    cbn [EventMapper.mapEvent]. rewrite EventMapper_mapOnboardingProtectionAssigned_result, Hts.
    cbn in Hlevel. destruct Hlevel as [<- | [<- | [<- | [<- | []]]]];
      (split; [reflexivity | eexists; reflexivity]).
Qed.

Lemma X14_events_mapper_takes_protection_levels_only_witness :
  Migrate.mapEvent 5
    (Allowed (OnboardingProtectionAssignedEvent "high" "first_save" "typescript" true
                (of_Z 1700000000000)))
  = Return None.
Proof.
  apply (proj1 (proj2 X14_events_mapper_takes_protection_levels_only)).
  cbn. intros [H | [H | [H | []]]]; discriminate H.
Defined.

(** X15: whenever both mappers return a canonical event for the same legacy
    event, the two events carry the same tag, the same timestamp and the
    version 1.0.0, whatever the clock readings. *)
Theorem X15_mappers_agree_on_the_envelope :
  forall (now now' : Z) (e : TelemetryEvent) (c c' : value),
    EventMapper.mapEvent now e = Return (Some c) ->
    Migrate.mapEvent now' e = Return (Some c') ->
    field c "event" = field c' "event"
    /\ field c "timestamp" = field c' "timestamp"
    /\ field c "event_version" = VStr "1.0.0"
    /\ field c' "event_version" = VStr "1.0.0".
Proof.
  intros now now' e c c' H H'.
  destruct e as [a | tag props ts Hfresh]; [destruct a |];
    cbn [EventMapper.mapEvent] in H; try discriminate H;
    rewrite ?EventMapper_mapOnboardingProtectionAssigned_result,
      ?EventMapper_mapSnapshotCreated_result,
      ?EventMapper_mapSnapBackUsed_result,
      ?EventMapper_mapRiskDetected_result in H;
    rewrite ?Migrate_mapOnboardingProtectionAssigned_result,
      ?Migrate_mapSnapshotCreated_result,
      ?Migrate_mapRiskDetected_result,
      ?Migrate_mapSnapBackUsed_result in H';
    open_result H; open_result H'; repeat split; reflexivity.
Qed.

Lemma X15_mappers_agree_on_the_envelope_witness :
  let e := Allowed (SnapshotCreatedEvent "manual" (Fin 3) (of_Z 1700000000000)) in
  exists c c' : value,
    EventMapper.mapEvent 5 e = Return (Some c)
    /\ Migrate.mapEvent 9 e = Return (Some c')
    /\ field c "timestamp" = field c' "timestamp".
Proof.
  intros e. eexists. eexists.
  split; [reflexivity |]. split; [reflexivity |].
  apply (proj1 (proj2 (X15_mappers_agree_on_the_envelope 5%Z 9%Z e _ _ eq_refl eq_refl))).
Defined.

(** X16: command.execution is mapped by the events mapper only.  The
    telemetry mapper returns null; the events mapper returns null for a NaN
    timestamp and otherwise a save_attempt event whose outcome is saved
    after a successful command and canceled after a failed one, with the
    command as reason, protection watch, severity low and file kind
    unknown. *)
Theorem X16_command_execution_becomes_save_attempt :
  forall (now : Z) (command : string) (duration : number) (success : bool) (ts : number),
    EventMapper.mapEvent now (Allowed (CommandExecutionEvent command duration success ts))
    = Return None
    /\ (isNaN ts = true ->
        Migrate.mapEvent now (Allowed (CommandExecutionEvent command duration success ts))
        = Return None)
    /\ (isNaN ts = false ->
        exists c : value,
          Migrate.mapEvent now (Allowed (CommandExecutionEvent command duration success ts))
          = Return (Some c)
          /\ field c "event" = VStr "save_attempt"
          /\ field (field c "properties") "outcome"
             = VStr (if success then "saved" else "canceled")
          /\ field (field c "properties") "reason" = VStr command
          /\ field (field c "properties") "protection" = VStr "watch"
          /\ field (field c "properties") "severity" = VStr "low"
          /\ field (field c "properties") "file_kind" = VStr "unknown").
Proof.
  intros now command duration success ts.
  rewrite Migrate_mapCommandExecution_result.
  split; [reflexivity | split]; intros ->; [reflexivity |].
  eexists. split; [reflexivity |]. repeat split; reflexivity.
Qed.

Lemma X16_command_execution_becomes_save_attempt_witness :
  exists c : value,
    Migrate.mapEvent 5
      (Allowed (CommandExecutionEvent "snapback.restore" (Fin 12) false (of_Z 1700000000000)))
    = Return (Some c)
    /\ field (field c "properties") "outcome" = VStr "canceled".
Proof.
  destruct (proj2 (proj2 (X16_command_execution_becomes_save_attempt 5%Z "snapback.restore"
              (Fin 12) false (of_Z 1700000000000))) eq_refl)
    as (c & Hc & _ & Houtcome & _).
  exists c. split; [exact Hc | exact Houtcome].
Defined.

(** X17: what the events mapper keeps of a legacy event with a timestamp
    other than NaN.  A restore keeps its duration (when that is not NaN) as
    time_to_restore_ms but no files, whatever filesRestored is; a snapshot
    gets zero sizes and zero latency whatever filesCount is; a deactivation
    becomes a session_finalized event of duration zero and severity low; a
    risk detection with one of the four levels becomes an issue of type
    phantom with that severity; a walkthrough step becomes an issue_resolved
    event for the issue onboarding- followed by the step id, resolution
    fixed. *)
Theorem X17_events_mapper_placeholders :
  forall (now : Z) (ts : number),
    isNaN ts = false ->
    (forall (filesRestored duration : number) (success : bool),
       isNaN duration = false ->
       exists c : value,
         Migrate.mapEvent now (Allowed (SnapBackUsedEvent filesRestored duration success ts))
         = Return (Some c)
         /\ field (field c "properties") "files_restored" = VArr []
         /\ field (field c "properties") "time_to_restore_ms" = VNum duration
         /\ field (field c "properties") "reason" = VStr "user_request")
    /\ (forall (method : string) (filesCount : number),
          exists c : value,
            Migrate.mapEvent now (Allowed (SnapshotCreatedEvent method filesCount ts))
            = Return (Some c)
            /\ field (field c "properties") "bytes_original" = VNum (of_Z 0)
            /\ field (field c "properties") "bytes_stored" = VNum (of_Z 0)
            /\ field (field c "properties") "latency_ms" = VNum (of_Z 0))
    /\ (exists c : value,
          Migrate.mapEvent now (Allowed (ExtensionDeactivatedEvent ts)) = Return (Some c)
          /\ field c "event" = VStr "session_finalized"
          /\ field (field c "properties") "duration_ms" = VNum (of_Z 0)
          /\ field (field c "properties") "files" = VArr []
          /\ field (field c "properties") "highest_severity" = VStr "low")
    /\ (forall (riskLevel : string) (patterns : list string) (confidence : number),
          In riskLevel ["low"; "medium"; "high"; "critical"] ->
          exists c : value,
            Migrate.mapEvent now (Allowed (RiskDetectedEvent riskLevel patterns confidence ts))
            = Return (Some c)
            /\ field (field c "properties") "type" = VStr "phantom"
            /\ field (field c "properties") "severity" = VStr riskLevel
            /\ field (field c "properties") "issue_id" = VStr "unknown")
    /\ (forall stepId stepTitle : string,
          exists c : value,
            Migrate.mapEvent now (Allowed (WalkthroughStepCompletedEvent stepId stepTitle ts))
            = Return (Some c)
            /\ field c "event" = VStr "issue_resolved"
            /\ field (field c "properties") "issue_id" = VStr ("onboarding-" ++ stepId)
            /\ field (field c "properties") "resolution" = VStr "fixed").
Proof.
  intros now ts Hts. split; [| split; [| split; [| split]]].
  - intros filesRestored duration success Hduration.
    rewrite Migrate_mapSnapBackUsed_result, Hduration, Hts.
    eexists. split; [reflexivity |]. repeat split; reflexivity.
  - intros method filesCount. rewrite Migrate_mapSnapshotCreated_result, Hts.
    eexists. split; [reflexivity |]. repeat split; reflexivity.
  - rewrite Migrate_mapExtensionDeactivated_result, Hts.
    eexists. split; [reflexivity |]. repeat split; reflexivity.
  - intros riskLevel patterns confidence Hlevel.
    rewrite Migrate_mapRiskDetected_result, Hts.
    cbn in Hlevel. destruct Hlevel as [<- | [<- | [<- | [<- | []]]]];
      (eexists; split; [reflexivity |]; repeat split; reflexivity).
  - intros stepId stepTitle. rewrite Migrate_mapWalkthroughStepCompleted_result, Hts.
    eexists. split; [reflexivity |]. repeat split; reflexivity.
Qed.

Lemma X17_events_mapper_placeholders_witness :
  exists c : value,
    Migrate.mapEvent 5 (Allowed (SnapBackUsedEvent (Fin (-1)) (Fin 1500) true (of_Z 1700000000000)))
    = Return (Some c)
    /\ field (field c "properties") "files_restored" = VArr [].
Proof.
  destruct (proj1 (X17_events_mapper_placeholders 5%Z (of_Z 1700000000000) eq_refl)
              (Fin (-1)) (Fin 1500) true eq_refl)
    as (c & Hc & Hfiles & _).
  exists c. split; [exact Hc | exact Hfiles].
Defined.

End Mappers.

(** ** The migration command *)

Section Driver.
Import JS TelemetryEvents MigrateEvents.

(** The loop never throws and pushes each event's result, or the event
    itself, to the end of its array. *)
Lemma convert_partitions (clock : nat -> Z) (events : list TelemetryEvent) :
  forall (i : nat) (coreEvents : list value) (unmappedEvents : list TelemetryEvent),
    convert clock i events coreEvents unmappedEvents
    = Return ((coreEvents ++ non_null_results clock i events)%list,
              (unmappedEvents ++ null_result_events clock i events)%list).
Proof.
  induction events as [| e rest IH]; intros i coreEvents unmappedEvents.
  - cbn [convert non_null_results null_result_events]. rewrite !app_nil_r. reflexivity.
  - cbn [convert non_null_results null_result_events]. unfold result_at.
    destruct (EventMapper_mapEvent_returns (clock i) e) as [r Hr]. rewrite Hr.
    cbn [bind]. destruct r as [c |]; rewrite IH, <- app_assoc; reflexivity.
Qed.

Lemma partition_lengths (clock : nat -> Z) (events : list TelemetryEvent) (i : nat) :
  (length (non_null_results clock i events) + length (null_result_events clock i events)
   = length events)%nat.
Proof.
  revert i. induction events as [| e rest IH]; intros i; [reflexivity |].
  cbn [non_null_results null_result_events].
  destruct (result_at clock i e); cbn [length]; rewrite <- (IH (S i)); lia.
Qed.

(** The two lists of the partition are a map and a filter over the events
    paired with their positions. *)
Lemma partition_by_position (clock : nat -> Z) (events : list TelemetryEvent) (i : nat) :
  let indexed := combine (seq i (length events)) events in
  non_null_results clock i events
  = omap (fun ie => result_at clock (fst ie) (snd ie)) indexed
  /\ null_result_events clock i events
     = map snd
         (List.filter
            (fun ie =>
               match result_at clock (fst ie) (snd ie) with
               | None => true
               | Some _ => false
               end) indexed).
Proof.
  revert i. induction events as [| e rest IH]; intros i; [split; reflexivity |].
  destruct (IH (S i)) as [Hmapped Hunmapped].
  cbn [length seq combine non_null_results null_result_events omap list_omap List.filter
       fst snd].
  rewrite Hmapped, Hunmapped.
  destruct (result_at clock i e); split; reflexivity.
Qed.

(** C4: for every sequence of legacy events the conversion loop of the
    command returns, having applied the mapper to each event in order
    (event [i] at clock reading [i]); its mapped output is the non-null
    mapper results in input order, its unmapped output is the events with
    a null result in input order, and the two lengths add up to the length
    of the input. *)
Theorem C4_migration_partitions_in_order :
  forall (clock : nat -> Z) (events : list TelemetryEvent),
    let indexed := combine (seq 0 (length events)) events in
    let mapped := omap (fun ie => result_at clock (fst ie) (snd ie)) indexed in
    let unmapped :=
      map snd
        (List.filter
           (fun ie =>
              match result_at clock (fst ie) (snd ie) with
              | None => true
              | Some _ => false
              end) indexed) in
    (forall (i : nat) (e : TelemetryEvent),
       nth_error events i = Some e ->
       EventMapper.mapEvent (clock i) e = Return (result_at clock i e))
    /\ convert clock 0 events [] [] = Return (mapped, unmapped)
    /\ (length mapped + length unmapped = length events)%nat.
Proof.
  intros clock events indexed mapped unmapped.
  destruct (partition_by_position clock events 0) as [Hmapped Hunmapped].
  fold indexed in Hmapped, Hunmapped. fold mapped in Hmapped. fold unmapped in Hunmapped.
  split; [| split].
  - intros i e _. unfold result_at.
    destruct (EventMapper_mapEvent_returns (clock i) e) as [r ->]. reflexivity.
  - rewrite <- Hmapped, <- Hunmapped. apply convert_partitions.
  - rewrite <- Hmapped, <- Hunmapped. apply partition_lengths.
Qed.

Lemma C4_migration_partitions_in_order_witness :
  EventMapper.mapEvent 5 (Allowed (FeatureUsedEvent "restore" (of_Z 1700000000000)))
  = Return None.
Proof.
  apply (proj1 (C4_migration_partitions_in_order (fun _ => 5%Z)
                  [Allowed (FeatureUsedEvent "restore" (of_Z 1700000000000))]) 0%nat
           (Allowed (FeatureUsedEvent "restore" (of_Z 1700000000000)))).
  reflexivity.
Defined.

(** Five events of which two have a canonical counterpart. *)
Example migration_of_five :
  let ts := of_Z 1700000000000 in
  convert (fun _ => 5%Z) 0
    [ Allowed (ViewActivatedEvent "explorer" ts);
      Allowed (RiskDetectedEvent "high" ["mock_test_helper"] (Fin 0.5) ts);
      Allowed (FeatureUsedEvent "restore" ts);
      Allowed (SnapBackUsedEvent (Fin 3) (Fin 1500) true ts);
      Allowed (ErrorEvent "io" "disk full" ts) ] [] []
  = Return
      ([ VObj
           [ ("event_version", VStr "1.0.0"); ("timestamp", VNum ts);
             ("event", VStr "issue_created");
             ("properties",
               VObj
                 [ ("issue_id", VStr "issue_5"); ("session_id", VStr "legacy_session");
                   ("file_kind", VStr "unknown"); ("type", VStr "mock");
                   ("severity", VStr "high");
                   ("recommendation", VStr "Review detected risk pattern") ]) ];
         VObj
           [ ("event_version", VStr "1.0.0"); ("timestamp", VNum ts);
             ("event", VStr "session_restored");
             ("properties",
               VObj
                 [ ("session_id", VStr "legacy_session");
                   ("files_restored",
                     VArr [VStr "legacy_file"; VStr "legacy_file"; VStr "legacy_file"]);
                   ("time_to_restore_ms", VNum (Fin 1500));
                   ("reason", VStr "user_initiated") ]) ] ],
       [ Allowed (ViewActivatedEvent "explorer" ts);
         Allowed (FeatureUsedEvent "restore" ts);
         Allowed (ErrorEvent "io" "disk full" ts) ]).
Proof. reflexivity. Qed.

(** C5, as stated, fails: the name of the second file comes from the
    output file, not from the input file. *)
Lemma C5_counterexample_name_from_output :
  let ts := of_Z 1700000000000 in
  let w :=
    {| disk := {[ "in.json" := EventArray [Allowed (ViewActivatedEvent "explorer" ts)] ]};
       written := ∅; stdout := []; stderr := [] |} in
  let after := main (fun _ => 5%Z) ["in.json"; "out.json"] w in
  fst after = 0%Z
  /\ written (snd after) !! "in-unmapped.json" = None
  /\ written (snd after) !! "out-unmapped.json"
     = Some (LegacyEvents [Allowed (ViewActivatedEvent "explorer" ts)]).
Proof. vm_compute. repeat split; reflexivity. Qed.

(** When the output name holds no [.json], the second write goes to the
    output file itself and replaces the canonical events just written. *)
Example unmapped_events_overwrite_output :
  let ts := of_Z 1700000000000 in
  let w :=
    {| disk :=
         {[ "in.json" :=
              EventArray
                [ Allowed (ViewActivatedEvent "explorer" ts);
                  Allowed (SnapshotCreatedEvent "manual" (Fin 2) ts) ] ]};
       written := ∅; stdout := []; stderr := [] |} in
  let after := main (fun _ => 5%Z) ["in.json"; "out.txt"] w in
  fst after = 0%Z
  /\ written (snd after) !! "out.txt"
     = Some (LegacyEvents [Allowed (ViewActivatedEvent "explorer" ts)]).
Proof. vm_compute. split; reflexivity. Qed.

(** C5 (amended): the name of the second file is the name of the output
    file with its first [.json] replaced by [-unmapped.json].  When the
    input holds an array of legacy events and [.json] occurs in the output
    name, the command exits with 0 and writes the canonical events to the
    output file; if at least one event could not be mapped it then writes
    the unmapped events to that second file, and if every event maps it
    writes no other file. *)
Theorem C5_unmapped_file_written_when_needed :
  forall (clock : nat -> Z) (w : world) (inputFile pre post : string)
         (more : list string) (events : list TelemetryEvent),
    disk w !! inputFile = Some (EventArray events) ->
    free_before ".json" (String.length pre) (pre ++ ".json" ++ post) = true ->
    let outputFile := pre ++ ".json" ++ post in
    let mapped := non_null_results clock 0 events in
    let unmapped := null_result_events clock 0 events in
    let after := main clock (inputFile :: outputFile :: more) w in
    fst after = 0%Z
    /\ (unmapped <> [] ->
        written (snd after)
        = <[pre ++ "-unmapped.json" ++ post := LegacyEvents unmapped]>
            (<[outputFile := CoreEvents mapped]> (written w)))
    /\ (unmapped = [] ->
        written (snd after) = <[outputFile := CoreEvents mapped]> (written w)).
Proof.
  intros clock w inputFile pre post more events Hin Hfree outputFile mapped unmapped after.
  subst after. unfold main, read_events. rewrite Hin.
  rewrite convert_partitions. cbn [app].
  fold mapped unmapped.
  destruct unmapped as [| e rest] eqn:Hunmapped.
  - cbn. split; [reflexivity | split; [congruence | reflexivity]].
  - cbn [length Nat.ltb Nat.leb fst snd].
    split; [reflexivity | split; [| discriminate]].
    intros _. cbn [written console_log writeFileSync snd].
    unfold outputFile. rewrite (replace_first ".json" "-unmapped.json" pre post Hfree).
    reflexivity.
Qed.

Lemma C5_unmapped_file_written_when_needed_witness :
  let ts := of_Z 1700000000000 in
  let w :=
    {| disk := {[ "in.json" := EventArray [Allowed (ViewActivatedEvent "explorer" ts)] ]};
       written := ∅; stdout := []; stderr := [] |} in
  written (snd (main (fun _ => 5%Z) ["in.json"; "out/core.json"] w))
  = <[ "out/core-unmapped.json" := LegacyEvents [Allowed (ViewActivatedEvent "explorer" ts)] ]>
      (<[ "out/core.json" := CoreEvents [] ]> ∅).
Proof.
  intros ts w.
  apply (C5_unmapped_file_written_when_needed (fun _ => 5%Z) w "in.json" "out/core" "" []
           [Allowed (ViewActivatedEvent "explorer" ts)]).
  - vm_compute. reflexivity.
  - vm_compute. reflexivity.
  - vm_compute. discriminate.
Defined.

(** *** The other entry points, and failures *)

Lemma mapLegacyEventsToCore_from_results (clock : nat -> Z) (events : list TelemetryEvent) :
  forall i : nat,
    EventMapper.mapLegacyEventsToCore_from clock i events
    = Return (non_null_results clock i events).
Proof.
  induction events as [| e rest IH]; intros i; [reflexivity |].
  cbn [EventMapper.mapLegacyEventsToCore_from non_null_results]. unfold result_at.
  destruct (EventMapper_mapEvent_returns (clock i) e) as [r Hr]. rewrite Hr.
  cbn [bind]. rewrite IH. destruct r; reflexivity.
Qed.

Lemma non_null_results_canonical (clock : nat -> Z) (events : list TelemetryEvent) :
  forall i : nat,
    Forall (fun c => forall now : Z, EventsV1.validateCoreTelemetryEvent now c = true)
      (non_null_results clock i events).
Proof.
  induction events as [| e rest IH]; intros i; [constructor |].
  cbn [non_null_results]. unfold result_at.
  destruct (EventMapper.mapEvent (clock i) e) as [[c |] | err] eqn:Hr; try apply IH.
  constructor; [| apply IH].
  intros now. apply (EventMapper_canonical (clock i) now e c Hr).
Qed.

(** X18: mapLegacyEventsToCore and migrateLegacyEventsToArray never throw
    and return exactly the canonical events that the loop of the command
    collects for the same events and clock: the non-null mapper results in
    input order.  The events without a result are dropped, so the output is
    no longer than the input, and every returned event is accepted by the
    validator. *)
Theorem X18_batch_mapping_returns_the_mapped_events :
  forall (clock : nat -> Z) (events : list TelemetryEvent),
    exists (coreEvents : list value) (unmappedEvents : list TelemetryEvent),
      convert clock 0 events [] [] = Return (coreEvents, unmappedEvents)
      /\ EventMapper.mapLegacyEventsToCore clock events = Return coreEvents
      /\ migrateLegacyEventsToArray clock events = Return coreEvents
      /\ (length coreEvents + length unmappedEvents = length events)%nat
      /\ Forall (fun c => forall now : Z, EventsV1.validateCoreTelemetryEvent now c = true)
           coreEvents.
Proof.
  intros clock events.
  exists (non_null_results clock 0 events), (null_result_events clock 0 events).
  split; [apply convert_partitions |].
  split; [apply mapLegacyEventsToCore_from_results |].
  split; [apply mapLegacyEventsToCore_from_results |].
  split; [apply partition_lengths | apply non_null_results_canonical].
Qed.





End Driver.

(** ** The validator *)

Section Validator.
Import JS Zod.

Lemma safeParse_object (now : Z) (shape : list (string * schema)) (p : list string)
    (fields : list (string * value)) :
  safeParse now (z_object shape) p (VObj fields) =
  let '(out, issues) := parse_fields now p fields shape in
  match issues with
  | [] => Ok (VObj out)
  | _ => Invalid issues
  end.
Proof.
  cbn [safeParse].
  match goal with
  | |- (let '(_, _) := ?loop shape in _) = _ =>
      assert (H : loop shape = parse_fields now p fields shape)
  end.
  { induction shape as [| [k sk] shape' IH]; [reflexivity |].
    cbn [parse_fields]. rewrite <- IH. reflexivity. }
  rewrite H. reflexivity.
Qed.

(** Induction on schemas, with the hypothesis for every schema of a shape. *)
Lemma schema_induction (P : schema -> Prop) :
  P z_string ->
  (forall checks, P (z_number checks)) ->
  P z_boolean ->
  (forall lit, P (z_literal lit)) ->
  (forall options, P (z_enum options)) ->
  (forall element, P element -> P (z_array element)) ->
  (forall shape, Forall (fun entry => P (snd entry)) shape -> P (z_object shape)) ->
  (forall inner d, P inner -> P (z_default inner d)) ->
  (forall inner, P inner -> P (z_optional inner)) ->
  forall s, P s.
Proof.
  intros Hstring Hnumber Hboolean Hliteral Henum Harray Hobject Hdefault Hoptional.
  fix IH 1. intros s. destruct s as [| checks | | lit | options | element | shape | inner d | inner].
  - exact Hstring.
  - apply Hnumber.
  - exact Hboolean.
  - apply Hliteral.
  - apply Henum.
  - apply Harray, IH.
  - apply Hobject.
    induction shape as [| [k sk] shape' IHshape]; constructor; [apply IH | exact IHshape].
  - apply Hdefault, IH.
  - apply Hoptional, IH.
Qed.

Lemma safeParse_array (now : Z) (element : schema) (p : list string) (items : list value) :
  safeParse now (z_array element) p (VArr items) =
  let '(out, issues) := parse_items now element p 0 items in
  match issues with
  | [] => Ok (VArr out)
  | _ => Invalid issues
  end.
Proof.
  cbn [safeParse].
  match goal with
  | |- (let '(_, _) := ?loop 0%nat items in _) = _ =>
      assert (H : forall i, loop i items = parse_items now element p i items)
  end.
  { induction items as [| x items' IH]; intros i; [reflexivity |].
    cbn [parse_items]. rewrite <- IH. reflexivity. }
  rewrite H. reflexivity.
Qed.

Lemma finish_same (A : Type) (wrap : A -> value) (out : A) (issues issues' : list issue) :
  map code issues = map code issues' ->
  same_outcome
    (match issues with [] => Ok (wrap out) | _ => Invalid issues end)
    (match issues' with [] => Ok (wrap out) | _ => Invalid issues' end).
Proof.
  destruct issues, issues'; cbn; try discriminate; auto.
Qed.

Lemma check_number_codes (n : number) (p p' : list string) (checks : list check) :
  map code (flat_map (check_number n p) checks)
  = map code (flat_map (check_number n p') checks).
Proof.
  induction checks as [| c checks IH]; [reflexivity |].
  cbn [flat_map]. rewrite !map_app, IH. f_equal.
  destruct c; cbn; repeat match goal with |- context [if ?b then _ else _] => destruct b end;
    reflexivity.
Qed.

(** The path given to [safeParse] shows in the paths of the issues only. *)
Lemma safeParse_path (now : Z) (s : schema) :
  forall (p p' : list string) (v : value),
    same_outcome (safeParse now s p v) (safeParse now s p' v).
Proof.
  induction s as [| checks | | lit | options | element IH | shape IH | inner d IH | inner IH]
    using schema_induction; intros p p' v.
  - destruct v; cbn; reflexivity.
  - destruct v; cbn; try reflexivity.
    destruct (isNaN n); [reflexivity |].
    pose proof (check_number_codes n p p' checks) as H.
    destruct (flat_map (check_number n p) checks), (flat_map (check_number n p') checks);
      cbn in *; try discriminate; auto.
  - destruct v; cbn; reflexivity.
  - destruct v; cbn; try reflexivity. destruct (String.eqb s lit); reflexivity.
  - destruct v; cbn; try reflexivity.
    destruct (existsb (String.eqb s) options); reflexivity.
  - destruct v; try reflexivity. rewrite !safeParse_array.
    assert (H : forall i,
      fst (parse_items now element p i items) = fst (parse_items now element p' i items)
      /\ map code (snd (parse_items now element p i items))
         = map code (snd (parse_items now element p' i items))).
    { induction items as [| x items' IHitems]; intros i; [split; reflexivity |].
      cbn [parse_items]. destruct (IHitems (S i)) as [Hout Hissues].
      destruct (parse_items now element p (S i) items') as [out issues],
               (parse_items now element p' (S i) items') as [out' issues'].
      cbn [fst snd] in Hout, Hissues. subst out'.
      pose proof (IH (p ++ [string_of_Z (Z.of_nat i)])%list
                     (p' ++ [string_of_Z (Z.of_nat i)])%list x) as Hx.
      destruct (safeParse now element (p ++ _) x), (safeParse now element (p' ++ _) x);
        cbn in Hx; try contradiction; cbn [fst snd].
      - subst. split; [reflexivity | exact Hissues].
      - split; [reflexivity |]. rewrite !map_app, Hx, Hissues. reflexivity. }
    destruct (H 0%nat) as [Hout Hissues].
    destruct (parse_items now element p 0 items) as [out issues],
             (parse_items now element p' 0 items) as [out' issues'].
    cbn [fst snd] in Hout, Hissues. subst out'.
    apply (finish_same _ VArr), Hissues.
  - destruct v; try reflexivity. rewrite !safeParse_object.
    assert (H :
      fst (parse_fields now p fields shape) = fst (parse_fields now p' fields shape)
      /\ map code (snd (parse_fields now p fields shape))
         = map code (snd (parse_fields now p' fields shape))).
    { induction IH as [| [k sk] shape' Hk _ IHshape]; [split; reflexivity |].
      cbn [parse_fields]. destruct IHshape as [Hout Hissues].
      destruct (parse_fields now p fields shape') as [out issues],
               (parse_fields now p' fields shape') as [out' issues'].
      cbn [fst snd] in Hout, Hissues. subst out'.
      pose proof (Hk (p ++ [k])%list (p' ++ [k])%list (get fields k)) as Hx.
      cbn [snd] in Hx.
      destruct (safeParse now sk (p ++ [k]) (get fields k)),
               (safeParse now sk (p' ++ [k]) (get fields k));
        cbn in Hx; try contradiction.
      - subst. destruct data0; try (split; [reflexivity | exact Hissues]).
        destruct (has fields k); split; try reflexivity; exact Hissues.
      - cbn [fst snd]. split; [reflexivity |]. rewrite !map_app, Hx, Hissues. reflexivity. }
    destruct H as [Hout Hissues].
    destruct (parse_fields now p fields shape) as [out issues],
             (parse_fields now p' fields shape) as [out' issues'].
    cbn [fst snd] in Hout, Hissues. subst out'.
    apply (finish_same _ VObj), Hissues.
  - destruct v; cbn [safeParse]; apply IH.
  - destruct v; cbn [safeParse]; try apply IH. reflexivity.
Qed.

Lemma safeParse_anywhere (now : Z) (s : schema) (p p' : list string) (v d : value) :
  safeParse now s p v = Ok d -> safeParse now s p' v = Ok d.
Proof.
  intros H. pose proof (safeParse_path now s p p' v) as Hsame.
  rewrite H in Hsame. destruct (safeParse now s p' v); cbn in Hsame; [congruence | contradiction].
Qed.

(** What an object schema accepts, it returns as an object. *)
Lemma safeParse_object_is_object (now : Z) (shape : list (string * schema))
    (p : list string) (v d : value) :
  safeParse now (z_object shape) p v = Ok d -> exists out, d = VObj out.
Proof.
  destruct v; try discriminate.
  rewrite safeParse_object.
  destruct (parse_fields now p fields shape) as [out issues].
  destruct issues; [| discriminate].
  intros H. injection H as <-. exists out. reflexivity.
Qed.

(** An event schema accepts an object whose tag is its literal and whose
    properties its properties schema accepts, as long as the version and
    the timestamp are absent or well-typed; absent ones get their default. *)
Lemma envelope_parse (now : Z) (lit : string) (pshape : list (string * schema))
    (fields : list (string * value)) (props' : value) :
  get fields "event" = VStr lit ->
  safeParse now (z_object pshape) ["properties"] (get fields "properties") = Ok props' ->
  (get fields "event_version" = VUndefined
   \/ exists v, get fields "event_version" = VStr v) ->
  (get fields "timestamp" = VUndefined
   \/ exists t, get fields "timestamp" = VNum t /\ isNaN t = false) ->
  safeParse now
    (z_object
       [ ("event_version", z_default z_string (Const (VStr "1.0.0")));
         ("timestamp", z_default (z_number []) DateNow);
         ("event", z_literal lit);
         ("properties", z_object pshape) ]) [] (VObj fields)
  = Ok (VObj
          [ ("event_version", supplied (get fields "event_version") (VStr "1.0.0"));
            ("timestamp", supplied (get fields "timestamp") (VNum (of_Z now)));
            ("event", VStr lit);
            ("properties", props') ]).
Proof.
  intros Hevent Hprops Hversion Hts.
  rewrite safeParse_object. cbn [parse_fields app].
  destruct (safeParse_object_is_object _ _ _ _ _ Hprops) as [out ->].
  rewrite Hprops, Hevent.
  destruct Hversion as [-> | [v ->]], Hts as [-> | (t & -> & Hnan)];
    cbn; rewrite ?String.eqb_refl, ?Hnan; try reflexivity.
  all: destruct t; try discriminate; reflexivity.
Qed.

Lemma option_for_V1 (tag : string) :
  option_for EventsV1.CoreEventSchema tag =
  if String.eqb "save_attempt" tag then Some EventsV1.SaveAttemptSchema
  else if String.eqb "snapshot_created" tag then Some EventsV1.SnapshotCreatedSchemaV1
  else if String.eqb "session_finalized" tag then Some EventsV1.SessionFinalizedSchema
  else if String.eqb "issue_created" tag then Some EventsV1.IssueCreatedSchema
  else if String.eqb "issue_resolved" tag then Some EventsV1.IssueResolvedSchema
  else if String.eqb "session_restored" tag then Some EventsV1.SessionRestoredSchema
  else if String.eqb "policy_changed" tag then Some EventsV1.PolicyChangedSchema
  else None.
Proof. reflexivity. Qed.

Lemma option_for_Core (tag : string) :
  option_for EventsCore.CoreEventSchema tag =
  if String.eqb "save_attempt" tag then Some EventsCore.SaveAttemptSchema
  else if String.eqb "snapshot_created" tag then Some EventsCore.SnapshotCreatedSchema
  else if String.eqb "session_finalized" tag then Some EventsCore.SessionFinalizedSchema
  else if String.eqb "issue_created" tag then Some EventsCore.IssueCreatedSchema
  else if String.eqb "issue_resolved" tag then Some EventsCore.IssueResolvedSchema
  else if String.eqb "session_restored" tag then Some EventsCore.SessionRestoredSchema
  else if String.eqb "policy_changed" tag then Some EventsCore.PolicyChangedSchema
  else None.
Proof. reflexivity. Qed.

Ltac find_tag H tag :=
  repeat match type of H with
    | context [String.eqb ?lit tag] =>
        let E := fresh "E" in
        destruct (String.eqb lit tag) eqn:E; rewrite ?E in H;
        [apply String.eqb_eq in E; subst tag |]
    end.

Ltac parse_envelope now u Hevent Hprops Hversion Hts :=
  match type of Hevent with
  | _ = VStr ?lit =>
      let o := eval cbv in (option_for u lit) in
      assert (Hopt : option_for u lit = o) by reflexivity;
      unfold safeParse_union; change (discriminator u) with "event";
      rewrite Hevent, Hopt;
      rewrite (envelope_parse now lit _ _ _ Hevent Hprops Hversion Hts)
  end.

(** The tags with a properties schema are the seven canonical tags. *)
Lemma canonical_tags (tag : string) :
  (In tag EventsV1.CORE_TELEMETRY_EVENTS
   <-> exists P, properties_schema EventsV1.CoreEventSchema tag = Some P)
  /\ (In tag EventsCore.CORE_TELEMETRY_EVENTS
      <-> exists P, properties_schema EventsCore.CoreEventSchema tag = Some P).
Proof.
  unfold properties_schema. rewrite option_for_V1, option_for_Core.
  split; split.
  - intros H. cbn in H.
    repeat (destruct H as [H | H]; [subst tag; eexists; reflexivity |]). destruct H.
  - intros [P HP]. find_tag HP tag; try discriminate HP; cbn; tauto.
  - intros H. cbn in H.
    repeat (destruct H as [H | H]; [subst tag; eexists; reflexivity |]). destruct H.
  - intros [P HP]. find_tag HP tag; try discriminate HP; cbn; tauto.
Qed.

Lemma V1_parse (now : Z) (fields : list (string * value)) (tag : string) (P : schema)
    (props' : value) :
  get fields "event" = VStr tag ->
  (get fields "event_version" = VUndefined
   \/ exists v, get fields "event_version" = VStr v) ->
  (get fields "timestamp" = VUndefined
   \/ exists t, get fields "timestamp" = VNum t /\ isNaN t = false) ->
  properties_schema EventsV1.CoreEventSchema tag = Some P ->
  safeParse now P ["properties"] (get fields "properties") = Ok props' ->
  safeParse_union now EventsV1.CoreEventSchema (VObj fields)
  = Ok (VObj
          [ ("event_version", supplied (get fields "event_version") (VStr "1.0.0"));
            ("timestamp", supplied (get fields "timestamp") (VNum (of_Z now)));
            ("event", VStr tag);
            ("properties", props') ]).
Proof.
  intros Hevent Hversion Hts HP Hprops.
  unfold properties_schema in HP. rewrite option_for_V1 in HP.
  find_tag HP tag; try discriminate HP;
    cbv in HP; injection HP as <-;
    parse_envelope now EventsV1.CoreEventSchema Hevent Hprops Hversion Hts;
    reflexivity.
Qed.

Lemma Core_parse (now : Z) (fields : list (string * value)) (tag : string) (P : schema)
    (props' : value) :
  get fields "event" = VStr tag ->
  (get fields "event_version" = VUndefined
   \/ exists v, get fields "event_version" = VStr v) ->
  (get fields "timestamp" = VUndefined
   \/ exists t, get fields "timestamp" = VNum t /\ isNaN t = false) ->
  properties_schema EventsCore.CoreEventSchema tag = Some P ->
  safeParse now P ["properties"] (get fields "properties") = Ok props' ->
  safeParse_union now EventsCore.CoreEventSchema (VObj fields)
  = Ok (VObj
          [ ("event_version", supplied (get fields "event_version") (VStr "1.0.0"));
            ("timestamp", supplied (get fields "timestamp") (VNum (of_Z now)));
            ("event", VStr tag);
            ("properties", props') ]).
Proof.
  intros Hevent Hversion Hts HP Hprops.
  unfold properties_schema in HP. rewrite option_for_Core in HP.
  find_tag HP tag; try discriminate HP;
    cbv in HP; injection HP as <-;
    parse_envelope now EventsCore.CoreEventSchema Hevent Hprops Hversion Hts;
    reflexivity.
Qed.

(** C9: a candidate object that carries a canonical tag and properties
    that the tag's properties schema accepts is valid whether its
    event_version and timestamp are given (a string, a finite number) or
    absent: validate returns true, explain returns null, and the parsed
    event holds the version 1.0.0 and the capture time where the candidate
    had none.  This holds of both schema modules. *)
Theorem C9_validation_supplies_defaults :
  forall (now : Z) (fields : list (string * value)) (tag : string) (P : schema)
         (props' : value),
    get fields "event" = VStr tag ->
    (get fields "event_version" = VUndefined
     \/ exists v, get fields "event_version" = VStr v) ->
    (get fields "timestamp" = VUndefined
     \/ exists t, get fields "timestamp" = VNum t /\ isFinite t = true) ->
    safeParse now P [] (get fields "properties") = Ok props' ->
    let parsed :=
      VObj
        [ ("event_version", supplied (get fields "event_version") (VStr "1.0.0"));
          ("timestamp", supplied (get fields "timestamp") (VNum (of_Z now)));
          ("event", VStr tag);
          ("properties", props') ] in
    (properties_schema EventsV1.CoreEventSchema tag = Some P ->
     EventsV1.validateCoreTelemetryEvent now (VObj fields) = true
     /\ EventsV1.getCoreEventValidationError now (VObj fields) = None
     /\ safeParse_union now EventsV1.CoreEventSchema (VObj fields) = Ok parsed)
    /\ (properties_schema EventsCore.CoreEventSchema tag = Some P ->
        EventsCore.validateCoreTelemetryEvent now (VObj fields) = true
        /\ EventsCore.getCoreEventValidationError now (VObj fields) = None
        /\ safeParse_union now EventsCore.CoreEventSchema (VObj fields) = Ok parsed).
Proof.
  intros now fields tag P props' Hevent Hversion Hfinite Hprops parsed.
  apply (safeParse_anywhere now P [] ["properties"]) in Hprops.
  assert (Hts : get fields "timestamp" = VUndefined
                \/ exists t, get fields "timestamp" = VNum t /\ isNaN t = false).
  { destruct Hfinite as [H | (t & H & Hfin)]; [left; exact H |].
    right. exists t. split; [exact H |]. destruct t; [reflexivity | discriminate ..]. }
  split; intros HP.
  - pose proof (V1_parse now fields tag P props' Hevent Hversion Hts HP Hprops) as H.
    unfold EventsV1.validateCoreTelemetryEvent, EventsV1.getCoreEventValidationError.
    rewrite H. repeat split.
  - pose proof (Core_parse now fields tag P props' Hevent Hversion Hts HP Hprops) as H.
    unfold EventsCore.validateCoreTelemetryEvent, EventsCore.getCoreEventValidationError.
    rewrite H. repeat split.
Qed.

Lemma C9_validation_supplies_defaults_witness :
  let candidate :=
    [ ("event", VStr "issue_resolved");
      ("properties", VObj [ ("issue_id", VStr "issue_12345"); ("resolution", VStr "fixed") ]) ] in
  EventsV1.validateCoreTelemetryEvent 1620000000000 (VObj candidate) = true
  /\ EventsV1.getCoreEventValidationError 1620000000000 (VObj candidate) = None
  /\ safeParse_union 1620000000000 EventsV1.CoreEventSchema (VObj candidate)
     = Ok (VObj
             [ ("event_version", VStr "1.0.0");
               ("timestamp", VNum (of_Z 1620000000000));
               ("event", VStr "issue_resolved");
               ("properties",
                 VObj [ ("issue_id", VStr "issue_12345"); ("resolution", VStr "fixed") ]) ]).
Proof.
  intros candidate.
  apply (proj1 (C9_validation_supplies_defaults 1620000000000%Z candidate "issue_resolved"
                  (z_object
                     [ ("issue_id", z_string);
                       ("resolution", z_enum ["fixed"; "ignored"; "allowlisted"]) ])
                  (VObj [ ("issue_id", VStr "issue_12345"); ("resolution", VStr "fixed") ])
                  eq_refl (or_introl eq_refl) (or_introl eq_refl) eq_refl)).
  reflexivity.
Defined.

(** *** What the validator accepts and rejects *)

(** A rejection carries at least one issue. *)
Lemma safeParse_invalid_nonempty (now : Z) (s : schema) :
  forall (p : list string) (v : value), safeParse now s p v <> Invalid [].
Proof.
  induction s as [| checks | | lit | options | element IH | shape IH | inner d IH | inner IH]
    using schema_induction; intros p v.
  - destruct v; cbn; discriminate.
  - destruct v; cbn; try discriminate.
    destruct (isNaN n); [discriminate |].
    destruct (flat_map (check_number n p) checks); discriminate.
  - destruct v; cbn; discriminate.
  - destruct v; cbn; try discriminate. destruct (String.eqb s lit); discriminate.
  - destruct v; cbn; try discriminate.
    destruct (existsb (String.eqb s) options); discriminate.
  - destruct v; try (cbn; discriminate). rewrite safeParse_array.
    destruct (parse_items now element p 0 items) as [out issues].
    destruct issues; discriminate.
  - destruct v; try (cbn; discriminate). rewrite safeParse_object.
    destruct (parse_fields now p fields shape) as [out issues].
    destruct issues; discriminate.
  - destruct v; cbn [safeParse]; apply IH.
  - destruct v; cbn [safeParse]; try apply IH. discriminate.
Qed.

(** When an object schema accepts, each key of its shape was accepted. *)
Lemma parse_fields_accepts (now : Z) (p : list string) (fields : list (string * value))
    (k : string) (sk : schema) (shape : list (string * schema))
    (out : list (string * value)) :
  parse_fields now p fields ((k, sk) :: shape) = (out, []) ->
  exists (d : value) (out' : list (string * value)),
    safeParse now sk (p ++ [k]) (get fields k) = Ok d
    /\ parse_fields now p fields shape = (out', [])
    /\ out = kept fields k d out'.
Proof.
  cbn [parse_fields].
  destruct (parse_fields now p fields shape) as [out' issues'].
  destruct (safeParse now sk (p ++ [k]) (get fields k)) as [d | here] eqn:E.
  - intros H. exists d, out'. split; [reflexivity |].
    destruct d; try (injection H as <- ->; split; reflexivity).
    unfold kept. destruct (has fields k); injection H as <- ->; split; reflexivity.
  - intros H. injection H as _ H. apply app_eq_nil in H as [-> _].
    destruct (safeParse_invalid_nonempty now sk (p ++ [k])%list (get fields k) E).
Qed.

(** The envelope of an event schema, read backwards: what it accepted. *)
Lemma envelope_accepts (now : Z) (lit : string) (pshape : list (string * schema))
    (fields : list (string * value)) (d : value) :
  safeParse now
    (z_object
       [ ("event_version", z_default z_string (Const (VStr "1.0.0")));
         ("timestamp", z_default (z_number []) DateNow);
         ("event", z_literal lit);
         ("properties", z_object pshape) ]) [] (VObj fields)
  = Ok d ->
  get fields "event" = VStr lit
  /\ (get fields "event_version" = VUndefined
      \/ exists v, get fields "event_version" = VStr v)
  /\ (get fields "timestamp" = VUndefined
      \/ exists t, get fields "timestamp" = VNum t /\ isNaN t = false)
  /\ exists props' : value,
       safeParse now (z_object pshape) ["properties"] (get fields "properties") = Ok props'
       /\ d = VObj
                [ ("event_version", supplied (get fields "event_version") (VStr "1.0.0"));
                  ("timestamp", supplied (get fields "timestamp") (VNum (of_Z now)));
                  ("event", VStr lit);
                  ("properties", props') ].
Proof.
  rewrite safeParse_object.
  destruct (parse_fields now [] fields _) as [out issues] eqn:Hfields.
  destruct issues; [| discriminate]. intros H. injection H as <-.
  apply parse_fields_accepts in Hfields as (d1 & out1 & H1 & Hfields & ->).
  apply parse_fields_accepts in Hfields as (d2 & out2 & H2 & Hfields & ->).
  apply parse_fields_accepts in Hfields as (d3 & out3 & H3 & Hfields & ->).
  apply parse_fields_accepts in Hfields as (d4 & out4 & H4 & Hfields & ->).
  cbn [parse_fields] in Hfields. injection Hfields as <-.
  cbn [app] in H1, H2, H3, H4.
  destruct (safeParse_object_is_object _ _ _ _ _ H4) as [props ->].
  assert (Hevent : get fields "event" = VStr lit /\ d3 = VStr lit).
  { cbn [safeParse] in H3. destruct (get fields "event"); try discriminate H3.
    destruct (String.eqb s lit) eqn:E; [| discriminate H3].
    apply String.eqb_eq in E. subst s. injection H3 as <-. split; reflexivity. }
  destruct Hevent as [Hevent ->].
  assert (Hversion : (get fields "event_version" = VUndefined
                      \/ exists v, get fields "event_version" = VStr v)
                     /\ d1 = supplied (get fields "event_version") (VStr "1.0.0")).
  { cbn [safeParse default_of] in H1.
    destruct (get fields "event_version"); try discriminate H1; injection H1 as <-.
    - split; [left; reflexivity | reflexivity].
    - split; [right; eexists; reflexivity | reflexivity]. }
  destruct Hversion as [Hversion ->].
  assert (Hts : (get fields "timestamp" = VUndefined
                 \/ exists t, get fields "timestamp" = VNum t /\ isNaN t = false)
                /\ d2 = supplied (get fields "timestamp") (VNum (of_Z now))).
  { cbn [safeParse default_of] in H2.
    destruct (get fields "timestamp"); try discriminate H2.
    - cbn in H2. injection H2 as <-. split; [left; reflexivity | reflexivity].
    - destruct (isNaN n) eqn:Hnan; [discriminate H2 |]. cbn in H2. injection H2 as <-.
      split; [right; exists n; split; [reflexivity | exact Hnan] | reflexivity]. }
  destruct Hts as [Hts ->].
  split; [exact Hevent |]. split; [exact Hversion |]. split; [exact Hts |].
  exists (VObj props). split; [exact H4 |].
  unfold kept.
  destruct Hversion as [-> | [v ->]], Hts as [-> | (t & -> & Hnan)]; reflexivity.
Qed.

(** The options of the two unions are envelopes around a properties schema. *)
Lemma options_V1 (tag : string) (chosen : schema) :
  option_for EventsV1.CoreEventSchema tag = Some chosen ->
  In tag EventsV1.CORE_TELEMETRY_EVENTS
  /\ exists pshape : list (string * schema),
       chosen
       = z_object
           [ ("event_version", z_default z_string (Const (VStr "1.0.0")));
             ("timestamp", z_default (z_number []) DateNow);
             ("event", z_literal tag);
             ("properties", z_object pshape) ]
       /\ properties_schema EventsV1.CoreEventSchema tag = Some (z_object pshape)
       /\ plain (z_object pshape) = true.
Proof.
  intros H. rewrite option_for_V1 in H.
  find_tag H tag; try discriminate H; injection H as <-;
    (split; [cbn; tauto |]); eexists; (split; [reflexivity |]); split; reflexivity.
Qed.

Lemma options_Core (tag : string) (chosen : schema) :
  option_for EventsCore.CoreEventSchema tag = Some chosen ->
  In tag EventsCore.CORE_TELEMETRY_EVENTS
  /\ exists pshape : list (string * schema),
       chosen
       = z_object
           [ ("event_version", z_default z_string (Const (VStr "1.0.0")));
             ("timestamp", z_default (z_number []) DateNow);
             ("event", z_literal tag);
             ("properties", z_object pshape) ]
       /\ properties_schema EventsCore.CoreEventSchema tag = Some (z_object pshape)
       /\ plain (z_object pshape) = true.
Proof.
  intros H. rewrite option_for_Core in H.
  find_tag H tag; try discriminate H; injection H as <-;
    (split; [cbn; tauto |]); eexists; (split; [reflexivity |]); split; reflexivity.
Qed.

(** What a union of envelopes accepted. *)
Lemma union_accepts (now : Z) (u : union) (tags : list string) (v d : value) :
  discriminator u = "event" ->
  (forall tag chosen,
     option_for u tag = Some chosen ->
     In tag tags
     /\ exists pshape : list (string * schema),
          chosen
          = z_object
              [ ("event_version", z_default z_string (Const (VStr "1.0.0")));
                ("timestamp", z_default (z_number []) DateNow);
                ("event", z_literal tag);
                ("properties", z_object pshape) ]
          /\ properties_schema u tag = Some (z_object pshape)
          /\ plain (z_object pshape) = true) ->
  safeParse_union now u v = Ok d ->
  exists (fields : list (string * value)) (tag : string) (P : schema) (props' : value),
    v = VObj fields
    /\ get fields "event" = VStr tag
    /\ In tag tags
    /\ properties_schema u tag = Some P
    /\ plain P = true
    /\ safeParse now P ["properties"] (get fields "properties") = Ok props'
    /\ (get fields "event_version" = VUndefined
        \/ exists ver, get fields "event_version" = VStr ver)
    /\ (get fields "timestamp" = VUndefined
        \/ exists t, get fields "timestamp" = VNum t /\ isNaN t = false)
    /\ d = VObj
             [ ("event_version", supplied (get fields "event_version") (VStr "1.0.0"));
               ("timestamp", supplied (get fields "timestamp") (VNum (of_Z now)));
               ("event", VStr tag);
               ("properties", props') ].
Proof.
  intros Hdisc Hoptions. unfold safeParse_union. rewrite Hdisc.
  destruct v as [| | | | | | fields |]; try discriminate.
  destruct (get fields "event") as [| | | | tag | | |] eqn:Hevent; try discriminate.
  destruct (option_for u tag) as [chosen |] eqn:Hchosen; [| discriminate].
  destruct (Hoptions tag chosen Hchosen) as (Htag & pshape & -> & HP & Hplain).
  intros H. apply envelope_accepts in H as (_ & Hversion & Hts & props' & Hprops & ->).
  exists fields, tag, (z_object pshape), props'. repeat split; assumption.
Qed.

(** X21: what validation accepts, in both schema modules.  When validate
    returns true the candidate is an object whose tag is one of the seven
    canonical tags and whose properties pass the properties schema of that
    tag, its event_version is absent or a string and its timestamp is absent
    or a number other than NaN; and the parsed event holds these four keys
    and no other, so every other key of the candidate is dropped. *)
Theorem X21_validation_accepts_canonical_events_only :
  forall (now : Z) (v : value),
    let accepted (u : union) (tags : list string) :=
      exists (fields : list (string * value)) (tag : string) (P : schema) (props' : value),
        v = VObj fields
        /\ get fields "event" = VStr tag
        /\ In tag tags
        /\ properties_schema u tag = Some P
        /\ safeParse now P [] (get fields "properties") = Ok props'
        /\ (get fields "event_version" = VUndefined
            \/ exists ver, get fields "event_version" = VStr ver)
        /\ (get fields "timestamp" = VUndefined
            \/ exists t, get fields "timestamp" = VNum t /\ isNaN t = false)
        /\ safeParse_union now u v
           = Ok (VObj
                   [ ("event_version", supplied (get fields "event_version") (VStr "1.0.0"));
                     ("timestamp", supplied (get fields "timestamp") (VNum (of_Z now)));
                     ("event", VStr tag);
                     ("properties", props') ]) in
    (EventsV1.validateCoreTelemetryEvent now v = true ->
     accepted EventsV1.CoreEventSchema EventsV1.CORE_TELEMETRY_EVENTS)
    /\ (EventsCore.validateCoreTelemetryEvent now v = true ->
        accepted EventsCore.CoreEventSchema EventsCore.CORE_TELEMETRY_EVENTS).
Proof.
  intros now v accepted. subst accepted. cbv beta. split.
  - unfold EventsV1.validateCoreTelemetryEvent.
    destruct (safeParse_union now EventsV1.CoreEventSchema v) as [d |] eqn:H; [| discriminate].
    intros _.
    destruct (union_accepts now EventsV1.CoreEventSchema EventsV1.CORE_TELEMETRY_EVENTS v d
                eq_refl options_V1 H)
      as (fields & tag & P & props' & -> & He & Htag & HP & _ & Hprops & Hver & Hts & ->).
    exists fields, tag, P, props'. repeat split; try assumption.
    apply (safeParse_anywhere now P ["properties"] []), Hprops.
  - unfold EventsCore.validateCoreTelemetryEvent.
    destruct (safeParse_union now EventsCore.CoreEventSchema v) as [d |] eqn:H; [| discriminate].
    intros _.
    destruct (union_accepts now EventsCore.CoreEventSchema EventsCore.CORE_TELEMETRY_EVENTS v d
                eq_refl options_Core H)
      as (fields & tag & P & props' & -> & He & Htag & HP & _ & Hprops & Hver & Hts & ->).
    exists fields, tag, P, props'. repeat split; try assumption.
    apply (safeParse_anywhere now P ["properties"] []), Hprops.
Qed.

Lemma X21_validation_accepts_canonical_events_only_witness :
  let candidate :=
    VObj
      [ ("event", VStr "issue_resolved");
        ("properties", VObj [ ("issue_id", VStr "issue_12345"); ("resolution", VStr "fixed") ]);
        ("note", VStr "dropped") ] in
  exists (fields : list (string * value)) (tag : string),
    candidate = VObj fields /\ get fields "event" = VStr tag
    /\ In tag EventsV1.CORE_TELEMETRY_EVENTS.
Proof.
  intros candidate.
  destruct (proj1 (X21_validation_accepts_canonical_events_only 1620000000000%Z candidate) eq_refl)
    as (fields & tag & _ & _ & Hv & Hevent & Htag & _).
  exists fields, tag. split; [exact Hv | split; [exact Hevent | exact Htag]].
Defined.

(** X22: validate and explain agree (validate is true exactly when explain
    is null), and both schema modules reject every candidate that is not an
    object with a canonical tag (a value that is not an object, an object
    without a tag, a legacy or unknown tag) and every object whose timestamp
    is given but is NaN or not a number, whatever else it holds. *)
Theorem X22_validation_rejects_other_candidates :
  forall (now : Z) (v : value),
    (EventsV1.validateCoreTelemetryEvent now v = true
     <-> EventsV1.getCoreEventValidationError now v = None)
    /\ (EventsCore.validateCoreTelemetryEvent now v = true
        <-> EventsCore.getCoreEventValidationError now v = None)
    /\ ((forall (fields : list (string * value)) (tag : string),
           v = VObj fields -> get fields "event" = VStr tag ->
           ~ In tag EventsV1.CORE_TELEMETRY_EVENTS) ->
        EventsV1.validateCoreTelemetryEvent now v = false
        /\ EventsCore.validateCoreTelemetryEvent now v = false)
    /\ ((exists fields : list (string * value),
           v = VObj fields
           /\ match get fields "timestamp" with
              | VUndefined => False
              | VNum t => isNaN t = true
              | _ => True
              end) ->
        EventsV1.validateCoreTelemetryEvent now v = false
        /\ EventsCore.validateCoreTelemetryEvent now v = false).
Proof.
  intros now v.
  assert (HV1 : EventsV1.validateCoreTelemetryEvent now v = true ->
                exists d, safeParse_union now EventsV1.CoreEventSchema v = Ok d).
  { unfold EventsV1.validateCoreTelemetryEvent.
    destruct (safeParse_union now EventsV1.CoreEventSchema v) as [d |];
      [eexists; reflexivity | discriminate]. }
  assert (HCore : EventsCore.validateCoreTelemetryEvent now v = true ->
                  exists d, safeParse_union now EventsCore.CoreEventSchema v = Ok d).
  { unfold EventsCore.validateCoreTelemetryEvent.
    destruct (safeParse_union now EventsCore.CoreEventSchema v) as [d |];
      [eexists; reflexivity | discriminate]. }
  split; [| split; [| split]].
  - unfold EventsV1.validateCoreTelemetryEvent, EventsV1.getCoreEventValidationError.
    destruct (safeParse_union now EventsV1.CoreEventSchema v); split; intros H;
      try reflexivity; discriminate H.
  - unfold EventsCore.validateCoreTelemetryEvent, EventsCore.getCoreEventValidationError.
    destruct (safeParse_union now EventsCore.CoreEventSchema v); split; intros H;
      try reflexivity; discriminate H.
  - intros Hother. split.
    + destruct (EventsV1.validateCoreTelemetryEvent now v) eqn:E; [| reflexivity].
      destruct (HV1 eq_refl) as [d Hd].
      destruct (union_accepts now EventsV1.CoreEventSchema EventsV1.CORE_TELEMETRY_EVENTS v d
                  eq_refl options_V1 Hd)
        as (fields & tag & _ & _ & Hv & Hevent & Htag & _).
      destruct (Hother fields tag Hv Hevent Htag).
    + destruct (EventsCore.validateCoreTelemetryEvent now v) eqn:E; [| reflexivity].
      destruct (HCore eq_refl) as [d Hd].
      destruct (union_accepts now EventsCore.CoreEventSchema EventsCore.CORE_TELEMETRY_EVENTS
                  v d eq_refl options_Core Hd)
        as (fields & tag & _ & _ & Hv & Hevent & Htag & _).
      destruct (Hother fields tag Hv Hevent Htag).
  - intros (fields & -> & Hbad). split.
    + destruct (EventsV1.validateCoreTelemetryEvent now (VObj fields)) eqn:E; [| reflexivity].
      destruct (HV1 eq_refl) as [d Hd].
      destruct (union_accepts now EventsV1.CoreEventSchema EventsV1.CORE_TELEMETRY_EVENTS _ d
                  eq_refl options_V1 Hd)
        as (fields' & tag & _ & _ & Hv & _ & _ & _ & _ & _ & _ & Hts & _).
      injection Hv as <-.
      destruct Hts as [Hts | (t & Hts & Hnan)]; rewrite Hts in Hbad; [destruct Hbad | congruence].
    + destruct (EventsCore.validateCoreTelemetryEvent now (VObj fields)) eqn:E; [| reflexivity].
      destruct (HCore eq_refl) as [d Hd].
      destruct (union_accepts now EventsCore.CoreEventSchema EventsCore.CORE_TELEMETRY_EVENTS
                  _ d eq_refl options_Core Hd)
        as (fields' & tag & _ & _ & Hv & _ & _ & _ & _ & _ & _ & Hts & _).
      injection Hv as <-.
      destruct Hts as [Hts | (t & Hts & Hnan)]; rewrite Hts in Hbad; [destruct Hbad | congruence].
Qed.

Lemma X22_validation_rejects_other_candidates_witness :
  EventsV1.validateCoreTelemetryEvent 0
    (VObj [ ("event", VStr "risk.detected"); ("properties", VObj []) ]) = false.
Proof.
  apply (proj1 (proj2 (proj2 (X22_validation_rejects_other_candidates 0%Z
           (VObj [ ("event", VStr "risk.detected"); ("properties", VObj []) ]))))).
  intros fields tag Hv Hevent. injection Hv as <-. cbn in Hevent. injection Hevent as <-.
  cbn. intros H. repeat (destruct H as [H | H]; [discriminate H |]). exact H.
Defined.

(** *** Parsing what was parsed *)

Lemma plain_object (shape : list (string * schema)) :
  plain (z_object shape)
  = distinct (map fst shape) && forallb (fun entry => plain (snd entry)) shape.
Proof.
  cbn [plain]. f_equal.
  induction shape as [| [k sk] shape' IH]; [reflexivity |].
  cbn [forallb snd]. rewrite <- IH. reflexivity.
Qed.

(** The output of an object schema holds keys of its shape only. *)
Lemma parse_fields_keys (now : Z) (p : list string) (fields : list (string * value))
    (shape : list (string * schema)) :
  forall (out : list (string * value)) (issues : list issue) (k : string),
    parse_fields now p fields shape = (out, issues) ->
    existsb (String.eqb k) (map fst shape) = false ->
    own k out = None.
Proof.
  induction shape as [| [k0 sk0] shape' IH]; intros out issues k.
  - cbn. intros H _. injection H as <- _. reflexivity.
  - cbn [parse_fields map fst existsb].
    destruct (parse_fields now p fields shape') as [out' issues'].
    intros H Hk. apply orb_false_iff in Hk as [Hk0 Hk].
    pose proof (IH out' issues' k eq_refl Hk) as Hout'.
    destruct (safeParse now sk0 (p ++ [k0]) (get fields k0)) as [d | here].
    + destruct d; try (injection H as <- _; cbn [own]; rewrite Hk0; exact Hout').
      destruct (has fields k0); injection H as <- _;
        [cbn [own]; rewrite Hk0 |]; exact Hout'.
    + injection H as <- _. exact Hout'.
Qed.

Lemma own_kept (fields : list (string * value)) (k k0 : string) (d : value)
    (out : list (string * value)) :
  own k (kept fields k0 d out)
  = if String.eqb k k0 then match held fields k0 d with Some x => Some x | None => own k out end
    else own k out.
Proof.
  unfold kept, held. destruct d; cbn [own]; try reflexivity.
  destruct (has fields k0); cbn [own]; [reflexivity |].
  destruct (String.eqb k k0); reflexivity.
Qed.

Lemma parse_fields_holds (now : Z) (p : list string) (fields : list (string * value))
    (shape : list (string * schema)) :
  forall out : list (string * value),
    distinct (map fst shape) = true ->
    parse_fields now p fields shape = (out, []) ->
    Forall
      (fun entry =>
         exists d : value,
           safeParse now (snd entry) (p ++ [fst entry]) (get fields (fst entry)) = Ok d
           /\ own (fst entry) out = held fields (fst entry) d)
      shape.
Proof.
  induction shape as [| [k0 sk0] shape' IH]; intros out Hdistinct Hfields; [constructor |].
  cbn [map fst distinct] in Hdistinct. apply andb_true_iff in Hdistinct as [Hfresh Hdistinct].
  apply negb_true_iff in Hfresh.
  apply parse_fields_accepts in Hfields as (d0 & out' & H0 & Hfields & ->).
  constructor.
  - exists d0. cbn [fst snd]. split; [exact H0 |].
    rewrite own_kept, String.eqb_refl.
    rewrite (parse_fields_keys now p fields shape' out' [] k0 Hfields Hfresh).
    destruct (held fields k0 d0); reflexivity.
  - pose proof (IH out' Hdistinct Hfields) as Hrest.
    rewrite List.Forall_forall in Hrest |- *. intros [k sk] Hin.
    destruct (Hrest (k, sk) Hin) as (d & Hd & Hown). cbn [fst snd] in *.
    exists d. split; [exact Hd |].
    rewrite own_kept.
    destruct (String.eqb k k0) eqn:E; [| exact Hown].
    apply String.eqb_eq in E. subst k0.
    assert (Hex : existsb (String.eqb k) (map fst shape') = true).
    { apply existsb_exists. exists k. split; [| apply String.eqb_refl].
      exact (List.in_map fst shape' (k, sk) Hin). }
    congruence.
Qed.

(** Parsing again an object that holds the parsed values gives the same
    output. *)
Lemma parse_fields_again (now now' : Z) (p p' : list string)
    (fields whole : list (string * value)) (shape : list (string * schema)) :
  forall out : list (string * value),
    Forall
      (fun entry =>
         forall (q q' : list string) (v d : value),
           safeParse now (snd entry) q v = Ok d -> safeParse now' (snd entry) q' d = Ok d)
      shape ->
    Forall
      (fun entry =>
         exists d : value,
           safeParse now (snd entry) (p ++ [fst entry]) (get fields (fst entry)) = Ok d
           /\ own (fst entry) whole = held fields (fst entry) d)
      shape ->
    parse_fields now p fields shape = (out, []) ->
    parse_fields now' p' whole shape = (out, []).
Proof.
  induction shape as [| [k sk] shape' IH]; intros out Hagain Hheld Hfields.
  - cbn in Hfields |- *. exact Hfields.
  - apply parse_fields_accepts in Hfields as (d & out' & Hd & Hfields & ->).
    inversion Hagain as [| ? ? Hk Hagain']; subst.
    inversion Hheld as [| ? ? (d' & Hd' & Hown) Hheld']; subst.
    cbn [fst snd] in *. rewrite Hd in Hd'. injection Hd' as <-.
    cbn [parse_fields]. rewrite (IH out' Hagain' Hheld' Hfields).
    pose proof (Hk (p ++ [k])%list (p' ++ [k])%list (get fields k) d Hd) as Hre.
    unfold held in Hown. unfold kept.
    destruct d;
      try (unfold get; rewrite Hown; rewrite Hre; reflexivity).
    destruct (has fields k) eqn:Hhas.
    + unfold get, has. rewrite Hown, Hre. reflexivity.
    + assert (Hproto : inherited k = false).
      { unfold has in Hhas. destruct (own k fields); [discriminate Hhas | exact Hhas]. }
      unfold get, has. rewrite Hown, Hproto, Hre. reflexivity.
Qed.

Lemma parse_items_accepts (now : Z) (element : schema) (p : list string) (i : nat)
    (x : value) (items out : list value) :
  parse_items now element p i (x :: items) = (out, []) ->
  exists (d : value) (out' : list value),
    safeParse now element (p ++ [string_of_Z (Z.of_nat i)]) x = Ok d
    /\ parse_items now element p (S i) items = (out', [])
    /\ out = d :: out'.
Proof.
  cbn [parse_items].
  destruct (parse_items now element p (S i) items) as [out' issues'].
  destruct (safeParse now element (p ++ [string_of_Z (Z.of_nat i)]) x) as [d | here] eqn:E.
  - intros H. injection H as <- ->. exists d, out'. repeat split.
  - intros H. injection H as _ H. apply app_eq_nil in H as [-> _].
    destruct (safeParse_invalid_nonempty now element _ x E).
Qed.

Lemma parse_items_again (now now' : Z) (element : schema) (p p' : list string) :
  (forall (q q' : list string) (v d : value),
     safeParse now element q v = Ok d -> safeParse now' element q' d = Ok d) ->
  forall (items out : list value) (i j : nat),
    parse_items now element p i items = (out, []) ->
    parse_items now' element p' j out = (out, []).
Proof.
  intros Hagain. induction items as [| x items IH]; intros out i j Hitems.
  - cbn in Hitems. injection Hitems as <-. reflexivity.
  - apply parse_items_accepts in Hitems as (d & out' & Hd & Hitems & ->).
    cbn [parse_items]. rewrite (IH out' (S i) (S j) Hitems).
    rewrite (Hagain _ (p' ++ [string_of_Z (Z.of_nat j)])%list _ _ Hd). reflexivity.
Qed.

(** Only [undefined] parses to [undefined]. *)
Lemma safeParse_undefined (now : Z) (s : schema) :
  forall (p : list string) (v : value), safeParse now s p v = Ok VUndefined -> v = VUndefined.
Proof.
  induction s as [| checks | | lit | options | element IH | shape IH | inner d IH | inner IH]
    using schema_induction; intros p v.
  - destruct v; cbn; discriminate.
  - destruct v; cbn; try discriminate.
    destruct (isNaN n); [discriminate |].
    destruct (flat_map (check_number n p) checks); discriminate.
  - destruct v; cbn; discriminate.
  - destruct v; cbn; try discriminate. destruct (String.eqb s lit); discriminate.
  - destruct v; cbn; try discriminate.
    destruct (existsb (String.eqb s) options); discriminate.
  - destruct v; try (cbn; discriminate). rewrite safeParse_array.
    destruct (parse_items now element p 0 items) as [out issues].
    destruct issues; discriminate.
  - destruct v; try (cbn; discriminate). rewrite safeParse_object.
    destruct (parse_fields now p fields shape) as [out issues].
    destruct issues; discriminate.
  - destruct v; cbn [safeParse]; try apply IH. reflexivity.
  - destruct v; cbn [safeParse]; try apply IH. reflexivity.
Qed.

(** A schema accepts what it returned, and returns it unchanged, whatever
    the time. *)
Lemma safeParse_again (now now' : Z) (s : schema) :
  plain s = true ->
  forall (p p' : list string) (v d : value),
    safeParse now s p v = Ok d -> safeParse now' s p' d = Ok d.
Proof.
  induction s as [| checks | | lit | options | element IH | shape IH | inner dflt IH | inner IH]
    using schema_induction; intros Hplain p p' v d.
  - destruct v; cbn; try discriminate. intros H. injection H as <-. reflexivity.
  - destruct v; cbn [safeParse]; try discriminate.
    destruct (isNaN n) eqn:Hnan; [discriminate |].
    pose proof (check_number_codes n p p' checks) as Hcodes.
    destruct (flat_map (check_number n p) checks); [| discriminate].
    intros H. injection H as <-. cbn [safeParse]. rewrite Hnan.
    destruct (flat_map (check_number n p') checks); [reflexivity | discriminate Hcodes].
  - destruct v; cbn; try discriminate. intros H. injection H as <-. reflexivity.
  - destruct v; cbn [safeParse]; try discriminate.
    destruct (String.eqb s lit) eqn:E; [| discriminate].
    intros H. injection H as <-. cbn [safeParse]. rewrite E. reflexivity.
  - destruct v; cbn [safeParse]; try discriminate.
    destruct (existsb (String.eqb s) options) eqn:E; [| discriminate].
    intros H. injection H as <-. cbn [safeParse]. rewrite E. reflexivity.
  - destruct v; try discriminate. rewrite safeParse_array.
    destruct (parse_items now element p 0 items) as [out issues] eqn:Hitems.
    destruct issues; [| discriminate]. intros H. injection H as <-.
    rewrite safeParse_array.
    rewrite (parse_items_again now now' element p p' (IH Hplain) items out 0%nat 0%nat Hitems).
    reflexivity.
  - destruct v; try discriminate. rewrite safeParse_object.
    destruct (parse_fields now p fields shape) as [out issues] eqn:Hfields.
    destruct issues; [| discriminate]. intros H. injection H as <-.
    rewrite plain_object in Hplain. apply andb_true_iff in Hplain as [Hdistinct Hall].
    rewrite safeParse_object.
    rewrite (parse_fields_again now now' p p' fields out shape out).
    + reflexivity.
    + rewrite forallb_forall in Hall. rewrite List.Forall_forall in IH |- *.
      intros entry Hin. apply (IH entry Hin), (Hall entry Hin).
    + apply parse_fields_holds; assumption.
    + exact Hfields.
  - cbn [plain] in Hplain. intros H.
    assert (Hinner : exists x, safeParse now inner p x = Ok d
                               /\ (v <> VUndefined /\ x = v
                                   \/ v = VUndefined /\ x = default_of now dflt)).
    { destruct v; cbn [safeParse] in H; eexists; (split; [exact H |]);
        first [right; split; reflexivity | left; split; [discriminate | reflexivity]]. }
    clear H. destruct Hinner as (x & H & Hx).
    pose proof (IH Hplain p p' x d H) as Hre.
    destruct d; cbn [safeParse]; try exact Hre.
    apply safeParse_undefined in H. subst x.
    destruct Hx as [[Hv <-] | [-> Hdflt]]; [destruct Hv; reflexivity |].
    destruct dflt as [c |]; [| discriminate Hdflt].
    cbn in Hdflt. subst c. exact Hre.
  - cbn [plain] in Hplain. destruct v; cbn [safeParse]; intros H;
      try (injection H as <-; reflexivity);
      (destruct d; cbn [safeParse]; try reflexivity; exact (IH Hplain _ p' _ _ H)).
Qed.

(** X23: the parsed event is a fixed point of validation, at any time: when
    a candidate is accepted at one clock reading, its parsed event is
    accepted at every clock reading and parses to itself (the defaults were
    supplied once and are not touched again).  This holds of both schema
    modules. *)
Theorem X23_validation_is_idempotent :
  forall (now now' : Z) (v d : value),
    (safeParse_union now EventsV1.CoreEventSchema v = Ok d ->
     safeParse_union now' EventsV1.CoreEventSchema d = Ok d
     /\ EventsV1.validateCoreTelemetryEvent now' d = true)
    /\ (safeParse_union now EventsCore.CoreEventSchema v = Ok d ->
        safeParse_union now' EventsCore.CoreEventSchema d = Ok d
        /\ EventsCore.validateCoreTelemetryEvent now' d = true).
Proof.
  intros now now' v d. split; intros H.
  - destruct (union_accepts now EventsV1.CoreEventSchema EventsV1.CORE_TELEMETRY_EVENTS v d
                eq_refl options_V1 H)
      as (fields & tag & P & props' & -> & He & Htag & HP & Hplain & Hprops & Hver & Hts & ->).
    assert (Hagain :
      safeParse_union now' EventsV1.CoreEventSchema
        (VObj
           [ ("event_version", supplied (get fields "event_version") (VStr "1.0.0"));
             ("timestamp", supplied (get fields "timestamp") (VNum (of_Z now)));
             ("event", VStr tag);
             ("properties", props') ])
      = Ok (VObj
              [ ("event_version", supplied (get fields "event_version") (VStr "1.0.0"));
                ("timestamp", supplied (get fields "timestamp") (VNum (of_Z now)));
                ("event", VStr tag);
                ("properties", props') ])).
    { erewrite V1_parse; [| reflexivity | | | exact HP | ].
      - destruct Hver as [-> | [ver ->]], Hts as [-> | (t & -> & Hnan)]; reflexivity.
      - right. destruct Hver as [-> | [ver ->]]; eexists; reflexivity.
      - right. destruct Hts as [-> | (t & -> & Hnan)]; eexists; (split; [reflexivity |]);
          [reflexivity | exact Hnan].
      - apply (safeParse_again now now' P Hplain _ _ _ _ Hprops). }
    split; [exact Hagain |].
    unfold EventsV1.validateCoreTelemetryEvent. rewrite Hagain. reflexivity.
  - destruct (union_accepts now EventsCore.CoreEventSchema EventsCore.CORE_TELEMETRY_EVENTS v d
                eq_refl options_Core H)
      as (fields & tag & P & props' & -> & He & Htag & HP & Hplain & Hprops & Hver & Hts & ->).
    assert (Hagain :
      safeParse_union now' EventsCore.CoreEventSchema
        (VObj
           [ ("event_version", supplied (get fields "event_version") (VStr "1.0.0"));
             ("timestamp", supplied (get fields "timestamp") (VNum (of_Z now)));
             ("event", VStr tag);
             ("properties", props') ])
      = Ok (VObj
              [ ("event_version", supplied (get fields "event_version") (VStr "1.0.0"));
                ("timestamp", supplied (get fields "timestamp") (VNum (of_Z now)));
                ("event", VStr tag);
                ("properties", props') ])).
    { erewrite Core_parse; [| reflexivity | | | exact HP | ].
      - destruct Hver as [-> | [ver ->]], Hts as [-> | (t & -> & Hnan)]; reflexivity.
      - right. destruct Hver as [-> | [ver ->]]; eexists; reflexivity.
      - right. destruct Hts as [-> | (t & -> & Hnan)]; eexists; (split; [reflexivity |]);
          [reflexivity | exact Hnan].
      - apply (safeParse_again now now' P Hplain _ _ _ _ Hprops). }
    split; [exact Hagain |].
    unfold EventsCore.validateCoreTelemetryEvent. rewrite Hagain. reflexivity.
Qed.

Lemma X23_validation_is_idempotent_witness :
  let parsed :=
    VObj
      [ ("event_version", VStr "1.0.0");
        ("timestamp", VNum (of_Z 1620000000000));
        ("event", VStr "issue_resolved");
        ("properties", VObj [ ("issue_id", VStr "issue_12345"); ("resolution", VStr "fixed") ]) ] in
  EventsV1.validateCoreTelemetryEvent 1700000000000 parsed = true.
Proof.
  intros parsed.
  apply (proj1 (X23_validation_is_idempotent 1620000000000%Z 1700000000000%Z
                  (VObj
                     [ ("event", VStr "issue_resolved");
                       ("properties",
                         VObj [ ("issue_id", VStr "issue_12345"); ("resolution", VStr "fixed") ]) ])
                  parsed)).
  reflexivity.
Defined.

(** The loop of an object schema over a shape in two parts. *)
Lemma parse_fields_app (now : Z) (p : list string) (fields : list (string * value))
    (shape more : list (string * schema)) :
  parse_fields now p fields (shape ++ more)%list
  = let '(out, issues) := parse_fields now p fields shape in
    let '(out', issues') := parse_fields now p fields more in
    ((out ++ out')%list, (issues ++ issues')%list).
Proof.
  induction shape as [| [k sk] shape IH]; cbn [app parse_fields].
  - destruct (parse_fields now p fields more) as [out' issues']. reflexivity.
  - rewrite IH.
    destruct (parse_fields now p fields shape) as [out issues],
             (parse_fields now p fields more) as [out' issues'].
    destruct (safeParse now sk (p ++ [k]) (get fields k)) as [d | here].
    + destruct d; try reflexivity. destruct (has fields k); reflexivity.
    + rewrite app_assoc. reflexivity.
Qed.

(** An object schema accepts what a schema with more keys accepts. *)
Lemma safeParse_fewer_keys (now : Z) (shape more : list (string * schema))
    (p : list string) (v d : value) :
  safeParse now (z_object (shape ++ more)%list) p v = Ok d ->
  exists d' : value, safeParse now (z_object shape) p v = Ok d'.
Proof.
  destruct v as [| | | | | | fields |]; try discriminate.
  rewrite !safeParse_object, parse_fields_app.
  destruct (parse_fields now p fields shape) as [out issues],
           (parse_fields now p fields more) as [out' issues'].
  destruct issues; [eexists; reflexivity |]. discriminate.
Qed.

(** Outside session_finalized the two modules hold the same schemas. *)
Lemma same_options (tag : string) :
  tag <> "session_finalized" ->
  option_for EventsCore.CoreEventSchema tag = option_for EventsV1.CoreEventSchema tag.
Proof.
  intros Htag. rewrite option_for_V1, option_for_Core.
  destruct (String.eqb "save_attempt" tag); [reflexivity |].
  destruct (String.eqb "snapshot_created" tag); [reflexivity |].
  destruct (String.eqb "session_finalized" tag) eqn:E.
  { apply String.eqb_eq in E. congruence. }
  destruct (String.eqb "issue_created" tag); [reflexivity |].
  destruct (String.eqb "issue_resolved" tag); [reflexivity |].
  destruct (String.eqb "session_restored" tag); [reflexivity |].
  destruct (String.eqb "policy_changed" tag); reflexivity.
Qed.

Lemma tagged_or_not (v : value) (tag : string) :
  field v "event" = VStr tag \/ field v "event" <> VStr tag.
Proof.
  destruct (field v "event") as [| | | | tag' | | |]; try (right; discriminate).
  destruct (String.eqb tag' tag) eqn:E.
  - left. apply String.eqb_eq in E. subst tag'. reflexivity.
  - right. intros H. injection H as ->. rewrite String.eqb_refl in E. discriminate E.
Qed.

(** X24: the two schema modules agree except on session_finalized.  Every
    candidate that the events module ([events/core.ts]) accepts, the
    telemetry module ([telemetry/events.v1.ts]) accepts too; for a candidate
    whose tag is not session_finalized the two give the same result (the
    same parsed event or the same issues); and some session_finalized
    candidate, one with an ai_confidence_score of 11, is accepted by the
    telemetry module and rejected by the events module. *)
Theorem X24_schema_modules_agree :
  (forall (now : Z) (v : value),
     (EventsCore.validateCoreTelemetryEvent now v = true ->
      EventsV1.validateCoreTelemetryEvent now v = true)
     /\ (field v "event" <> VStr "session_finalized" ->
         safeParse_union now EventsCore.CoreEventSchema v
         = safeParse_union now EventsV1.CoreEventSchema v))
  /\ (exists v : value,
        field v "event" = VStr "session_finalized"
        /\ forall now : Z,
             EventsV1.validateCoreTelemetryEvent now v = true
             /\ EventsCore.validateCoreTelemetryEvent now v = false).
Proof.
  split.
  - intros now v.
    assert (Hsame : field v "event" <> VStr "session_finalized" ->
                    safeParse_union now EventsCore.CoreEventSchema v
                    = safeParse_union now EventsV1.CoreEventSchema v).
    { intros Htag. unfold safeParse_union.
      change (discriminator EventsCore.CoreEventSchema) with "event".
      change (discriminator EventsV1.CoreEventSchema) with "event".
      destruct v as [| | | | | | fields |]; try reflexivity.
      cbn [field] in Htag.
      destruct (get fields "event") as [| | | | tag | | |]; try reflexivity.
      rewrite same_options by congruence. reflexivity. }
    split; [| exact Hsame].
    intros Hcore.
    destruct (tagged_or_not v "session_finalized") as [Htag | Htag].
    + unfold EventsCore.validateCoreTelemetryEvent in Hcore.
      unfold EventsV1.validateCoreTelemetryEvent.
      destruct (safeParse_union now EventsCore.CoreEventSchema v) as [d |] eqn:H;
        [| discriminate Hcore].
      unfold safeParse_union in H |- *.
      change (discriminator EventsCore.CoreEventSchema) with "event" in H.
      change (discriminator EventsV1.CoreEventSchema) with "event".
      destruct v as [| | | | | | fields |]; try discriminate Htag.
      cbn [field] in Htag. rewrite Htag in H |- *.
      change (option_for EventsCore.CoreEventSchema "session_finalized")
        with (Some EventsCore.SessionFinalizedSchema) in H.
      change (option_for EventsV1.CoreEventSchema "session_finalized")
        with (Some EventsV1.SessionFinalizedSchema).
      cbv iota beta in H |- *.
      apply envelope_accepts in H as (Hevent & Hversion & Hts & props' & Hprops & _).
      apply (safeParse_fewer_keys now
               [ ("session_id", z_string);
                 ("files", z_array z_string);
                 ("triggers", z_array z_string);
                 ("duration_ms", z_number []);
                 ("ai_present", z_boolean);
                 ("ai_burst", z_boolean);
                 ("highest_severity", z_enum ["low"; "medium"; "high"; "critical"]) ])
        in Hprops as [props'' Hprops].
      pose proof (envelope_parse now "session_finalized" _ fields props''
                    Hevent Hprops Hversion Hts) as Hparsed.
      change (safeParse now EventsV1.SessionFinalizedSchema [] (VObj fields)
              = Ok (VObj
                      [ ("event_version", supplied (get fields "event_version") (VStr "1.0.0"));
                        ("timestamp", supplied (get fields "timestamp") (VNum (of_Z now)));
                        ("event", VStr "session_finalized");
                        ("properties", props'') ])) in Hparsed.
      rewrite Hparsed. reflexivity.
    + unfold EventsCore.validateCoreTelemetryEvent in Hcore.
      unfold EventsV1.validateCoreTelemetryEvent.
      rewrite <- (Hsame Htag). exact Hcore.
  - exists (VObj
              [ ("event", VStr "session_finalized");
                ("properties",
                  VObj
                    [ ("session_id", VStr "sess_12345");
                      ("files", VArr []);
                      ("triggers", VArr []);
                      ("duration_ms", VNum (of_Z 120000));
                      ("ai_present", VBool true);
                      ("ai_burst", VBool false);
                      ("highest_severity", VStr "low");
                      ("ai_confidence_score", VNum (of_Z 11)) ]) ]).
    split; [reflexivity |]. intros now. split; reflexivity.
Qed.

Lemma X24_schema_modules_agree_witness :
  EventsV1.validateCoreTelemetryEvent 0
    (VObj
       [ ("event", VStr "issue_resolved");
         ("properties", VObj [ ("issue_id", VStr "issue_12345"); ("resolution", VStr "fixed") ]) ])
  = true.
Proof.
  apply (proj1 (proj1 X24_schema_modules_agree 0%Z _)). reflexivity.
Defined.

End Validator.

(** ** The session creation options *)

Section SessionOptions.
Import JS Zod Session SessionSchemas.

(** What the array of triggers parses to. *)
Lemma parse_triggers (now : Z) (p : list string) :
  forall (items out : list value) (i : nat),
    parse_items now SessionTriggerSchema p i items = (out, []) ->
    out = items
    /\ exists ts : list SessionTrigger, out = map (fun t => VStr (trigger_name t)) ts.
Proof.
  induction items as [| x items IH]; intros out i H.
  - cbn in H. injection H as <-. split; [reflexivity |]. exists []. reflexivity.
  - apply parse_items_accepts in H as (d & out' & Hd & H & ->).
    destruct (IH out' (S i) H) as [-> [ts ->]].
    unfold SessionTriggerSchema in Hd. cbn [safeParse] in Hd.
    destruct x as [| | | | s | | |]; try discriminate Hd.
    destruct (existsb (String.eqb s) _) eqn:E; [| discriminate Hd].
    injection Hd as <-. split; [reflexivity |].
    cbn [existsb] in E.
    destruct (String.eqb s "filewatch") eqn:E1;
      [apply String.eqb_eq in E1; subst s; exists (filewatch :: ts); reflexivity |].
    destruct (String.eqb s "pre-commit") eqn:E2;
      [apply String.eqb_eq in E2; subst s; exists (pre_commit :: ts); reflexivity |].
    destruct (String.eqb s "manual") eqn:E3;
      [apply String.eqb_eq in E3; subst s; exists (manual :: ts); reflexivity |].
    destruct (String.eqb s "idle-finalize") eqn:E4;
      [apply String.eqb_eq in E4; subst s; exists (idle_finalize :: ts); reflexivity |].
    discriminate E.
Qed.

(** X25: what CreateSessionOptionsSchema accepts has a string workspaceUri,
    kept as it is, and parses to options whose triggers are an array of
    session triggers, which encodeTriggerBitmask therefore encodes to a mask
    from 0 to 15: the triggers given, unchanged, or the single trigger
    filewatch (mask 1) when none are given. *)
Theorem X25_session_options_hold_triggers :
  forall (now : Z) (p : list string) (v d : value),
    safeParse now CreateSessionOptionsSchema p v = Ok d ->
    exists (uri : string) (ts : list SessionTrigger),
      field v "workspaceUri" = VStr uri
      /\ field d "workspaceUri" = VStr uri
      /\ field d "triggers" = VArr (map (fun t => VStr (trigger_name t)) ts)
      /\ (field v "triggers" = VUndefined ->
          ts = [filewatch] /\ encodeTriggerBitmask ts = 1%Z)
      /\ (field v "triggers" <> VUndefined -> field d "triggers" = field v "triggers")
      /\ (0 <= encodeTriggerBitmask ts < 16)%Z.
Proof.
  intros now p v d. unfold CreateSessionOptionsSchema.
  destruct v as [| | | | | | fields |]; try discriminate.
  rewrite safeParse_object.
  destruct (parse_fields now p fields _) as [out issues] eqn:Hfields.
  destruct issues; [| discriminate]. intros H. injection H as <-.
  apply parse_fields_accepts in Hfields as (d1 & out1 & H1 & Hfields & ->).
  apply parse_fields_accepts in Hfields as (d2 & out2 & H2 & Hfields & ->).
  apply parse_fields_accepts in Hfields as (d3 & out3 & H3 & Hfields & ->).
  cbn [parse_fields] in Hfields. injection Hfields as <-.
  cbn [field].
  assert (Huri : exists uri, get fields "workspaceUri" = VStr uri /\ d1 = VStr uri).
  { cbn [safeParse] in H1. destruct (get fields "workspaceUri"); try discriminate H1.
    injection H1 as <-. eexists. split; reflexivity. }
  destruct Huri as (uri & Huri & ->).
  assert (Htriggers :
    exists ts : list SessionTrigger,
      d2 = VArr (map (fun t => VStr (trigger_name t)) ts)
      /\ (get fields "triggers" = VUndefined -> ts = [filewatch])
      /\ (get fields "triggers" <> VUndefined -> d2 = get fields "triggers")).
  { assert (H2' : safeParse now (z_array SessionTriggerSchema) (p ++ ["triggers"])
                    (supplied (get fields "triggers") (VArr [VStr "filewatch"])) = Ok d2).
    { destruct (get fields "triggers"); exact H2. }
    clear H2.
    assert (Harray :
      supplied (get fields "triggers") (VArr [VStr "filewatch"]) = d2
      /\ exists ts, d2 = VArr (map (fun t => VStr (trigger_name t)) ts)).
    { destruct (supplied _ _) as [| | | | | items | |]; try discriminate H2'.
      rewrite safeParse_array in H2'.
      destruct (parse_items now SessionTriggerSchema (p ++ ["triggers"]) 0 items)
        as [out issues] eqn:Hitems.
      destruct issues; [| discriminate H2']. injection H2' as <-.
      destruct (parse_triggers now _ items out 0%nat Hitems) as [-> [ts ->]].
      split; [reflexivity | exists ts; reflexivity]. }
    destruct Harray as [Hx [ts Hts]]. exists ts.
    split; [exact Hts |]. split.
    - intros Hnone. rewrite Hnone in Hx. cbn [supplied] in Hx.
      rewrite <- Hx in Hts. injection Hts as Hts.
      destruct ts as [| t [| t' ts]]; try discriminate Hts.
      destruct t; try discriminate Hts. reflexivity.
    - intros Hgiven. rewrite <- Hx.
      destruct (get fields "triggers"); try reflexivity. destruct Hgiven. reflexivity. }
  destruct Htriggers as (ts & -> & Hdefault & Hgiven).
  exists uri, ts. split; [exact Huri |].
  split; [reflexivity |]. split; [reflexivity |].
  split; [intros Hnone; rewrite (Hdefault Hnone); split; reflexivity |].
  split; [exact Hgiven | apply encode_small].
Qed.

Lemma X25_session_options_hold_triggers_witness :
  exists (uri : string) (ts : list SessionTrigger),
    field (VObj [ ("workspaceUri", VStr "file:///work") ]) "workspaceUri" = VStr uri
    /\ ts = [filewatch].
Proof.
  destruct (X25_session_options_hold_triggers 0%Z []
              (VObj [ ("workspaceUri", VStr "file:///work") ])
              (VObj [ ("workspaceUri", VStr "file:///work");
                      ("triggers", VArr [VStr "filewatch"]) ]) eq_refl)
    as (uri & ts & Huri & _ & _ & Hdefault & _).
  exists uri, ts. split; [exact Huri |]. apply Hdefault. reflexivity.
Defined.

End SessionOptions.

(** ** The guards of the legacy events *)

Section Guards.
Import JS TelemetryGuards.

(** X26: validateTelemetryEvent returns true on the event object of every
    event of the seventeen legacy interfaces, whatever the values of its
    properties (NaN numbers and a null actionTaken included). *)
Theorem X26_guard_accepts_the_seventeen_interfaces :
  forall a : TelemetryEvents.AllowedTelemetryEvent,
    validateTelemetryEvent (object_of a) = Return true
    /\ TelemetryEvents.is_legacy_tag (event (object_of a)) = true.
Proof.
  intros a. destruct a; try (split; reflexivity);
    destruct actionTaken; split; reflexivity.
Qed.

Ltac split_tags tag :=
  repeat match goal with
    | |- context [String.eqb tag ?lit] =>
        let E := fresh "E" in
        destruct (String.eqb tag lit) eqn:E;
        [ apply String.eqb_eq in E; subst tag;
          cbn [String.eqb Ascii.eqb Bool.eqb orb]; cbv iota
        | cbv iota; cbn [orb] ]
    end.

Lemma and_then_returns (a b : completion bool) :
  (exists x, a = Return x) -> (exists y, b = Return y) -> exists z, and_then a b = Return z.
Proof.
  intros [x ->] [y ->]. cbn. destruct x; eexists; reflexivity.
Qed.

Lemma and_then_throws (a b : completion bool) (m : string) :
  a = Throw (TypeError m) -> and_then a b = Throw (TypeError m).
Proof. intros ->. reflexivity. Qed.

Lemma and_then_true (a b : completion bool) :
  and_then a b = Return true <-> a = Return true /\ b = Return true.
Proof.
  unfold and_then. destruct a as [[|] | e]; cbn; split;
    try (intros [H _]; discriminate H); try discriminate; tauto.
Qed.

(** With properties every validator returns. *)
Lemma guard_returns (tag : string) (fields : list (string * value)) (ts : number) :
  exists b : bool,
    validateTelemetryEvent {| event := tag; properties := Some fields; timestamp := ts |}
    = Return b.
Proof.
  unfold validateTelemetryEvent. cbn [event]. split_tags tag;
    try (eexists; reflexivity);
    repeat apply and_then_returns; eexists; reflexivity.
Qed.

(** Without properties the validator of every legacy tag throws. *)
Lemma guard_throws (tag : string) (ts : number) :
  TelemetryEvents.is_legacy_tag tag = true ->
  exists m : string,
    validateTelemetryEvent {| event := tag; properties := None; timestamp := ts |}
    = Throw (TypeError m).
Proof.
  unfold validateTelemetryEvent, TelemetryEvents.is_legacy_tag. cbn [event existsb TelemetryEvents.TELEMETRY_EVENTS].
  split_tags tag; intros H; try discriminate H; eexists; reflexivity.
Qed.

Lemma guard_unknown_tag (tag : string) (props : option (list (string * value))) (ts : number) :
  TelemetryEvents.is_legacy_tag tag = false ->
  validateTelemetryEvent {| event := tag; properties := props; timestamp := ts |}
  = Return false.
Proof.
  unfold validateTelemetryEvent, TelemetryEvents.is_legacy_tag. cbn [event existsb TelemetryEvents.TELEMETRY_EVENTS].
  split_tags tag; intros H; try discriminate H; reflexivity.
Qed.

(** X27: validateTelemetryEvent returns false for every tag that is not one
    of the seventeen, with or without properties; for a legacy tag on an
    event without properties it throws a [TypeError]; with properties it
    always returns.  So it returns true only for a legacy tag with
    properties; and it never looks at the timestamp. *)
Theorem X27_guard_errors_and_rejections :
  forall e : TelemetryEvent,
    (TelemetryEvents.is_legacy_tag (event e) = false ->
     validateTelemetryEvent e = Return false)
    /\ (TelemetryEvents.is_legacy_tag (event e) = true -> properties e = None ->
        exists m : string, validateTelemetryEvent e = Throw (TypeError m))
    /\ (properties e <> None -> exists b : bool, validateTelemetryEvent e = Return b)
    /\ (validateTelemetryEvent e = Return true ->
        TelemetryEvents.is_legacy_tag (event e) = true /\ properties e <> None)
    /\ (forall t : number,
          validateTelemetryEvent
            {| event := event e; properties := properties e; timestamp := t |}
          = validateTelemetryEvent e).
Proof.
  intros [tag props ts]. cbn [event properties].
  split; [apply guard_unknown_tag |].
  split; [intros Htag ->; apply guard_throws, Htag |].
  split; [destruct props as [fields |]; [intros _; apply guard_returns | congruence] |].
  split; [| reflexivity].
  intros H. destruct (TelemetryEvents.is_legacy_tag tag) eqn:Htag.
  - split; [reflexivity |]. intros ->.
    destruct (guard_throws tag ts Htag) as [m Hm]. congruence.
  - rewrite (guard_unknown_tag tag props ts Htag) in H. discriminate H.
Qed.

Lemma own_app (k : string) (fields more : list (string * value)) (v : value) :
  own k fields = Some v -> own k (fields ++ more)%list = Some v.
Proof.
  induction fields as [| [k' v'] fields IH]; [discriminate |].
  cbn [own app]. destruct (String.eqb k k'); [trivial | exact IH].
Qed.

(** A property of one of the checked kinds is an own property, which more
    properties after it do not hide. *)
Lemma has_type_app (tag k t : string) (fields more : list (string * value)) (ts : number) :
  t = "string" \/ t = "number" \/ t = "boolean" ->
  has_type {| event := tag; properties := Some fields; timestamp := ts |} k t = Return true ->
  has_type {| event := tag; properties := Some (fields ++ more)%list; timestamp := ts |} k t
  = Return true.
Proof.
  intros Ht. unfold has_type, property. cbn [properties bind]. unfold get.
  destruct (own k fields) as [v |] eqn:Hown.
  - rewrite (own_app k fields more v Hown). trivial.
  - destruct Ht as [-> | [-> | ->]]; destruct (inherited k); cbn;
      try destruct (String.eqb k "__proto__"); discriminate.
Qed.

Lemma is_array_app (tag k : string) (fields more : list (string * value)) (ts : number) :
  is_array {| event := tag; properties := Some fields; timestamp := ts |} k = Return true ->
  is_array {| event := tag; properties := Some (fields ++ more)%list; timestamp := ts |} k
  = Return true.
Proof.
  unfold is_array, property. cbn [properties bind]. unfold get.
  destruct (own k fields) as [v |] eqn:Hown.
  - rewrite (own_app k fields more v Hown). trivial.
  - destruct (inherited k); discriminate.
Qed.

Lemma null_or_string_app (tag k : string) (fields more : list (string * value)) (ts : number) :
  null_or_string {| event := tag; properties := Some fields; timestamp := ts |} k
  = Return true ->
  null_or_string {| event := tag; properties := Some (fields ++ more)%list; timestamp := ts |} k
  = Return true.
Proof.
  unfold null_or_string, property. cbn [properties bind]. unfold get.
  destruct (own k fields) as [v |] eqn:Hown.
  - rewrite (own_app k fields more v Hown). trivial.
  - destruct (inherited k); cbn; try destruct (String.eqb k "__proto__"); discriminate.
Qed.

Lemma no_keys (fields : list (string * value)) :
  Nat.eqb (length (Object_keys fields)) 0 = match fields with [] => true | _ => false end.
Proof. destruct fields as [| [k v] rest]; reflexivity. Qed.

(** X28: an event that validateTelemetryEvent accepts is still accepted
    with more properties after its own, except for the four events without
    properties (extension.deactivated, the two signature verification events
    and rules.cached.fallback): these are accepted with an empty properties
    object only. *)
Theorem X28_guard_tolerates_extra_properties :
  forall (tag : string) (fields more : list (string * value)) (ts : number),
    validateTelemetryEvent {| event := tag; properties := Some fields; timestamp := ts |}
    = Return true ->
    let without_properties :=
      existsb (String.eqb tag)
        [ TelemetryEvents.EXTENSION_DEACTIVATED;
          TelemetryEvents.SIGNATURE_VERIFICATION_SUCCESS;
          TelemetryEvents.SIGNATURE_VERIFICATION_FAILED;
          TelemetryEvents.RULES_CACHED_FALLBACK ] in
    (without_properties = true -> fields = [])
    /\ validateTelemetryEvent
         {| event := tag; properties := Some (fields ++ more)%list; timestamp := ts |}
       = Return (if without_properties
                 then match more with [] => true | _ => false end
                 else true).
Proof.
  intros tag fields more ts.
  unfold validateTelemetryEvent. cbn [event existsb].
  unfold validateExtensionActivatedEvent, validateExtensionDeactivatedEvent,
    validateCommandExecutionEvent, validateSnapshotCreatedEvent, validateSnapBackUsedEvent,
    validateRiskDetectedEvent, validateViewActivatedEvent, validateNotificationShownEvent,
    validateFeatureUsedEvent, validateErrorEvent, validateWalkthroughStepCompletedEvent,
    validateOnboardingProtectionAssignedEvent, validateOnboardingPhaseProgressedEvent,
    validateOnboardingContextualPromptShownEvent, validateSignatureVerificationSuccessEvent,
    validateSignatureVerificationFailedEvent, validateRulesCachedFallbackEvent, no_properties.
  cbn [properties].
  split_tags tag; intros H; cbn [orb];
    try discriminate H;
    try (rewrite no_keys in H; destruct fields; [| discriminate H];
         split; [reflexivity |]; cbn [app]; rewrite no_keys; reflexivity);
    (split; [discriminate |]);
    rewrite ?and_then_true in H |- *;
    repeat match goal with
      | H : _ /\ _ |- _ => destruct H
      end;
    repeat split;
    first [ apply has_type_app; [tauto | assumption]
          | apply is_array_app; assumption
          | apply null_or_string_app; assumption ].
Qed.

Lemma X28_guard_tolerates_extra_properties_witness :
  validateTelemetryEvent
    {| event := "feature.used";
       properties := Some [ ("feature", VStr "restore"); ("source", VStr "menu") ];
       timestamp := of_Z 1700000000000 |}
  = Return true.
Proof.
  apply (proj2 (X28_guard_tolerates_extra_properties "feature.used" [ ("feature", VStr "restore") ]
                  [ ("source", VStr "menu") ] (of_Z 1700000000000) eq_refl)).
Defined.

Lemma X27_guard_errors_and_rejections_witness :
  exists m : string,
    validateTelemetryEvent
      {| event := "risk.detected"; properties := None; timestamp := of_Z 1700000000000 |}
    = Throw (TypeError m).
Proof.
  apply (proj1 (proj2 (X27_guard_errors_and_rejections
           {| event := "risk.detected"; properties := None;
              timestamp := of_Z 1700000000000 |}))); reflexivity.
Defined.

End Guards.

(** ** The event bus *)

Section Bus.
Import JS EventBus.
Local Open Scope list_scope.
Context {H P : Type} `{EqDecision H}.
Implicit Types (b : @bus H) (k : string) (h : H).

Lemma handlers_on (b : @bus H) (k : string) (h : H) :
  handlers (on k h b) k = Set_add h (handlers b k).
Proof. unfold on, handlers, bus. rewrite lookup_insert_eq. reflexivity. Qed.

Lemma handlers_on_other (b : @bus H) (k k' : string) (h : H) :
  k' <> k -> handlers (on k h b) k' = handlers b k'.
Proof.
  intros Hk. unfold on, handlers, bus.
  rewrite lookup_insert_ne by (intros E; apply Hk; symmetry; exact E). reflexivity.
Qed.

Lemma Set_add_twice (h : H) (set : list H) : Set_add h (Set_add h set) = Set_add h set.
Proof.
  unfold Set_add. destruct (bool_decide (h ∈ set)) eqn:E.
  - rewrite E. reflexivity.
  - assert (Hin : bool_decide (h ∈ set ++ [h]) = true).
    { apply bool_decide_eq_true. apply elem_of_app. right. apply list_elem_of_singleton. reflexivity. }
    rewrite Hin. reflexivity.
Qed.

Lemma Set_add_NoDup (h : H) (set : list H) : NoDup set -> NoDup (Set_add h set).
Proof.
  intros Hset. unfold Set_add. destruct (bool_decide (h ∈ set)) eqn:E; [exact Hset |].
  apply bool_decide_eq_false in E.
  apply NoDup_app. split; [exact Hset |]. split.
  - intros x Hx Hx'. apply list_elem_of_singleton in Hx'. subst x. contradiction.
  - apply NoDup_singleton.
Qed.

Lemma filter_out (h : H) (set : list H) :
  h ∉ List.filter (fun h' => negb (bool_decide (h' = h))) set.
Proof.
  intros Hin. apply list_elem_of_In, filter_In in Hin as [_ Hin].
  apply negb_true_iff, bool_decide_eq_false in Hin. congruence.
Qed.

Lemma filter_absent (h : H) (set : list H) :
  h ∉ set -> List.filter (fun h' => negb (bool_decide (h' = h))) set = set.
Proof.
  induction set as [| x set IH]; intros Hnot; [reflexivity |].
  cbn [List.filter]. apply not_elem_of_cons in Hnot as [Hx Hnot].
  assert (E : bool_decide (x = h) = false) by (apply bool_decide_eq_false; congruence).
  rewrite E. cbn. rewrite IH by exact Hnot. reflexivity.
Qed.

Lemma filter_added (h : H) (set : list H) :
  h ∉ set -> List.filter (fun h' => negb (bool_decide (h' = h))) (set ++ [h]) = set.
Proof.
  intros Hnot. rewrite List.filter_app, filter_absent by exact Hnot. cbn.
  assert (E : bool_decide (h = h) = true) by (apply bool_decide_eq_true; reflexivity).
  rewrite E. cbn. apply app_nil_r.
Qed.

Lemma lookup_on (b : @bus H) (k : string) (h : H) :
  on k h b !! k = Some (Set_add h (handlers b k)).
Proof. unfold on, bus. apply lookup_insert_eq. Qed.

Lemma added (h : H) (set : list H) : h ∈ Set_add h set.
Proof.
  unfold Set_add. destruct (bool_decide (h ∈ set)) eqn:E.
  - apply bool_decide_eq_true in E. exact E.
  - apply elem_of_app. right. apply list_elem_of_singleton. reflexivity.
Qed.

(** Unsubscribing right after subscribing finds the handler. *)
Lemma unsubscribe_on (b : @bus H) (k : string) (h : H) :
  unsubscribe k h (on k h b)
  = (true,
     <[k := List.filter (fun h' => negb (bool_decide (h' = h))) (Set_add h (handlers b k))]>
       (on k h b)).
Proof.
  unfold unsubscribe, Set_delete. rewrite lookup_on.
  rewrite bool_decide_eq_true_2 by apply added. reflexivity.
Qed.

(** X29: the handlers of an event form a set in insertion order.
    Subscribing a handler twice is the same as subscribing it once; a new
    handler goes after the ones already there and a known one keeps its
    place; the handlers of the other events are untouched and no handler is
    listed twice.  The function that [on] returns finds the handler and
    removes it, and only it: if the handler was new, the handlers of every
    event are as before the subscription; called again it finds nothing. *)
Theorem X29_subscriptions_form_a_set :
  forall (b : @bus H) (k : string) (h : H),
    on k h (on k h b) = on k h b
    /\ (In h (handlers b k) -> handlers (on k h b) k = handlers b k)
    /\ (~ In h (handlers b k) -> handlers (on k h b) k = handlers b k ++ [h])
    /\ (forall k' : string, k' <> k -> handlers (on k h b) k' = handlers b k')
    /\ (List.NoDup (handlers b k) -> List.NoDup (handlers (on k h b) k))
    /\ (let after := unsubscribe k h (on k h b) in
        fst after = true
        /\ ~ In h (handlers (snd after) k)
        /\ (forall k' : string, k' <> k -> handlers (snd after) k' = handlers b k')
        /\ (~ In h (handlers b k) -> handlers (snd after) k = handlers b k)
        /\ fst (unsubscribe k h (snd after)) = false).
Proof.
  intros b k h.
  split; [| split; [| split; [| split; [| split]]]].
  - unfold on at 1. rewrite handlers_on, Set_add_twice. unfold on, bus. apply insert_insert_eq.
  - intros Hin. rewrite handlers_on. unfold Set_add.
    rewrite bool_decide_eq_true_2 by (apply list_elem_of_In; exact Hin). reflexivity.
  - intros Hnot. rewrite handlers_on. unfold Set_add.
    rewrite bool_decide_eq_false_2 by (rewrite list_elem_of_In; exact Hnot). reflexivity.
  - intros k'. apply handlers_on_other.
  - rewrite handlers_on, <- !NoDup_ListNoDup. apply Set_add_NoDup.
  - cbv zeta. rewrite unsubscribe_on. cbn [fst snd].
    split; [reflexivity |].
    split; [unfold handlers, bus; rewrite lookup_insert_eq, <- list_elem_of_In;
            apply filter_out |].
    split.
    { intros k' Hk. rewrite <- (handlers_on_other b k k' h Hk).
      unfold handlers, bus.
      rewrite lookup_insert_ne by (intros E; apply Hk; symmetry; exact E). reflexivity. }
    split.
    + intros Hnot. rewrite <- list_elem_of_In in Hnot.
      unfold handlers at 1, bus. rewrite lookup_insert_eq.
      unfold Set_add. rewrite bool_decide_eq_false_2 by exact Hnot.
      apply filter_added, Hnot.
    + unfold unsubscribe, Set_delete, bus. rewrite lookup_insert_eq. cbn [fst].
      apply bool_decide_eq_false, filter_out.
Qed.

Lemma call_each_record (hs : list H) (p : P) (b : @bus H) (log : list (H * P)) :
  call_each record hs p (b, log) = Return (b, log ++ map (fun h => (h, p)) hs).
Proof.
  revert log. induction hs as [| h hs IH]; intros log; cbn [call_each map].
  - rewrite app_nil_r. reflexivity.
  - unfold record at 1. cbn [bind fst snd]. rewrite IH, <- app_assoc. reflexivity.
Qed.

Lemma call_each_app {W : Type} (call : H -> P -> @bus H * W -> completion (@bus H * W))
    (hs1 hs2 : list H) (p : P) (s : @bus H * W) :
  call_each call (hs1 ++ hs2) p s
  = let* s1 := call_each call hs1 p s in call_each call hs2 p s1.
Proof.
  revert s. induction hs1 as [| h hs1 IH]; intros s; cbn [call_each app]; [reflexivity |].
  destruct (call h p s) as [s' | e]; cbn [bind]; [apply IH | reflexivity].
Qed.

Lemma handlers_subscribed (hs : list H) (k : string) :
  forall b : @bus H,
    handlers (fold_left (fun b h => on k h b) hs b) k
    = fold_left (fun set h => Set_add h set) hs (handlers b k).
Proof.
  induction hs as [| h hs IH]; intros b; cbn [fold_left]; [reflexivity |].
  rewrite IH, handlers_on. reflexivity.
Qed.

Lemma handlers_subscribed_other (hs : list H) (k k' : string) :
  k' <> k ->
  forall b : @bus H, handlers (fold_left (fun b h => on k h b) hs b) k' = handlers b k'.
Proof.
  intros Hk. induction hs as [| h hs IH]; intros b; cbn [fold_left]; [reflexivity |].
  rewrite IH. apply handlers_on_other, Hk.
Qed.

Lemma add_all_fresh (hs : list H) :
  forall acc : list H,
    List.NoDup (acc ++ hs) -> fold_left (fun set h => Set_add h set) hs acc = acc ++ hs.
Proof.
  induction hs as [| h hs IH]; intros acc Hfresh; cbn [fold_left].
  - rewrite app_nil_r. reflexivity.
  - assert (Hnot : ~ In h acc).
    { intros Hin. apply List.NoDup_remove_2 in Hfresh. apply Hfresh.
      apply in_or_app. left. exact Hin. }
    unfold Set_add at 2.
    rewrite bool_decide_eq_false_2 by (rewrite list_elem_of_In; exact Hnot).
    rewrite IH; rewrite <- app_assoc; [reflexivity | exact Hfresh].
Qed.

Lemma emit_handlers {W : Type} (call : H -> P -> @bus H * W -> completion (@bus H * W))
    (k : string) (p : P) (s : @bus H * W) :
  emit call k p s = call_each call (handlers (fst s) k) p s.
Proof. unfold emit, handlers. destruct (fst s !! k); reflexivity. Qed.

Lemma handlers_lookup (b : @bus H) (k : string) (h : H) (set : list H) :
  handlers b k = set -> In h set -> b !! k = Some set.
Proof.
  unfold handlers. destruct (b !! k) as [set' |]; intros <- Hin; [reflexivity | destruct Hin].
Qed.

(** X30: emit calls the handlers of its event, each once, in the order of
    subscription, and the handlers of no other event: with handlers that
    record their calls, after subscribing distinct handlers to an event the
    record of an emit is these handlers in order, each with the payload;
    subscribing one of them again changes nothing; an emit of another event
    records nothing.  An emit on an event without handlers does nothing, and
    when a handler throws, the exception leaves emit and the handlers after
    it are not called. *)
Theorem X30_emit_calls_the_handlers_in_order :
  (forall (hs : list H) (k : string) (p : P) (log : list (H * P)),
     List.NoDup hs ->
     let b : @bus H := fold_left (fun b h => on k h b) hs ∅ in
     emit record k p (b, log) = Return (b, log ++ map (fun h => (h, p)) hs)
     /\ (forall h : H, In h hs -> on k h b = b)
     /\ (forall k' : string, k' <> k -> emit record k' p (b, log) = Return (b, log)))
  /\ (forall (W : Type) (call : H -> P -> @bus H * W -> completion (@bus H * W))
             (k : string) (p : P) (s : @bus H * W),
        handlers (fst s) k = [] -> emit call k p s = Return s)
  /\ (forall (W : Type) (call : H -> P -> @bus H * W -> completion (@bus H * W))
             (k : string) (p : P) (s s1 : @bus H * W)
             (hs1 hs2 : list H) (h : H) (e : exn),
        handlers (fst s) k = hs1 ++ h :: hs2 ->
        call_each call hs1 p s = Return s1 ->
        call h p s1 = Throw e ->
        emit call k p s = Throw e).
Proof.
  split; [| split].
  - intros hs k p log Hfresh b.
    assert (Hb : handlers b k = hs).
    { subst b. rewrite handlers_subscribed. apply (add_all_fresh hs []). exact Hfresh. }
    split; [| split].
    + rewrite emit_handlers. cbn [fst]. rewrite Hb. apply call_each_record.
    + intros h Hin. unfold on. rewrite Hb. unfold Set_add.
      rewrite bool_decide_eq_true_2 by (apply list_elem_of_In; exact Hin).
      unfold bus. apply insert_id. apply (handlers_lookup b k h hs Hb Hin).
    + intros k' Hk. rewrite emit_handlers. cbn [fst]. subst b.
      rewrite (handlers_subscribed_other hs k k' Hk). reflexivity.
  - intros W call k p s Hnone. rewrite emit_handlers, Hnone. reflexivity.
  - intros W call k p s s1 hs1 hs2 h e Hhandlers Hbefore Hthrow.
    rewrite emit_handlers, Hhandlers, call_each_app, Hbefore.
    cbn [bind call_each]. rewrite Hthrow. reflexivity.
Qed.

End Bus.

Lemma X29_subscriptions_form_a_set_witness :
  EventBus.handlers
    (EventBus.on "risk:detected" 2%nat (EventBus.on "risk:detected" 1%nat (∅ : @EventBus.bus nat)))
    "risk:detected"
  = (EventBus.handlers (EventBus.on "risk:detected" 1%nat (∅ : @EventBus.bus nat))
       "risk:detected" ++ [2%nat])%list.
Proof.
  apply (proj1 (proj2 (proj2 (X29_subscriptions_form_a_set (H := nat)
           (EventBus.on "risk:detected" 1%nat ∅) "risk:detected" 2%nat)))).
  vm_compute. intros [E | []]. discriminate E.
Defined.

Lemma X30_emit_calls_the_handlers_in_order_witness :
  EventBus.emit EventBus.record "risk:detected" 7%Z
    (fold_left (fun b h => EventBus.on "risk:detected" h b) [2%nat; 1%nat]
       (∅ : @EventBus.bus nat), [])
  = JS.Return
      (fold_left (fun b h => EventBus.on "risk:detected" h b) [2%nat; 1%nat] ∅,
       [(2%nat, 7%Z); (1%nat, 7%Z)]).
Proof.
  apply (proj1 (X30_emit_calls_the_handlers_in_order (H := nat) (P := Z))
           [2%nat; 1%nat] "risk:detected" 7%Z []).
  repeat constructor; cbn; intuition discriminate.
Defined.
